(** * Prompt-ops backend: request orchestration engine

    A shallow embedding of the JavaScript sources

      - [src/chatbot.js]                 (module [Chatbot]),
      - [src/services/geminiService.js]  lines 1-318, the stateless service
                                         (module [GeminiService]),
      - [src/services/geminiService.js]  lines 320-604, the session service
                                         (module [ChatService]),
      - [src/controllers/chatController.js]  (module [ChatController]),
      - [src/unnamed/part_002], the controller of the one-shot service
                                         (module [ContentController]),

    followed by the properties of the retrying invoker, the content
    classifier, the quiz-count extraction, the session store, the
    attachment handling, image generation and the controllers.

    Conventions of the embedding.
    - A JavaScript string is carried as the bytes of its UTF-8 encoding.
      The keywords, the digits and the letters that the code looks for are
      ASCII, and no byte of another character is one of theirs; the white
      space of the regular expression is matched character by character,
      whatever its number of bytes.  [toLowerCase] is the function on the
      letters of ASCII.
    - A number read by [parseInt] is a Number value: the double nearest
      to the integer read, printed as the language prints a Number.
    - An asynchronous function is a function from the state of the process
      and of its environment ([World]) to a completion ([Return] or
      [Throw]) and the next [World].  The modules of the services run a
      call to its end; the module [Interleaved] runs [sendMessage] from one
      [await] to the next, with other requests served in between.
    - The remote model and the staging directory are the environment; they
      are fields of [World].  The identifier [randomUUID()] returns is an
      argument of [startChatSession]; the random part of a retry delay and
      the delay itself are left out of the console line of a retry. *)

From Stdlib Require Import ZArith NArith Ascii String List Bool Lia DecimalString.
From stdpp Require Import gmap strings list fin_maps.

Open Scope string_scope.

#[local] Arguments String.append !s1 s2 : simpl nomatch.

(** ** Strings of the JavaScript runtime

    A string is carried as the bytes of its UTF-8 encoding: a character
    of ASCII is one byte, and every byte of another character is above
    127. *)

Module JsString.

(** The bytes of the character of code point [cp], below 65536. *)
Definition utf8 (cp : N) : string :=
  if (cp <? 128)%N then String (ascii_of_N cp) EmptyString
  else if (cp <? 2048)%N then
    String (ascii_of_N (192 + cp / 64))
      (String (ascii_of_N (128 + cp mod 64)) EmptyString)
  else
    String (ascii_of_N (224 + cp / 4096))
      (String (ascii_of_N (128 + (cp / 64) mod 64))
         (String (ascii_of_N (128 + cp mod 64)) EmptyString)).

Definition is_upper (c : ascii) : bool :=
  let n := N_of_ascii c in ((65 <=? n) && (n <=? 90))%N.

Definition lower_char (c : ascii) : ascii :=
  if is_upper c then ascii_of_N (N_of_ascii c + 32) else c.

(** [String.prototype.toLowerCase]. *)
Fixpoint toLowerCase (s : string) : string :=
  match s with
  | EmptyString => EmptyString
  | String c s' => String (lower_char c) (toLowerCase s')
  end.

(** Does [s] begin with [kw]. *)
Fixpoint starts_with (kw s : string) : bool :=
  match kw, s with
  | EmptyString, _ => true
  | String a kw', String b s' => Ascii.eqb a b && starts_with kw' s'
  | String _ _, EmptyString => false
  end.

(** What follows [kw] in [s], when [s] begins with [kw]. *)
Fixpoint strip_prefix (kw s : string) : option string :=
  match kw, s with
  | EmptyString, _ => Some s
  | String a kw', String b s' =>
      if Ascii.eqb a b then strip_prefix kw' s' else None
  | String _ _, EmptyString => None
  end.

(** [String.prototype.includes]: does [kw] occur in [s] at some position. *)
Fixpoint includes (s kw : string) : bool :=
  starts_with kw s ||
  match s with
  | EmptyString => false
  | String _ s' => includes s' kw
  end.

(** Decimal digits, as the class [\d] of a regular expression. *)
Definition is_digit (c : ascii) : bool :=
  let n := N_of_ascii c in ((48 <=? n) && (n <=? 57))%N.

(** The class [\s] of a regular expression holds 25 characters: tab,
    line feed, vertical tab, form feed, carriage return, space, and the
    characters U+00A0, U+1680, U+2000 to U+200A, U+2028, U+2029, U+202F,
    U+205F, U+3000 and U+FEFF.  [is_space] tests the six of one byte,
    [is_space2] the one of two bytes and [is_space3] those of three. *)
Definition is_space (c : ascii) : bool :=
  let n := N_of_ascii c in (((9 <=? n) && (n <=? 13)) || (n =? 32))%N.

Definition is_space2 (a b : ascii) : bool :=
  ((N_of_ascii a =? 194) && (N_of_ascii b =? 160))%N.

Definition is_space3 (a b c : ascii) : bool :=
  let x := N_of_ascii a in
  let y := N_of_ascii b in
  let z := N_of_ascii c in
  (((x =? 225) && (y =? 154) && (z =? 128))
   || ((x =? 226) && (y =? 128)
       && (((128 <=? z) && (z <=? 138))
           || (z =? 168) || (z =? 169) || (z =? 175)))
   || ((x =? 226) && (y =? 129) && (z =? 159))
   || ((x =? 227) && (y =? 128) && (z =? 128))
   || ((x =? 239) && (y =? 187) && (z =? 191)))%N.

(** What follows the white space character at the head of [s], when
    there is one. *)
Definition skip_space (s : string) : option string :=
  match s with
  | String a s1 =>
      if is_space a then Some s1
      else
        match s1 with
        | String b s2 =>
            if is_space2 a b then Some s2
            else
              match s2 with
              | String c s3 => if is_space3 a b c then Some s3 else None
              | EmptyString => None
              end
        | EmptyString => None
        end
  | EmptyString => None
  end.

(** Equality of two characters under the [i] flag.  Without the [u]
    flag a character outside ASCII never equals an ASCII letter. *)
Definition eqb_ci (a b : ascii) : bool :=
  Ascii.eqb (lower_char a) (lower_char b).

End JsString.

(** ** Numbers of the JavaScript runtime

    The Number values that [parseInt] gives on a string of decimal digits:
    the integers that a double holds, and [Infinity]. *)

Module JsNumber.

Inductive Number :=
| finite (n : N)
| Infinity.

(** The double nearest to the integer [n], the one with an even
    significand of two that are as near; [Infinity] from 2^1024 on. *)
Definition of_integer (n : N) : Number :=
  if (n <? 2 ^ 53)%N then finite n
  else
    let e := (N.log2 n - 52)%N in
    let q := (n / 2 ^ e)%N in
    let r := (n mod 2 ^ e)%N in
    let half := (2 ^ (e - 1))%N in
    let q' :=
      if ((half <? r) || ((r =? half) && N.odd q))%N then (q + 1)%N
      else q in
    let x := (q' * 2 ^ e)%N in
    if (1024 <=? N.log2 x)%N then Infinity else finite x.

Definition digit_value (c : ascii) : N := (N_of_ascii c - 48)%N.

(** One more digit read. *)
Definition horner (acc : N) (c : ascii) : N :=
  (10 * acc + digit_value c)%N.

(** The integer that a string of decimal digits denotes. *)
Definition mathematical_value (digits : string) : N :=
  fold_left horner (list_ascii_of_string digits) 0%N.

(** [parseInt] on a string of decimal digits: the Number value of the
    integer.  (The language lets an implementation replace the digits
    after the twentieth by zeros first; here every digit is read.) *)
Definition parseInt (digits : string) : Number :=
  of_integer (mathematical_value digits).

(** The decimal digits of an integer. *)
Definition decimal (n : N) : string :=
  NilZero.string_of_uint (N.to_uint n).

(** Of the multiples of [unit] next to [x] on either side, one that the
    double [x] is the nearest double of, and the nearer to [x] of two;
    of two as near, the even multiple. *)
Definition nearby (x unit : N) : option N :=
  let below := (x / unit * unit)%N in
  let above := (below + unit)%N in
  let reads_as_x c :=
    match of_integer c with
    | finite y => (y =? x)%N
    | Infinity => false
    end in
  match reads_as_x below, reads_as_x above with
  | true, true =>
      if (x - below <? above - x)%N then Some below
      else if (above - x <? x - below)%N then Some above
      else if N.even (x / unit) then Some below else Some above
  | true, false => Some below
  | false, true => Some above
  | false, false => None
  end.

(** The integer with the fewest significant digits that reads as the
    double [x]: the search starts with [zeros] trailing zeros. *)
Fixpoint shortest (x : N) (zeros : nat) : N :=
  match zeros with
  | O => x
  | S fewer =>
      match nearby x (10 ^ N.of_nat zeros) with
      | Some c => c
      | None => shortest x fewer
      end
  end.

Fixpoint strip_zeros (reversed : list ascii) : list ascii :=
  match reversed with
  | c :: rest => if Ascii.eqb c "0" then strip_zeros rest else reversed
  | [] => []
  end.

(** The significant digits of an integer: its digits without the zeros
    at the end. *)
Definition significant (n : N) : string :=
  string_of_list_ascii
    (rev (strip_zeros (rev (list_ascii_of_string (decimal n))))).

(** [Number.prototype.toString], which a template literal applies: the
    shortest digits that read as the double; the integer in full below
    10^21, and from there on the first digit, the other digits after a
    point, and the exponent. *)
Definition toString (x : Number) : string :=
  match x with
  | Infinity => "Infinity"
  | finite x =>
      let c := shortest x (String.length (decimal x) - 1) in
      if (c <? 10 ^ 21)%N then decimal c
      else
        let exponent := decimal (N.of_nat (String.length (decimal c) - 1)) in
        match significant c with
        | String d EmptyString => String d ("e+" ++ exponent)
        | String d more => String d ("." ++ more ++ "e+" ++ exponent)
        | EmptyString => "0"
        end
  end.

End JsNumber.

(** ** The keyword table and the priority loop of [detectContentType]

    The loop is the same in both versions of [geminiService.js]; only the
    table differs. *)

Module Classifier.
Import JsString.

Record KeywordGroup := {
  name : string;
  keywords : list string;
  priority : Z
}.

(** The running [bestMatch] object. *)
Record BestMatch := {
  best_name : string;
  best_priority : Z
}.

(** Body of the inner [for (const keyword of type.keywords)]. *)
Definition consider (lowerCasePrompt : string) (type : KeywordGroup)
    (bestMatch : BestMatch) (keyword : string) : BestMatch :=
  if includes lowerCasePrompt keyword
     && (priority type <? best_priority bestMatch)%Z
  then {| best_name := name type; best_priority := priority type |}
  else bestMatch.

(** Body of the outer [for (const type of keywordPriority)]. *)
Definition scan_group (lowerCasePrompt : string)
    (bestMatch : BestMatch) (type : KeywordGroup) : BestMatch :=
  fold_left (consider lowerCasePrompt type) (keywords type) bestMatch.

Definition initial_match : BestMatch :=
  {| best_name := "default"; best_priority := 99 |}.

Definition detect (keywordPriority : list KeywordGroup) (prompt : string)
    : string :=
  let lowerCasePrompt := toLowerCase prompt in
  best_name (fold_left (scan_group lowerCasePrompt) keywordPriority
                       initial_match).

End Classifier.

(** ** The pattern [/(\d+)\s*question/i]

    [prompt.match] runs the backtracking matcher of the regular expression
    at each start position in turn, from the left.  At one position the
    greedy quantifiers first take one more character and fall back to the
    rest of the pattern when that fails. *)

Module QuestionPattern.
Import JsString.

(** The literal part of the pattern, compared under the [i] flag. *)
Fixpoint literal_ci (lit s : string) : bool :=
  match lit, s with
  | EmptyString, _ => true
  | String a lit', String b s' => eqb_ci a b && literal_ci lit' s'
  | String _ _, EmptyString => false
  end.

(** [\s*question]: one more white space character first, the literal
    otherwise. *)
Fixpoint spaces_question (s : string) : bool :=
  match s with
  | String a s1 =>
      if is_space a then spaces_question s1 || literal_ci "question" s
      else
        match s1 with
        | String b s2 =>
            if is_space2 a b
            then spaces_question s2 || literal_ci "question" s
            else
              match s2 with
              | String c s3 =>
                  if is_space3 a b c
                  then spaces_question s3 || literal_ci "question" s
                  else literal_ci "question" s
              | EmptyString => literal_ci "question" s
              end
        | EmptyString => literal_ci "question" s
        end
  | EmptyString => literal_ci "question" s
  end.

(** [(\d+)\s*question] at the head of [s]: the captured digits.  One more
    digit first; when the rest fails with it, the capture ends here. *)
Fixpoint match_here (s : string) : option string :=
  match s with
  | String c s' =>
      if is_digit c then
        match match_here s' with
        | Some ds => Some (String c ds)
        | None => if spaces_question s' then Some (String c EmptyString)
                  else None
        end
      else None
  | EmptyString => None
  end.

(** [prompt.match(/(\d+)\s*question/i)]: the first capture group of the
    leftmost match, [None] for [null]. *)
Fixpoint exec (s : string) : option string :=
  match match_here s with
  | Some ds => Some ds
  | None =>
      match s with
      | String _ s' => exec s'
      | EmptyString => None
      end
  end.

(** [match ? parseInt(match[1]) : 20]. *)
Definition questionCount (prompt : string) : JsNumber.Number :=
  match exec prompt with
  | Some ds => JsNumber.parseInt ds
  | None => JsNumber.finite 20
  end.

End QuestionPattern.

(** ** Values exchanged with the remote model *)

(** A response schema, as the object literals of the sources write it:
    [type], and by type [description], [items], [properties], [required]. *)
#[warnings="-register-all"] Inductive Schema :=
| STRING (description : option string)
| INTEGER
| XML_HTML
| ARRAY (items : Schema)
| OBJECT (properties : list (string * Schema)) (required : list string).

Inductive Role := user | model.

Inductive Part :=
| text_part (text : string)
| inlineData (data : string) (mimeType : string).

(** One turn of a transcript: [{ role, parts }]. *)
Record Content := {
  role : Role;
  parts : list Part
}.

Record GenerationConfig := {
  systemInstruction : string;
  responseMimeType : string;
  responseSchema : Schema
}.

(** The argument of [ai.models.generateContent]. *)
Record GenerateContentParams := {
  model_id : string;
  contents : list Content;
  config : GenerationConfig
}.

(** The part of a response the services read: [result.text], which is
    [undefined] when the response carries no text. *)
Record Response := {
  text : option string
}.

(** The file object the upload middleware attaches to a request. *)
Record UploadedFile := {
  filename : string;
  mimetype : string
}.

(** ** Errors and completions *)

Inductive JsError :=
| Error (message : string)
| TypeError (message : string)
| SyntaxError (message : string)
| ApiError (status : option Z) (message : string).

(** [error.status]; [None] is [undefined]. *)
Definition error_status (e : JsError) : option Z :=
  match e with
  | ApiError st _ => st
  | _ => None
  end.

Inductive Completion (A : Type) :=
| Return (a : A)
| Throw (e : JsError).
Arguments Return {A} a.
Arguments Throw {A} e.

Inductive ConsoleEntry :=
| log_session_started (sessionId : string)
| warn_retrying (e : JsError) (attempt : nat) (backoff : Z)
| error_no_more_retries (maxRetries : nat)
| error_caught (context : string) (e : JsError).

(** ** The process and its environment *)

Record World := {
  (** the module-level object [chatHistories]: its own properties *)
  chatHistories : gmap string (list Content);
  (** the regular files of the staging directory, by path *)
  staged : gmap string string;
  (** [join(__dirname, "..", "uploads")] *)
  uploadsDir : string;
  (** the remote model: the outcome of the n-th call of the process *)
  upstream : nat -> GenerateContentParams -> Completion Response;
  (** the calls made so far, oldest first *)
  sent : list GenerateContentParams;
  console : list ConsoleEntry
}.

Definition set_chatHistories (h : gmap string (list Content)) (w : World) :=
  {| chatHistories := h; staged := staged w; uploadsDir := uploadsDir w;
     upstream := upstream w; sent := sent w; console := console w |}.

Definition set_staged (f : gmap string string) (w : World) :=
  {| chatHistories := chatHistories w; staged := f;
     uploadsDir := uploadsDir w; upstream := upstream w; sent := sent w;
     console := console w |}.

Definition set_sent (l : list GenerateContentParams) (w : World) :=
  {| chatHistories := chatHistories w; staged := staged w;
     uploadsDir := uploadsDir w; upstream := upstream w; sent := l;
     console := console w |}.

Definition set_console (l : list ConsoleEntry) (w : World) :=
  {| chatHistories := chatHistories w; staged := staged w;
     uploadsDir := uploadsDir w; upstream := upstream w; sent := sent w;
     console := l |}.

(** ** Computations *)

Definition M (A : Type) : Type := World -> Completion A * World.

Definition ret {A} (a : A) : M A := fun w => (Return a, w).

Definition throw {A} (e : JsError) : M A := fun w => (Throw e, w).

Definition bind {A B} (c : M A) (k : A -> M B) : M B :=
  fun w =>
    match c w with
    | (Return a, w') => k a w'
    | (Throw e, w') => (Throw e, w')
    end.

(** [try { body } catch (error) { handler }]. *)
Definition try_catch {A} (body : M A) (handler : JsError -> M A) : M A :=
  fun w =>
    match body w with
    | (Return a, w') => (Return a, w')
    | (Throw e, w') => handler e w'
    end.

Notation "x <~ c ;; k" := (bind c (fun x => k))
  (at level 100, c at next level, right associativity).
Notation "c ;;; k" := (bind c (fun _ => k))
  (at level 100, k at level 200, right associativity).

Definition console_write (entry : ConsoleEntry) : M unit :=
  fun w => (Return tt, set_console (console w ++ [entry]) w).

(** [ai.models.generateContent(params)]. *)
Definition generateContent (params : GenerateContentParams) : M Response :=
  fun w =>
    (upstream w (length (sent w)) params, set_sent (sent w ++ [params]) w).

(** *** The staging directory *)

(** [path.join] of a directory and a file name without separators. *)
Definition join (dir file : string) : string := dir ++ "/" ++ file.

Definition existsSync (path : string) : M bool :=
  fun w => (Return (bool_decide (is_Some (staged w !! path))), w).

Definition readFileSync (path : string) : M string :=
  fun w =>
    match staged w !! path with
    | Some bytes => (Return bytes, w)
    | None => (Throw (Error "ENOENT: no such file or directory"), w)
    end.

Definition unlinkSync (path : string) : M unit :=
  fun w =>
    match staged w !! path with
    | Some _ => (Return tt, set_staged (delete path (staged w)) w)
    | None => (Throw (Error "ENOENT: no such file or directory"), w)
    end.

(** ** The retry loop

    The three copies of [withRetry] differ in the test on [error.status]
    only, which is the parameter [retryable]. *)

Section Retry.
Variable retryable : JsError -> bool.
Context {A : Type}.
Variable apiCallFn : M A.
Variable maxRetries : Z.
Variable initialDelay : Z.

(** The iterations of the [for] loop from iteration [attempt] on, when
    [remaining] of them are left.  Leaving the loop returns [undefined],
    which is [None]. *)
Fixpoint retry_loop (remaining attempt : nat) : M (option A) :=
  match remaining with
  | O => ret None
  | S remaining' =>
      try_catch
        (a <~ apiCallFn ;; ret (Some a))
        (fun error =>
           if retryable error then
             if (Z.of_nat attempt =? maxRetries - 1)%Z then
               console_write (error_no_more_retries (Z.to_nat maxRetries)) ;;;
               throw error
             else
               console_write
                 (warn_retrying error attempt
                    (initialDelay * 2 ^ Z.of_nat attempt)) ;;;
               retry_loop remaining' (S attempt)
           else throw error)
  end.

Definition retry : M (option A) := retry_loop (Z.to_nat maxRetries) 0.

End Retry.

(** [error.status === 429 || error.status === 503] *)
Definition status_429_or_503 (error : JsError) : bool :=
  match error_status error with
  | Some st => (st =? 429)%Z || (st =? 503)%Z
  | None => false
  end.

(** [error.status === 429] *)
Definition status_429 (error : JsError) : bool :=
  match error_status error with
  | Some st => (st =? 429)%Z
  | None => false
  end.

(** ** [JSON.parse] *)

Module Json.

#[warnings="-register-all"] Inductive value :=
| Null
| Bool (b : bool)
| Number (literal : string)
| Str (s : string)
| Array (items : list value)
| Object (members : list (string * value)).

Definition code (c : ascii) : N := N_of_ascii c.

Definition is_ws (c : ascii) : bool :=
  let n := code c in ((n =? 32) || (n =? 9) || (n =? 10) || (n =? 13))%N.

Fixpoint skip_ws (s : string) : string :=
  match s with
  | String c s' => if is_ws c then skip_ws s' else s
  | EmptyString => s
  end.

Definition hex_value (c : ascii) : option N :=
  let n := code c in
  if ((48 <=? n) && (n <=? 57))%N then Some (n - 48)%N
  else if ((65 <=? n) && (n <=? 70))%N then Some (n - 55)%N
  else if ((97 <=? n) && (n <=? 102))%N then Some (n - 87)%N
  else None.

(** A code unit written [\uXXXX], stored in UTF-8. *)
Definition utf8 (u : N) : string :=
  if (u <? 128)%N then String (ascii_of_N u) EmptyString
  else if (u <? 2048)%N then
    String (ascii_of_N (192 + u / 64))
      (String (ascii_of_N (128 + u mod 64)) EmptyString)
  else
    String (ascii_of_N (224 + u / 4096))
      (String (ascii_of_N (128 + (u / 64) mod 64))
         (String (ascii_of_N (128 + u mod 64)) EmptyString)).

Definition simple_escape (c : ascii) : option ascii :=
  let n := code c in
  if (n =? 34)%N then Some c                       (* a quote *)
  else if (n =? 92)%N then Some c                  (* a backslash *)
  else if (n =? 47)%N then Some c                  (* a slash *)
  else if (n =? 98)%N then Some (ascii_of_N 8)     (* escape b *)
  else if (n =? 102)%N then Some (ascii_of_N 12)   (* escape f *)
  else if (n =? 110)%N then Some (ascii_of_N 10)   (* escape n *)
  else if (n =? 114)%N then Some (ascii_of_N 13)   (* escape r *)
  else if (n =? 116)%N then Some (ascii_of_N 9)    (* escape t *)
  else None.

Definition prepend (p : string) (r : option (string * string))
    : option (string * string) :=
  match r with
  | Some (s, rest) => Some (p ++ s, rest)
  | None => None
  end.

(** The characters of a string after its opening quote, up to the closing
    quote: the string and what follows it. *)
Fixpoint string_body (s : string) : option (string * string) :=
  match s with
  | EmptyString => None
  | String c s' =>
      if (code c =? 34)%N then Some (EmptyString, s')
      else if (code c =? 92)%N then
        match s' with
        | EmptyString => None
        | String e s'' =>
            match simple_escape e with
            | Some ch => prepend (String ch EmptyString) (string_body s'')
            | None =>
                if (code e =? 117)%N then
                  match s'' with
                  | String h1 (String h2 (String h3 (String h4 rest))) =>
                      match hex_value h1, hex_value h2,
                            hex_value h3, hex_value h4 with
                      | Some a, Some b, Some c', Some d =>
                          prepend (utf8 (((a * 16 + b) * 16 + c') * 16 + d))
                                  (string_body rest)
                      | _, _, _, _ => None
                      end
                  | _ => None
                  end
                else None
            end
        end
      else if (code c <? 32)%N then None
      else prepend (String c EmptyString) (string_body s')
  end.

Definition is_digit (c : ascii) : bool :=
  let n := code c in ((48 <=? n) && (n <=? 57))%N.

(** The longest run of digits at the head of [s], and the rest. *)
Fixpoint digits (s : string) : string * string :=
  match s with
  | String c s' =>
      if is_digit c then let '(d, r) := digits s' in (String c d, r)
      else (EmptyString, s)
  | EmptyString => (EmptyString, s)
  end.

(** [int]: a zero, or a digit from 1 to 9 and more digits. *)
Definition int_part (s : string) : option (string * string) :=
  match s with
  | String c s' =>
      if (code c =? 48)%N then Some (String c EmptyString, s')
      else if is_digit c then Some (digits s)
      else None
  | EmptyString => None
  end.

Definition frac_part (s : string) : option (string * string) :=
  match s with
  | String c s' =>
      if (code c =? 46)%N then
        match digits s' with
        | (EmptyString, _) => None
        | (d, r) => Some (String c d, r)
        end
      else Some (EmptyString, s)
  | EmptyString => Some (EmptyString, s)
  end.

Definition exp_part (s : string) : option (string * string) :=
  match s with
  | String c s' =>
      if ((code c =? 101) || (code c =? 69))%N then
        let '(sign, s1) :=
          match s' with
          | String g s'' =>
              if ((code g =? 43) || (code g =? 45))%N
              then (String g EmptyString, s'') else (EmptyString, s')
          | EmptyString => (EmptyString, s')
          end in
        match digits s1 with
        | (EmptyString, _) => None
        | (d, r) => Some (String c (sign ++ d), r)
        end
      else Some (EmptyString, s)
  | EmptyString => Some (EmptyString, s)
  end.

(** A number: its literal and the rest. *)
Definition number (s : string) : option (string * string) :=
  let '(sign, s0) :=
    match s with
    | String c s' =>
        if (code c =? 45)%N then (String c EmptyString, s')
        else (EmptyString, s)
    | EmptyString => (EmptyString, s)
    end in
  match int_part s0 with
  | None => None
  | Some (i, s1) =>
      match frac_part s1 with
      | None => None
      | Some (f, s2) =>
          match exp_part s2 with
          | None => None
          | Some (e, s3) => Some (sign ++ i ++ f ++ e, s3)
          end
      end
  end.

Definition keyword (kw : string) (v : value) (s : string)
    : option (value * string) :=
  match JsString.strip_prefix kw s with
  | Some rest => Some (v, rest)
  | None => None
  end.

(** A value after optional white space, and the rest of the text.  The
    fuel bounds the number of nested and of successive values. *)
Fixpoint parse_value (fuel : nat) (s : string) : option (value * string) :=
  match fuel with
  | O => None
  | S fuel' =>
      match skip_ws s with
      | EmptyString => None
      | String c s' as s0 =>
          let n := code c in
          if (n =? 123)%N then                          (* { *)
            match skip_ws s' with
            | String c1 s1 as s1' =>
                if (code c1 =? 125)%N then Some (Object [], s1)
                else
                  match parse_members fuel' s1' with
                  | Some (ms, r) => Some (Object ms, r)
                  | None => None
                  end
            | EmptyString => None
            end
          else if (n =? 91)%N then                      (* [ *)
            match skip_ws s' with
            | String c1 s1 as s1' =>
                if (code c1 =? 93)%N then Some (Array [], s1)
                else
                  match parse_elements fuel' s1' with
                  | Some (vs, r) => Some (Array vs, r)
                  | None => None
                  end
            | EmptyString => None
            end
          else if (n =? 34)%N then                      (* quote *)
            match string_body s' with
            | Some (str, r) => Some (Str str, r)
            | None => None
            end
          else if (n =? 116)%N then keyword "true" (Bool true) s0
          else if (n =? 102)%N then keyword "false" (Bool false) s0
          else if (n =? 110)%N then keyword "null" Null s0
          else
            match number s0 with
            | Some (lit, r) => Some (Number lit, r)
            | None => None
            end
      end
  end

(** The elements of an array after its opening bracket, up to the closing
    bracket. *)
with parse_elements (fuel : nat) (s : string)
    : option (list value * string) :=
  match fuel with
  | O => None
  | S fuel' =>
      match parse_value fuel' s with
      | None => None
      | Some (v, r) =>
          match skip_ws r with
          | String c r' =>
              if (code c =? 93)%N then Some ([v], r')
              else if (code c =? 44)%N then
                match parse_elements fuel' r' with
                | Some (vs, r'') => Some (v :: vs, r'')
                | None => None
                end
              else None
          | EmptyString => None
          end
      end
  end

(** The members of an object after its opening brace, up to the closing
    brace. *)
with parse_members (fuel : nat) (s : string)
    : option (list (string * value) * string) :=
  match fuel with
  | O => None
  | S fuel' =>
      match skip_ws s with
      | String q s' =>
          if (code q =? 34)%N then
            match string_body s' with
            | None => None
            | Some (key, r0) =>
                match skip_ws r0 with
                | String colon r1 =>
                    if (code colon =? 58)%N then
                      match parse_value fuel' r1 with
                      | None => None
                      | Some (v, r2) =>
                          match skip_ws r2 with
                          | String c r3 =>
                              if (code c =? 125)%N
                              then Some ([(key, v)], r3)
                              else if (code c =? 44)%N then
                                match parse_members fuel' r3 with
                                | Some (ms, r4) => Some ((key, v) :: ms, r4)
                                | None => None
                                end
                              else None
                          | EmptyString => None
                          end
                      end
                    else None
                | EmptyString => None
                end
            end
          else None
      | EmptyString => None
      end
  end.

(** [JSON.parse(text)]: the value, or the [SyntaxError] it throws.  An
    object keeps its members in the order of the text, and a number its
    literal.  The fuel bounds the depth of the nested calls of the
    parser; of two nested calls one at least consumes a character, hence
    twice the length of the text. *)
Definition parse (text : string) : Completion value :=
  match parse_value (2 * String.length text + 2) text with
  | Some (v, rest) =>
      match skip_ws rest with
      | EmptyString => Return v
      | String _ _ => Throw (SyntaxError "Unexpected non-whitespace character after JSON")
      end
  | None => Throw (SyntaxError "Unexpected token in JSON")
  end.

(** [JSON.parse(result.text)]; [undefined] is read as the text
    [undefined], which is not JSON. *)
Definition parse_text (t : option string) : Completion value :=
  match t with
  | Some s => parse s
  | None => Throw (SyntaxError "Unexpected token in JSON")
  end.

(** [o[key]] on a parsed object: of two members with one key the later
    one is kept. *)
Fixpoint get_member (key : string) (members : list (string * value))
    : option value :=
  match members with
  | [] => None
  | (k, v) :: rest =>
      match get_member key rest with
      | Some v' => Some v'
      | None => if String.eqb k key then Some v else None
      end
  end.

End Json.

(** ** [Buffer.prototype.toString("base64")] *)

Module Base64.

Definition alphabet : string :=
  "ABCDEFGHIJKLMNOPQRSTUVWXYZabcdefghijklmnopqrstuvwxyz0123456789+/".

Definition digit (n : N) : ascii :=
  match String.get (N.to_nat n) alphabet with
  | Some c => c
  | None => "="%char
  end.

Fixpoint encode_bytes (bytes : list N) : string :=
  match bytes with
  | [] => EmptyString
  | [a] =>
      String (digit (a / 4))
        (String (digit ((a mod 4) * 16)) "==")
  | [a; b] =>
      String (digit (a / 4))
        (String (digit ((a mod 4) * 16 + b / 16))
           (String (digit ((b mod 16) * 4)) "="))
  | a :: b :: c :: rest =>
      String (digit (a / 4))
        (String (digit ((a mod 4) * 16 + b / 16))
           (String (digit ((b mod 16) * 4 + c / 64))
              (String (digit (c mod 64)) (encode_bytes rest))))
  end.

Definition encode (bytes : string) : string :=
  encode_bytes (map N_of_ascii (list_ascii_of_string bytes)).

End Base64.

(** ** What the three source files share *)

Definition lift {A} (c : Completion A) : M A := fun w => (c, w).

Definition get_uploadsDir : M string := fun w => (Return (uploadsDir w), w).

(** [fileToGenerativePart(path, mimeType)] *)
Definition fileToGenerativePart (path mimeType : string) : M Part :=
  bytes <~ readFileSync path ;;
  ret (inlineData (Base64.encode bytes) mimeType).

(** The block [if (file) { ... }]: the parts to add to the user turn. *)
Definition attach (file : option UploadedFile) : M (list Part) :=
  match file with
  | Some file =>
      tempDir <~ get_uploadsDir ;;
      let tempFilePath := join tempDir (filename file) in
      found <~ existsSync tempFilePath ;;
      if negb found then throw (Error ("File not found: " ++ tempFilePath))
      else
        part <~ fileToGenerativePart tempFilePath (mimetype file) ;;
        unlinkSync tempFilePath ;;;
        ret [part]
  | None => ret []
  end.

(** The object [{ role: "user", parts: [{ text: prompt }] }] once the part
    of the attachment, if any, is pushed onto its parts. *)
Definition user_turn (prompt : string) (attached : list Part) : Content :=
  {| role := user; parts := text_part prompt :: attached |}.

(** The object [{ role: "model", parts: [{ text: body }] }]. *)
Definition model_turn (body : string) : Content :=
  {| role := model; parts := [text_part body] |}.

(** [result.text], where [result] is what [withRetry] returned. *)
Definition result_text (result : option Response) : M (option string) :=
  match result with
  | Some r => ret (text r)
  | None =>
      throw (TypeError "Cannot read properties of undefined (reading 'text')")
  end.

(** The text of a number in a template literal. *)
Definition number_to_string (n : JsNumber.Number) : string :=
  JsNumber.toString n.

(** ** Image generation, shared by the three source files

    A request for an image and its response have another shape than those
    of structured content; the remote model that answers them is the
    argument [ai] of [generateImage], the function
    [ai.models.generateContent] on such requests. *)

Module ImageApi.

(** The [inlineData] of a part of a response. *)
Record Blob := {
  data : option string;
  blob_mimeType : option string
}.

Record ResponsePart := {
  part_text : option string;
  inlineData : option Blob
}.

Record CandidateContent := {
  parts : option (list ResponsePart)
}.

Record Candidate := {
  content : option CandidateContent
}.

Record ImageResponse := {
  candidates : option (list Candidate)
}.

Record ImageConfig := {
  responseModalities : list string
}.

Record ImageParams := {
  image_model : string;
  image_contents : list Content;
  image_config : ImageConfig
}.

Definition request (prompt : string) : ImageParams :=
  {| image_model := "gemini-2.5-flash-image-preview";
     image_contents := [user_turn prompt []];
     image_config := {| responseModalities := ["IMAGE"] |} |}.

(** [p.inlineData], as a test. *)
Definition has_inlineData (p : ResponsePart) : bool :=
  match inlineData p with
  | Some _ => true
  | None => false
  end.

(** [response.candidates?.[0]?.content?.parts?.find((p) => p.inlineData)] *)
Definition imagePart (response : ImageResponse) : option ResponsePart :=
  match candidates response with
  | Some (candidate :: _) =>
      match content candidate with
      | Some c =>
          match parts c with
          | Some ps => List.find has_inlineData ps
          | None => None
          end
      | None => None
      end
  | _ => None
  end.

Definition no_image : JsError :=
  Error "The AI model did not return a valid image.".

Definition failed_image : JsError :=
  Error "Failed to generate image from the AI model.".

(** The line [console.error] writes in the [catch] block. *)
Definition caught (error : JsError) : ConsoleEntry :=
  error_caught "Error in Gemini Image API call:" error.

(** [response.candidates], where [response] is what [withRetry]
    returned. *)
Definition defined_response (response : option ImageResponse)
    : M ImageResponse :=
  match response with
  | Some r => ret r
  | None =>
      throw
        (TypeError
           "Cannot read properties of undefined (reading 'candidates')")
  end.

(** [if (imagePart && imagePart.inlineData.data) ... else throw ...]: the
    data is returned when it is a string that is not empty. *)
Definition image_data (found : option ResponsePart) : M string :=
  match found with
  | Some p =>
      match inlineData p with
      | Some blob =>
          match data blob with
          | Some d =>
              if String.eqb d EmptyString then throw no_image else ret d
          | None => throw no_image
          end
      | None =>
          throw
            (TypeError
               "Cannot read properties of undefined (reading 'data')")
      end
  | None => throw no_image
  end.

(** [generateImage], for the [withRetry] of its file. *)
Definition generateImage
    (withRetry : forall A, M A -> Z -> Z -> M (option A))
    (ai : ImageParams -> M ImageResponse) (prompt : string) : M string :=
  try_catch
    (response <~ withRetry ImageResponse (ai (request prompt))
                   5%Z 2000%Z ;;
     response <~ defined_response response ;;
     image_data (imagePart response))
    (fun error =>
       console_write (caught error) ;;;
       throw failed_image).

End ImageApi.

(** ** [src/chatbot.js] *)

Module Chatbot.
Import JsString.

Definition withRetry {A} (apiCallFn : M A) (maxRetries initialDelay : Z)
    : M (option A) :=
  retry status_429 apiCallFn maxRetries initialDelay.

Definition detectContentType (prompt : string) : string :=
  let lowerCasePrompt := toLowerCase prompt in
  if includes lowerCasePrompt "lesson plan" then "lessonPlan"
  else if includes lowerCasePrompt "assignment" then "assignment"
  else if includes lowerCasePrompt "quiz"
          || includes lowerCasePrompt "quizzes" then "quiz"
  else if includes lowerCasePrompt "lecture" then "lecture"
  else "default".

Definition DefaultSchema : Schema :=
  OBJECT
    [ ("title", STRING None); ("summary", STRING None);
      ("content", STRING None) ]
    ["title"; "summary"; "content"].

Definition LessonPlanSchema : Schema :=
  OBJECT
    [ ("title", STRING None);
      ("gradeLevel", STRING None);
      ("duration", STRING None);
      ("learningObjectives", ARRAY (STRING None));
      ("keyTerms", ARRAY (STRING None));
      ("hookIntroduction", STRING None);
      ("mainActivity", STRING None);
      ("assessment", STRING None) ]
    [ "title"; "gradeLevel"; "duration"; "learningObjectives"; "keyTerms";
      "hookIntroduction"; "mainActivity"; "assessment" ].

Definition AssignmentSchema : Schema :=
  OBJECT
    [ ("title", STRING None);
      ("instructions", STRING None);
      ("submissionCriteria", STRING None);
      ("rubric", STRING (Some "A summary of the grading rubric.")) ]
    ["title"; "instructions"; "submissionCriteria"; "rubric"].

Definition QuizSchema : Schema :=
  OBJECT
    [ ("title", STRING None);
      ("questions", ARRAY
         (OBJECT
            [ ("questionNumber", INTEGER);
              ("question", STRING None);
              ("choices", ARRAY (STRING None));
              ("correctAnswer", STRING None) ]
            ["questionNumber"; "question"; "choices"; "correctAnswer"])) ]
    ["title"; "questions"].

Definition LectureSchema : Schema :=
  OBJECT
    [ ("title", STRING None);
      ("duration", STRING None);
      ("keyConcepts", ARRAY (STRING None));
      ("script", STRING (Some
         "A detailed, long-form lecture script formatted with markdown.")) ]
    ["title"; "duration"; "keyConcepts"; "script"].

(** The instruction of the [quiz] case, a template literal. *)
Definition quiz_instruction (questionCount : JsNumber.Number)
    : string :=
  "You are a test creator. Generate a quiz with exactly "
  ++ number_to_string questionCount
  ++ " questions based on the user's prompt, adhering strictly to the provided JSON schema.".

(** The [switch (contentType)] of [generateStructuredContent]: the schema
    and the system instruction. *)
Definition select (contentType prompt : string) : Schema * string :=
  if String.eqb contentType "lessonPlan" then
    (LessonPlanSchema,
     "You are an expert curriculum designer. Generate a detailed lesson plan based on the user's prompt, adhering strictly to the provided JSON schema.")
  else if String.eqb contentType "assignment" then
    (AssignmentSchema,
     "You are an educator creating a student assignment. Generate clear instructions and criteria, adhering strictly to the provided JSON schema.")
  else if String.eqb contentType "quiz" then
    let questionCount := QuestionPattern.questionCount prompt in
    (QuizSchema, quiz_instruction questionCount)
  else if String.eqb contentType "lecture" then
    (LectureSchema,
     "You are a university professor preparing a lecture. Generate a detailed, time-appropriate lecture script, adhering strictly to the provided JSON schema.")
  else
    (DefaultSchema,
     "You are a helpful AI assistant. Generate a response with a title, summary, and content, adhering strictly to the provided JSON schema.").

Definition generateImage
    : (ImageApi.ImageParams -> M ImageApi.ImageResponse) ->
      string -> M string :=
  ImageApi.generateImage (@withRetry).

End Chatbot.

(** ** [src/services/geminiService.js], lines 1 to 318: one-shot generation *)

Module GeminiService.
Import Classifier.

Definition withRetry {A} (apiCallFn : M A) (maxRetries initialDelay : Z)
    : M (option A) :=
  retry status_429_or_503 apiCallFn maxRetries initialDelay.

Definition DefaultSchema : Schema :=
  OBJECT
    [ ("title", STRING (Some
         "A comprehensive and descriptive title for the content."));
      ("summary", STRING (Some "A detailed summary of the key points."));
      ("content", STRING (Some
         "A long-form, detailed, and comprehensive body of text, formatted with markdown for readability.")) ]
    ["title"; "summary"; "content"].

Definition LessonPlanSchema : Schema :=
  OBJECT
    [ ("title", STRING None);
      ("gradeLevel", STRING None);
      ("duration", STRING None);
      ("learningObjectives", ARRAY (STRING None));
      ("keyTerms", ARRAY (STRING None));
      ("hookIntroduction", STRING (Some
         "A detailed and engaging opening to capture student interest."));
      ("mainActivity", STRING (Some
         "A comprehensive description of the main learning activity, such as a lecture, project, or discussion."));
      ("assessment", STRING (Some
         "A detailed description of the assessment method.")) ]
    [ "title"; "gradeLevel"; "duration"; "learningObjectives"; "keyTerms";
      "hookIntroduction"; "mainActivity"; "assessment" ].

Definition AssignmentSchema : Schema :=
  OBJECT
    [ ("title", STRING None);
      ("instructions", STRING (Some
         "A long-form, step-by-step set of instructions for the assignment."));
      ("submissionCriteria", STRING (Some
         "A detailed list of all submission requirements."));
      ("rubric", STRING (Some
         "A comprehensive grading rubric, detailing all criteria for success.")) ]
    ["title"; "instructions"; "submissionCriteria"; "rubric"].

Definition QuizSchema : Schema :=
  OBJECT
    [ ("title", STRING None);
      ("questions", ARRAY
         (OBJECT
            [ ("questionNumber", INTEGER);
              ("question", STRING None);
              ("choices", ARRAY (STRING None));
              ("correctAnswer", STRING None) ]
            ["questionNumber"; "question"; "choices"; "correctAnswer"])) ]
    ["title"; "questions"].

Definition LectureSchema : Schema :=
  OBJECT
    [ ("title", STRING None);
      ("duration", STRING None);
      ("keyConcepts", ARRAY (STRING None));
      ("script", STRING (Some
         "A detailed, comprehensive, long-form lecture script formatted with markdown, suitable for the specified duration.")) ]
    ["title"; "duration"; "keyConcepts"; "script"].

Definition keywordPriority : list KeywordGroup :=
  [ {| name := "lessonPlan"; keywords := ["lesson plan"]; priority := 1 |};
    {| name := "assignment"; keywords := ["assignment"]; priority := 2 |};
    {| name := "quiz"; keywords := ["quiz"; "quizzes"]; priority := 2 |};
    {| name := "lecture"; keywords := ["lecture"]; priority := 3 |} ].

Definition detectContentType (prompt : string) : string :=
  detect keywordPriority prompt.

(** The instruction of the [quiz] case, a template literal. *)
Definition quiz_instruction (questionCount : JsNumber.Number)
    : string :=
  "You are a test creator. Generate a comprehensive quiz with exactly "
  ++ number_to_string questionCount
  ++ " questions based on the user's prompt, adhering strictly to the provided JSON schema.".

(** The [switch (contentType)]: the schema and the system instruction. *)
Definition select (contentType prompt : string) : Schema * string :=
  if String.eqb contentType "lessonPlan" then
    (LessonPlanSchema,
     "You are an expert curriculum designer. Generate a comprehensive, long-form, and detailed lesson plan based on the user's prompt, adhering strictly to the provided JSON schema. Ensure all fields contain thorough information.")
  else if String.eqb contentType "assignment" then
    (AssignmentSchema,
     "You are an educator creating a detailed student assignment. Generate long-form, comprehensive instructions and criteria, adhering strictly to the provided JSON schema.")
  else if String.eqb contentType "quiz" then
    let questionCount := QuestionPattern.questionCount prompt in
    (QuizSchema, quiz_instruction questionCount)
  else if String.eqb contentType "lecture" then
    (LectureSchema,
     "You are a university professor preparing a lecture. Generate a detailed, comprehensive, and long-form lecture script suitable for the requested time span, adhering strictly to the provided JSON schema.")
  else
    (DefaultSchema,
     "You are a helpful AI assistant. Generate a long-form, comprehensive, and detailed response with a title, summary, and content, adhering strictly to the provided JSON schema.").

(** The request of one call: [{ model, contents, config }]. *)
Definition request (prompt : string) (contents : list Content)
    : GenerateContentParams :=
  let contentType := detectContentType prompt in
  let '(schema, instruction) := select contentType prompt in
  {| model_id := "gemini-2.5-pro";
     contents := contents;
     config := {| systemInstruction := instruction;
                  responseMimeType := "application/json";
                  responseSchema := schema |} |}.

Definition failed_generation : JsError :=
  Error "Failed to generate a structured response from the AI model.".

(** The line [console.error] writes in the [catch] block. *)
Definition caught (error : JsError) : ConsoleEntry :=
  error_caught "Error in Gemini Content Generation call:" error.

Definition generateStructuredContent (prompt : string)
    (file : option UploadedFile) : M Json.value :=
  try_catch
    (attached <~ attach file ;;
     let contents := [user_turn prompt attached] in
     result <~ withRetry (generateContent (request prompt contents))
                 5 2000 ;;
     body <~ result_text result ;;
     lift (Json.parse_text body))
    (fun error =>
       console_write (caught error) ;;;
       throw failed_generation).

Definition generateImage
    : (ImageApi.ImageParams -> M ImageApi.ImageResponse) ->
      string -> M string :=
  ImageApi.generateImage (@withRetry).

End GeminiService.

(** ** [src/services/geminiService.js], lines 320 to 604: chat sessions *)

Module ChatService.
Import Classifier.

Definition withRetry {A} (apiCallFn : M A) (maxRetries initialDelay : Z)
    : M (option A) :=
  retry status_429_or_503 apiCallFn maxRetries initialDelay.

Definition WebSearchResultSchema : Schema :=
  OBJECT
    [ ("title", STRING None); ("url", STRING None);
      ("snippet", STRING None) ]
    ["title"; "url"; "snippet"].

Definition PresentationSchema : Schema :=
  OBJECT
    [ ("title", STRING None);
      ("simulatedSources", ARRAY WebSearchResultSchema);
      ("slides", ARRAY
         (OBJECT
            [ ("slideNumber", INTEGER);
              ("title", STRING None);
              ("content", ARRAY (STRING None));
              ("speakerNotes", STRING None);
              ("slideCode", XML_HTML) ]
            ["slideNumber"; "title"; "content"; "speakerNotes"])) ]
    ["title"; "simulatedSources"; "slides"].

Definition DocumentSchema : Schema :=
  OBJECT
    [ ("title", STRING None);
      ("simulatedSources", ARRAY WebSearchResultSchema);
      ("summary", STRING None);
      ("sections", ARRAY
         (OBJECT
            [ ("subtitle", STRING None); ("content", STRING None) ]
            ["subtitle"; "content"])) ]
    ["title"; "simulatedSources"; "summary"; "sections"].

Definition GeneralContentSchema : Schema :=
  OBJECT
    [ ("title", STRING None); ("summary", STRING None);
      ("content", STRING None) ]
    ["title"; "summary"; "content"].

Definition keywordPriority : list KeywordGroup :=
  [ {| name := "presentation";
       keywords := ["ppt"; "presentation"; "powerpoint"; "slides"];
       priority := 1 |};
    {| name := "document";
       keywords := ["pdf"; "docx"; "document"; "report"];
       priority := 2 |} ].

Definition detectContentType (prompt : string) : string :=
  detect keywordPriority prompt.

(** The names [Object.prototype] defines: a plain object such as
    [chatHistories] answers for them when it has no property of its own
    of that name. *)
Definition Object_prototype : list string :=
  [ "constructor"; "__defineGetter__"; "__defineSetter__";
    "hasOwnProperty"; "__lookupGetter__"; "__lookupSetter__";
    "isPrototypeOf"; "propertyIsEnumerable"; "toString"; "valueOf";
    "__proto__"; "toLocaleString" ].

(** The value of [chatHistories[sessionId]]. *)
Inductive Property :=
| own (history : list Content)
| inherited
| undefined.

Definition get_history (sessionId : string) (w : World) : Property :=
  match chatHistories w !! sessionId with
  | Some history => own history
  | None =>
      if bool_decide (sessionId ∈ Object_prototype) then inherited
      else undefined
  end.

(** An array and a function are truthy, [undefined] is not. *)
Definition truthy (p : Property) : bool :=
  match p with
  | own _ | inherited => true
  | undefined => false
  end.

(** [randomUUID()] is the argument [uuid], a version 4 identifier of 36
    characters. *)
Definition startChatSession (uuid : string) : M string :=
  let sessionId := uuid in
  (fun w =>
     (Return tt,
      set_chatHistories (<[sessionId := []]> (chatHistories w)) w)) ;;;
  console_write (log_session_started sessionId) ;;;
  ret sessionId.

(** [history.push(turn)], where [history] is the value read at
    [chatHistories[sessionId]]: the array of the session grows in place. *)
Definition history_push (sessionId : string) (turn : Content) : M unit :=
  fun w =>
    match get_history sessionId w with
    | own history =>
        (Return tt,
         set_chatHistories
           (<[sessionId := (history ++ [turn])%list]> (chatHistories w)) w)
    | _ => (Throw (TypeError "history.push is not a function"), w)
    end.

(** The array [history] as it is when the request object is built. *)
Definition history_now (sessionId : string) : M (list Content) :=
  fun w =>
    match get_history sessionId w with
    | own history => (Return history, w)
    | _ => (Return [], w)
    end.

Definition select (contentType : string) : Schema * string :=
  if String.eqb contentType "presentation" then
    (PresentationSchema,
     "You are a research assistant creating a presentation. First, Gather sources by finding 3-5 relevant web sources. Then, use that synthesized information to generate a comprehensive slide deck, adhering strictly to the provided JSON schema. Provide HTML in the last feild for each slide that can be used to create presentation slides.")
  else if String.eqb contentType "document" then
    (DocumentSchema,
     "You are a professional writer creating a formal document. First, simulate a web search by generating 3-5 relevant sources. Then, based on that simulated research, write a comprehensive document, adhering strictly to the provided JSON schema.")
  else
    (GeneralContentSchema,
     "You are a helpful AI assistant. Generate a long-form, comprehensive response with a title, summary, and content, adhering strictly to the provided JSON schema.").

Definition request (prompt : string) (history : list Content)
    : GenerateContentParams :=
  let contentType := detectContentType prompt in
  let '(schema, instruction) := select contentType in
  {| model_id := "gemini-2.5-pro";
     contents := history;
     config := {| systemInstruction := instruction;
                  responseMimeType := "application/json";
                  responseSchema := schema |} |}.

Definition invalid_session : JsError :=
  Error "Invalid session ID. Please start a new session.".

Definition failed_response : JsError :=
  Error "Failed to get a structured response from the AI model.".

(** The function passed to [withRetry]: it sends the array [history] as
    it is at the time of the call. *)
Definition ask (sessionId prompt : string) : M Response :=
  history <~ history_now sessionId ;;
  generateContent (request prompt history).

(** The line [console.error] writes in the [catch] block. *)
Definition caught (sessionId : string) (error : JsError) : ConsoleEntry :=
  error_caught ("Error in session " ++ sessionId ++ ":") error.

Definition sendMessage (sessionId prompt : string)
    (file : option UploadedFile) : M Json.value :=
  fun w =>
    if negb (truthy (get_history sessionId w)) then
      throw invalid_session w
    else
      try_catch
        (attached <~ attach file ;;
         let userMessage := user_turn prompt attached in
         history_push sessionId userMessage ;;;
         result <~ withRetry (ask sessionId prompt) 5 2000 ;;
         body <~ result_text result ;;
         modelResponseJson <~ lift (Json.parse_text body) ;;
         (* [body] is a string here, since [JSON.parse] accepted it *)
         history_push sessionId (model_turn (default EmptyString body)) ;;;
         ret modelResponseJson)
        (fun error =>
           console_write (caught sessionId error) ;;;
           throw failed_response)
        w.

Definition generateImage
    : (ImageApi.ImageParams -> M ImageApi.ImageResponse) ->
      string -> M string :=
  ImageApi.generateImage (@withRetry).

End ChatService.

(** ** The controllers

    A controller answers a request of the web framework with one call of
    [res.status(code).json(body)]; the model of a controller computes that
    answer.  The fields of a request body are strings, or missing. *)

Module Express.

Record Body := {
  prompt : option string;
  sessionId : option string
}.

Record Request := {
  file : option UploadedFile;
  body : Body
}.

(** The objects the controllers pass to [res.json]. *)
Inductive Payload :=
| error_payload (error : string)
| session_payload (message sessionId : string)
| image_payload (message imageData : string)
| result_payload (result : Json.value).

Record Reply := {
  status : Z;
  json : Payload
}.

(** [!field]: the field is missing or the empty string. *)
Definition falsy (field : option string) : bool :=
  match field with
  | Some s => String.eqb s EmptyString
  | None => true
  end.

(** The string of a field that is not falsy. *)
Definition value (field : option string) : string :=
  default EmptyString field.

(** [error.message] *)
Definition message_of (e : JsError) : string :=
  match e with
  | Error m | TypeError m | SyntaxError m | ApiError _ m => m
  end.

(** [error.message || fallback] *)
Definition message_or (e : JsError) (fallback : string) : string :=
  if String.eqb (message_of e) EmptyString then fallback else message_of e.

(** [console.error('Controller Error:', error.message)]: the entry holds
    the error whose message is printed. *)
Definition controller_error (e : JsError) : ConsoleEntry :=
  error_caught "Controller Error:" e.

(** The [catch] block of the controllers of a service call. *)
Definition internal_error (e : JsError) : M Reply :=
  console_write (controller_error e) ;;;
  ret {| status := 500;
         json := error_payload
                   (message_or e "An internal server error occurred.") |}.

End Express.

(** *** [src/controllers/chatController.js] *)

Module ChatController.
Import Express.

(** [handleStartSession]; [uuid] is what [randomUUID()] returns. *)
Definition handleStartSession (uuid : string) (req : Request) : M Reply :=
  try_catch
    (sessionId <~ ChatService.startChatSession uuid ;;
     ret {| status := 200;
            json := session_payload
                      "New chat session started successfully."
                      sessionId |})
    (fun error =>
       console_write (controller_error error) ;;;
       ret {| status := 500;
              json := error_payload
                        "Failed to start a new chat session." |}).

Definition handleSendMessage (req : Request) : M Reply :=
  try_catch
    (let file := file req in
     let prompt := prompt (body req) in
     let sessionId := sessionId (body req) in
     if falsy prompt || falsy sessionId then
       ret {| status := 400;
              json := error_payload
                        "A prompt and a sessionId are required." |}
     else
       structuredResult <~
         ChatService.sendMessage (value sessionId) (value prompt) file ;;
       ret {| status := 200; json := result_payload structuredResult |})
    internal_error.

Definition handleImageGeneration
    (ai : ImageApi.ImageParams -> M ImageApi.ImageResponse)
    (req : Request) : M Reply :=
  try_catch
    (let prompt := prompt (body req) in
     if falsy prompt then
       ret {| status := 400;
              json := error_payload
                        "A prompt is required to generate an image." |}
     else
       imageBase64 <~ ChatService.generateImage ai (value prompt) ;;
       ret {| status := 200;
              json := image_payload "Image generated successfully."
                        imageBase64 |})
    internal_error.

End ChatController.

(** *** The controller of one-shot generation ([src/unnamed/part_002]) *)

Module ContentController.
Import Express.

Definition handleContentGeneration (req : Request) : M Reply :=
  try_catch
    (let file := file req in
     let prompt := prompt (body req) in
     if falsy prompt then
       ret {| status := 400; json := error_payload "A prompt is required." |}
     else
       structuredResult <~
         GeminiService.generateStructuredContent (value prompt) file ;;
       ret {| status := 200; json := result_payload structuredResult |})
    internal_error.

Definition handleImageGeneration
    (ai : ImageApi.ImageParams -> M ImageApi.ImageResponse)
    (req : Request) : M Reply :=
  try_catch
    (let prompt := prompt (body req) in
     if falsy prompt then
       ret {| status := 400;
              json := error_payload
                        "A prompt is required to generate an image." |}
     else
       imageBase64 <~ GeminiService.generateImage ai (value prompt) ;;
       ret {| status := 200;
              json := image_payload "Image generated successfully."
                        imageBase64 |})
    internal_error.

End ContentController.

(** ** The statements of the specification *)

Module Spec.
Import JsString Classifier.

(** [kw] occurs in [prompt] up to the case of letters. *)
Definition occurs_ci (kw prompt : string) : Prop :=
  exists before u after,
    prompt = before ++ u ++ after /\ toLowerCase u = kw.

(** Some keyword of the group occurs in the prompt. *)
Definition group_occurs (g : KeywordGroup) (prompt : string) : Prop :=
  exists kw, In kw (keywords g) /\ occurs_ci kw prompt.

(** [g] is the group of the table that wins on [prompt]: it occurs, the
    groups declared before it that occur have a strictly greater priority
    number, and those declared after it that occur have no smaller one. *)
Definition wins (table : list KeywordGroup) (prompt : string)
    (g : KeywordGroup) : Prop :=
  exists before after,
    table = (before ++ g :: after)%list /\
    group_occurs g prompt /\
    (forall g', In g' before -> group_occurs g' prompt ->
                (priority g < priority g')%Z) /\
    (forall g', In g' after -> group_occurs g' prompt ->
                (priority g <= priority g')%Z).

Definition all_digits (s : string) : Prop :=
  Forall (fun c => is_digit c = true) (list_ascii_of_string s).

(** The code points of white space: the characters of the class [\s]
    of the pattern language, which are the white space and the line
    terminators of the language. *)
Definition white_space_code_points : list N :=
  [ 9; 10; 11; 12; 13; 32; 160; 5760;
    8192; 8193; 8194; 8195; 8196; 8197; 8198; 8199; 8200; 8201; 8202;
    8232; 8233; 8239; 8287; 12288; 65279 ]%N.

(** [c] is one white space character. *)
Definition white_space (c : string) : Prop :=
  exists cp, In cp white_space_code_points /\ c = utf8 cp.

(** [s] is made of white space characters, or empty. *)
Inductive all_spaces : string -> Prop :=
| no_space : all_spaces EmptyString
| more_space (c s : string) :
    white_space c -> all_spaces s -> all_spaces (c ++ s).

Definition ends_with_digit (s : string) : Prop :=
  exists s' c, s = s' ++ String c EmptyString /\ is_digit c = true.

(** The integer [ds] stands in [prompt] right after [before] and right
    before the word: a whole run of digits, white space or none, and the
    letters of [question] in either case. *)
Definition integer_before_question (prompt before ds : string) : Prop :=
  exists spaces word after,
    prompt = before ++ ds ++ spaces ++ word ++ after /\
    ds <> EmptyString /\ all_digits ds /\ ~ ends_with_digit before /\
    all_spaces spaces /\ toLowerCase word = "question".

(** [ds] is the first such integer of [prompt]. *)
Definition first_integer_before_question (prompt ds : string) : Prop :=
  exists before,
    integer_before_question prompt before ds /\
    forall before' ds',
      integer_before_question prompt before' ds' ->
      String.length before <= String.length before'.

(** The integer that a string of decimal digits denotes. *)
Definition integer_of (digits : string) : option N :=
  match NilZero.uint_of_string digits with
  | Some d => Some (N.of_uint d)
  | None => None
  end.

(** The decimal numeral of an integer. *)
Definition numeral_of (n : N) : string :=
  NilZero.string_of_uint (N.to_uint n).

Definition integer_literal (lit : string) : bool :=
  match lit with
  | String c rest =>
      if Ascii.eqb c "-" then
        negb (String.eqb rest EmptyString)
        && forallb is_digit (list_ascii_of_string rest)
      else forallb is_digit (list_ascii_of_string lit)
  | EmptyString => false
  end.

(** A parsed value has every required field of the schema, and each field
    the schema declares has the declared type. *)
Fixpoint conforms (schema : Schema) (v : Json.value) : bool :=
  match schema, v with
  | STRING _, Json.Str _ => true
  | INTEGER, Json.Number lit => integer_literal lit
  | XML_HTML, Json.Str _ => true
  | ARRAY items, Json.Array vs => forallb (conforms items) vs
  | OBJECT properties required, Json.Object members =>
      forallb
        (fun field => bool_decide (is_Some (Json.get_member field members)))
        required
      && (fix declared (ps : list (string * Schema)) : bool :=
            match ps with
            | [] => true
            | (field, s) :: ps' =>
                match Json.get_member field members with
                | Some fv => conforms s fv
                | None => true
                end
                && declared ps'
            end) properties
  | _, _ => false
  end.

(** An operation whose invocations are counted and whose outcomes follow
    a script: in the worlds of [inv] the invocation number [calls w] of
    the process has the outcome [outcome (calls w)], and writing to the
    console changes neither. *)
Record scripted {A} (op : M A) (inv : World -> Prop)
    (calls : World -> nat) (outcome : nat -> Completion A) : Prop := {
  scripted_outcome : forall w, inv w -> fst (op w) = outcome (calls w);
  scripted_calls : forall w, inv w -> calls (snd (op w)) = S (calls w);
  scripted_inv : forall w, inv w -> inv (snd (op w));
  console_calls : forall w l, calls (set_console l w) = calls w;
  console_inv : forall w l, inv w -> inv (set_console l w)
}.

(** The contract of the retrying invoker, for a test [transient] on
    errors.  Attempt [k] of a call is invocation [calls w + k].  When the
    attempts before [k] failed with transient errors:
    - a result of attempt [k] is returned;
    - an error of attempt [k] that is not transient is raised, and the
      operation is invoked no further;
    - a transient error of attempt [k] is raised when [k] is the last
      permitted attempt, and the operation is invoked again otherwise. *)
Definition retry_contract (transient : JsError -> bool)
    (withRetry : forall A, M A -> Z -> Z -> M (option A)) : Prop :=
  forall (A : Type) (op : M A) (inv : World -> Prop)
         (calls : World -> nat) (outcome : nat -> Completion A)
         (maxAttempts baseDelay : Z) (w : World) (k : nat),
    scripted op inv calls outcome -> inv w ->
    (1 <= maxAttempts)%Z ->
    k < Z.to_nat maxAttempts ->
    (forall j, j < k ->
       exists e, outcome (calls w + j) = Throw e /\ transient e = true) ->
    let r := fst (withRetry A op maxAttempts baseDelay w) in
    let w' := snd (withRetry A op maxAttempts baseDelay w) in
    match outcome (calls w + k) with
    | Return a => r = Return (Some a) /\ calls w' = calls w + k + 1
    | Throw e =>
        if transient e then
          (S k = Z.to_nat maxAttempts ->
           r = Throw e /\ calls w' = calls w + Z.to_nat maxAttempts)
          /\ (S k < Z.to_nat maxAttempts -> calls w + k + 2 <= calls w')
        else r = Throw e /\ calls w' = calls w + k + 1
    end.

End Spec.

(** ** Vocabulary of the statements about runs *)

(** [w'] is [w] after the requests [reqs] were sent and lines were written
    to the console: nothing else has changed. *)
Definition sent_more (w w' : World) (reqs : list GenerateContentParams)
    : Prop :=
  chatHistories w' = chatHistories w /\ staged w' = staged w /\
  uploadsDir w' = uploadsDir w /\ upstream w' = upstream w /\
  sent w' = (sent w ++ reqs)%list /\
  exists lines, console w' = (console w ++ lines)%list.

(** The world after [console.error] or [console.warn] of one entry. *)
Definition logged (entry : ConsoleEntry) (w : World) : World :=
  set_console (console w ++ [entry]) w.

(** The requests a run from [w] to [w'] has sent. *)
Definition requests_of (w w' : World) : list GenerateContentParams :=
  drop (length (sent w)) (sent w').

(** The path at which the upload middleware staged [file]. *)
Definition staged_path (w : World) (file : UploadedFile) : string :=
  join (uploadsDir w) (filename file).

(** What happens to the process, one event at a time: a session is
    started with the identifier [randomUUID()] returned, a message is sent,
    or the upload middleware stages a file.  Each message is served to its
    end before the next event: these are the schedules in which no two
    requests overlap; the others are those of [Interleaved]. *)
Inductive Call :=
| start_session (uuid : string)
| send_message (sessionId prompt : string) (file : option UploadedFile)
| stage_file (name bytes : string).

Definition step (w : World) (c : Call) : World :=
  match c with
  | start_session uuid => snd (ChatService.startChatSession uuid w)
  | send_message sessionId prompt file =>
      snd (ChatService.sendMessage sessionId prompt file w)
  | stage_file name bytes =>
      set_staged (<[join (uploadsDir w) name := bytes]> (staged w)) w
  end.

Definition run_calls (calls : list Call) (w : World) : World :=
  fold_left step calls w.

(** The turns of [history] are by [next], then by the other role, and so on
    in turn. *)
Fixpoint alternates (next : Role) (history : list Content) : bool :=
  match history with
  | [] => true
  | turn :: rest =>
      match next, role turn with
      | user, user => alternates model rest
      | model, model => alternates user rest
      | _, _ => false
      end
  end.

(** Two user turns in a row. *)
Definition consecutive_user_turns (history : list Content) : Prop :=
  exists before a b after,
    history = (before ++ a :: b :: after)%list /\
    role a = user /\ role b = user.

(** Every model turn of [history] comes right after a user turn, when the
    turn before [history] is by [previous]. *)
Fixpoint replies_follow_users (previous : Role) (history : list Content)
    : bool :=
  match history with
  | [] => true
  | turn :: rest =>
      match role turn, previous with
      | user, _ => replies_follow_users user rest
      | model, user => replies_follow_users model rest
      | model, model => false
      end
  end.

(** The histories of a world begin with a user turn and have no two model
    turns in a row. *)
Definition histories_ordered (w : World) : Prop :=
  forall sessionId history,
    chatHistories w !! sessionId = Some history ->
    replies_follow_users model history = true.

(** [p] is the first part with [inlineData] among the parts of the first
    candidate of [response]. *)
Definition first_inline_part (response : ImageApi.ImageResponse)
    (p : ImageApi.ResponsePart) : Prop :=
  exists candidate others c before after,
    ImageApi.candidates response = Some (candidate :: others) /\
    ImageApi.content candidate = Some c /\
    ImageApi.parts c = Some (before ++ p :: after)%list /\
    Forall (fun q => ImageApi.inlineData q = None) before /\
    ImageApi.inlineData p <> None.

(** The image [p] carries: the data of its [inlineData], when it is a
    string that is not empty. *)
Definition carries_image (p : ImageApi.ResponsePart) (image : string)
    : Prop :=
  exists blob,
    ImageApi.inlineData p = Some blob /\
    ImageApi.data blob = Some image /\ image <> EmptyString.

(** The three copies of [generateImage]. *)
Definition generateImage_copies
    : list ((ImageApi.ImageParams -> M ImageApi.ImageResponse) ->
            string -> M string) :=
  [ GeminiService.generateImage; ChatService.generateImage;
    Chatbot.generateImage ].

(** Each copy of [generateImage] with the [withRetry] of its file. *)
Definition generateImage_with_retry
    : list (((ImageApi.ImageParams -> M ImageApi.ImageResponse) ->
             string -> M string)
            * (M ImageApi.ImageResponse -> Z -> Z ->
               M (option ImageApi.ImageResponse))) :=
  [ (GeminiService.generateImage, @GeminiService.withRetry _);
    (ChatService.generateImage, @ChatService.withRetry _);
    (Chatbot.generateImage, @Chatbot.withRetry _) ].

(** The status that a warning of [withRetry] reports: the line
    [console.warn] writes holds [error.status]. *)
Definition warned_status (line : ConsoleEntry) : option (option Z) :=
  match line with
  | warn_retrying e _ _ => Some (error_status e)
  | _ => None
  end.

(** ** Base64, read back

    The decoder of RFC 4648, section 4: four characters of the alphabet
    give three bytes, and a last group padded with [=] gives one byte or
    two. *)

Module Rfc4648.

Fixpoint index_of (c : ascii) (alphabet : string) (n : N) : option N :=
  match alphabet with
  | EmptyString => None
  | String a rest =>
      if Ascii.eqb a c then Some n else index_of c rest (n + 1)%N
  end.

(** The six bits a character of the alphabet stands for. *)
Definition value_of (c : ascii) : option N :=
  index_of c Base64.alphabet 0%N.

Fixpoint decode_chars (cs : list ascii) : option (list N) :=
  match cs with
  | [] => Some []
  | a :: b :: c :: d :: rest =>
      if Ascii.eqb d "=" then
        match rest with
        | [] =>
            if Ascii.eqb c "=" then
              match value_of a, value_of b with
              | Some x, Some y => Some [x * 4 + y / 16]%N
              | _, _ => None
              end
            else
              match value_of a, value_of b, value_of c with
              | Some x, Some y, Some z =>
                  Some [x * 4 + y / 16; (y mod 16) * 16 + z / 4]%N
              | _, _, _ => None
              end
        | _ :: _ => None
        end
      else
        match value_of a, value_of b, value_of c, value_of d,
              decode_chars rest with
        | Some x, Some y, Some z, Some t, Some more =>
            Some ((x * 4 + y / 16)%N
                  :: ((y mod 16) * 16 + z / 4)%N
                  :: ((z mod 4) * 64 + t)%N :: more)
        | _, _, _, _, _ => None
        end
  | _ => None
  end.

(** The bytes a Base64 text stands for, if it is one. *)
Definition decode (s : string) : option string :=
  match decode_chars (list_ascii_of_string s) with
  | Some bytes => Some (string_of_list_ascii (map ascii_of_N bytes))
  | None => None
  end.

End Rfc4648.

(** ** Response schemas *)

(** Every name an object of the schema requires is one of its
    properties, at every depth. *)
Fixpoint requires_own_properties (s : Schema) : bool :=
  match s with
  | OBJECT properties required =>
      forallb (fun r => existsb (String.eqb r) (map fst properties)) required
      && (fix all (ps : list (string * Schema)) : bool :=
            match ps with
            | [] => true
            | (_, t) :: ps' => requires_own_properties t && all ps'
            end) properties
  | ARRAY items => requires_own_properties items
  | STRING _ | INTEGER | XML_HTML => true
  end.

(** The schema without its descriptions: the types, the names of the
    properties and the required names. *)
Fixpoint shape (s : Schema) : Schema :=
  match s with
  | STRING _ => STRING None
  | INTEGER => INTEGER
  | XML_HTML => XML_HTML
  | ARRAY items => ARRAY (shape items)
  | OBJECT properties required =>
      OBJECT
        ((fix all (ps : list (string * Schema)) : list (string * Schema) :=
            match ps with
            | [] => []
            | (name, t) :: ps' => (name, shape t) :: all ps'
            end) properties)
        required
  end.

(** The request names the model of structured content, asks for JSON and
    gives the schema of an object that requires only properties it
    declares. *)
Definition asks_for_json_object (req : GenerateContentParams) : Prop :=
  model_id req = "gemini-2.5-pro" /\
  responseMimeType (config req) = "application/json" /\
  (exists properties required,
     responseSchema (config req) = OBJECT properties required) /\
  requires_own_properties (responseSchema (config req)) = true.

(** [history] begins with a user turn, if it has a turn. *)
Definition begins_with_user (history : list Content) : Prop :=
  forall turn rest, history = turn :: rest -> role turn = user.

(** Two model turns in a row. *)
Definition consecutive_model_turns (history : list Content) : Prop :=
  exists before a b after,
    history = (before ++ a :: b :: after)%list /\
    role a = model /\ role b = model.

(** ** [sendMessage] between its awaits

    [sendMessage] is an asynchronous function.  A call runs without
    interruption from its start to the first request it sends, and then
    from the answer of a request, or from the end of a back-off delay, to
    the next request or to its end; while it waits, the process serves
    other requests.  [begin] is the first of these steps and [resume] each
    later one; [ChatService.sendMessage] is the call that nothing
    interrupts.  A request carries the array of the history as it is when
    [ai.models.generateContent] is called. *)

Module Interleaved.
Import ChatService.

(** What a call that has not finished waits for: the answer of the
    remote model to the request it has just sent, which is a result or
    an error, or the timer of the back-off. *)
Inductive Waiting :=
| for_answer (answer : Completion Response)
| for_timer.

(** A call between two steps: its arguments and the variable [attempt]
    of the loop of [withRetry]. *)
Record Suspended := {
  sessionId : string;
  prompt : string;
  attempt : nat;
  waiting : Waiting
}.

Inductive Progress :=
| finished (completion : Completion Json.value)
| suspended (call : Suspended).

(** The default arguments of [withRetry]. *)
Definition maxRetries : Z := 5.
Definition initialDelay : Z := 2000.

(** The [catch] block of [sendMessage]. *)
Definition fails (sessionId : string) (error : JsError)
    : World -> Progress * World :=
  fun w =>
    (finished (Throw failed_response), logged (caught sessionId error) w).

(** One iteration of the loop of [withRetry] up to its [await]: the test
    of the loop, and [apiCallFn()], which sends the request.  When the
    loop is left, [withRetry] returns [undefined] and [result.text]
    raises. *)
Definition iteration (sessionId prompt : string) (attempt : nat)
    : World -> Progress * World :=
  fun w =>
    if (Z.of_nat attempt <? maxRetries)%Z then
      let '(answer, w1) := ask sessionId prompt w in
      (suspended {| sessionId := sessionId; prompt := prompt;
                    attempt := attempt; waiting := for_answer answer |},
       w1)
    else
      fails sessionId
        (TypeError "Cannot read properties of undefined (reading 'text')")
        w.

(** From the start of the call to its first [await]. *)
Definition begin (sessionId prompt : string) (file : option UploadedFile)
    : World -> Progress * World :=
  fun w =>
    if negb (truthy (get_history sessionId w)) then
      (finished (Throw invalid_session), w)
    else
      match (attached <~ attach file ;;
             let userMessage := user_turn prompt attached in
             history_push sessionId userMessage) w with
      | (Return _, w1) => iteration sessionId prompt 0 w1
      | (Throw error, w1) => fails sessionId error w1
      end.

(** What follows [await withRetry(...)] when the request is answered. *)
Definition conclude (sessionId : string) (response : Response)
    : World -> Progress * World :=
  fun w =>
    match (body <~ result_text (Some response) ;;
           modelResponseJson <~ lift (Json.parse_text body) ;;
           history_push sessionId
             (model_turn (default EmptyString body)) ;;;
           ret modelResponseJson) w with
    | (Return modelResponseJson, w1) =>
        (finished (Return modelResponseJson), w1)
    | (Throw error, w1) => fails sessionId error w1
    end.

(** From one [await] to the next, or to the end of the call. *)
Definition resume (call : Suspended) : World -> Progress * World :=
  fun w =>
    match waiting call with
    | for_answer (Return response) => conclude (sessionId call) response w
    | for_answer (Throw error) =>
        if status_429_or_503 error then
          if (Z.of_nat (attempt call) =? maxRetries - 1)%Z then
            fails (sessionId call) error
              (logged (error_no_more_retries (Z.to_nat maxRetries)) w)
          else
            (suspended {| sessionId := sessionId call;
                          prompt := prompt call;
                          attempt := attempt call;
                          waiting := for_timer |},
             logged
               (warn_retrying error (attempt call)
                  (initialDelay * 2 ^ Z.of_nat (attempt call))) w)
        else fails (sessionId call) error w
    | for_timer =>
        iteration (sessionId call) (prompt call) (S (attempt call)) w
    end.

(** A call that nothing interrupts: its steps one after the other, as
    many as [fuel] permits. *)
Fixpoint alone (fuel : nat) (p : Progress * World)
    : option (Completion Json.value * World) :=
  match p with
  | (finished completion, w) => Some (completion, w)
  | (suspended call, w) =>
      match fuel with
      | O => None
      | S fuel' => alone fuel' (resume call w)
      end
  end.

(** What the requests served while a call waits do to the histories:
    they add turns and sessions.  (An identifier that [randomUUID]
    returns is new.) *)
Definition histories_grow (w w' : World) : Prop :=
  forall sid history,
    chatHistories w !! sid = Some history ->
    exists more, chatHistories w' !! sid = Some (history ++ more)%list.

(** The steps of a call from a suspension to its end, each with the
    world it starts from and the world it leaves; before each step the
    process has served other requests. *)
Inductive continues
    : Suspended -> World -> list (World * World) ->
      Completion Json.value -> World -> Prop :=
| continues_last (call : Suspended) (w w1 w' : World)
    (completion : Completion Json.value) :
    histories_grow w w1 ->
    resume call w1 = (finished completion, w') ->
    continues call w [(w1, w')] completion w'
| continues_more (call call' : Suspended) (w w1 w2 w' : World)
    (steps : list (World * World)) (completion : Completion Json.value) :
    histories_grow w w1 ->
    resume call w1 = (suspended call', w2) ->
    continues call' w2 steps completion w' ->
    continues call w ((w1, w2) :: steps) completion w'.

(** The steps of a call of [sendMessage] from its start. *)
Inductive runs (sessionId prompt : string) (file : option UploadedFile)
    (w : World)
    : list (World * World) -> Completion Json.value -> World -> Prop :=
| runs_at_once (completion : Completion Json.value) (w' : World) :
    begin sessionId prompt file w = (finished completion, w') ->
    runs sessionId prompt file w [(w, w')] completion w'
| runs_later (call : Suspended) (w1 w' : World)
    (steps : list (World * World)) (completion : Completion Json.value) :
    begin sessionId prompt file w = (suspended call, w1) ->
    continues call w1 steps completion w' ->
    runs sessionId prompt file w ((w, w1) :: steps) completion w'.

(** The requests a step has sent. *)
Definition own_requests (step : World * World)
    : list GenerateContentParams :=
  requests_of (fst step) (snd step).

(** The requests a call has sent, in order. *)
Definition all_requests (steps : list (World * World))
    : list GenerateContentParams :=
  concat (map own_requests steps).

(** Between the steps of the call nothing was added to the history of
    the session [sid]: each step finds the history as the step before it
    left it. *)
Fixpoint undisturbed (sid : string) (w : World)
    (steps : list (World * World)) : Prop :=
  match steps with
  | [] => True
  | (a, b) :: rest =>
      chatHistories a !! sid = chatHistories w !! sid /\
      undisturbed sid b rest
  end.

End Interleaved.

(** ** Worlds and scripts of the examples *)

Module Examples.

(** A process that has just started: no session, no staged file, nothing
    sent, facing the remote model [up]. *)
Definition fresh (up : nat -> GenerateContentParams -> Completion Response)
    : World :=
  {| chatHistories := ∅; staged := ∅; uploadsDir := "/app/uploads";
     upstream := up; sent := []; console := [] |}.

Definition answer (body : string) : Completion Response :=
  Return {| text := Some body |}.

Definition unavailable : JsError :=
  ApiError (Some 503%Z) "Service Unavailable".

Definition too_many_requests : JsError :=
  ApiError (Some 429%Z) "Too Many Requests".

Definition bad_request : JsError := ApiError (Some 400%Z) "Bad Request".

(** The model answers every call with the text [body]. *)
Definition always (body : string)
    : nat -> GenerateContentParams -> Completion Response :=
  fun _ _ => answer body.

(** The model fails the first call of the process with [e] and answers
    the later ones with [body]. *)
Definition fails_once (e : JsError) (body : string)
    : nat -> GenerateContentParams -> Completion Response :=
  fun n _ => match n with O => Throw e | S _ => answer body end.

Definition ping : GenerateContentParams :=
  GeminiService.request "hello" [user_turn "hello" []].

Definition notes : UploadedFile :=
  {| filename := "3f9a1c"; mimetype := "text/plain" |}.

(** A fresh process after the middleware staged the file [notes]. *)
Definition with_notes
    (up : nat -> GenerateContentParams -> Completion Response) : World :=
  step (fresh up) (stage_file "3f9a1c" "Newton").

(** An identifier as [randomUUID()] returns them. *)
Definition uuid : string := "0b0e6c1e-7d0b-4c55-9d0f-2f5c3a1e8a11".

(** An answer of the image model: the parts of its only candidate. *)
Definition painted (ps : list ImageApi.ResponsePart)
    : ImageApi.ImageResponse :=
  {| ImageApi.candidates :=
       Some [ {| ImageApi.content :=
                   Some {| ImageApi.parts := Some ps |} |} ] |}.

Definition caption (t : string) : ImageApi.ResponsePart :=
  {| ImageApi.part_text := Some t; ImageApi.inlineData := None |}.

Definition png (d : string) : ImageApi.ResponsePart :=
  {| ImageApi.part_text := None;
     ImageApi.inlineData :=
       Some {| ImageApi.data := Some d;
               ImageApi.blob_mimeType := Some "image/png" |} |}.

(** An image model that gives every request the answer [response]. *)
Definition paints (response : ImageApi.ImageResponse)
    : ImageApi.ImageParams -> M ImageApi.ImageResponse :=
  fun _ w => (Return response, w).

(** An image model that fails every request with [e]. *)
Definition refuses (e : JsError)
    : ImageApi.ImageParams -> M ImageApi.ImageResponse :=
  fun _ w => (Throw e, w).

End Examples.

(** * Properties *)

(** ** Strings *)

Section StringFacts.
Import JsString.

Lemma append_nil_r (s : string) : s ++ EmptyString = s.
Proof. induction s as [|c s IH]; simpl; [reflexivity | now rewrite IH]. Qed.

Lemma append_assoc (a b c : string) : (a ++ b) ++ c = a ++ (b ++ c).
Proof. induction a as [|x a IH]; simpl; [reflexivity | now rewrite IH]. Qed.

Lemma length_append (a b : string) :
  String.length (a ++ b) = String.length a + String.length b.
Proof. induction a as [|x a IH]; simpl; [reflexivity | now rewrite IH]. Qed.

Lemma starts_with_iff (kw s : string) :
  starts_with kw s = true <-> exists after, s = kw ++ after.
Proof.
  revert s. induction kw as [|a kw IH]; intros s; simpl.
  - split; [intros _; now exists s | intros _; reflexivity].
  - destruct s as [|b s].
    + split; [discriminate | intros [after H]; discriminate].
    + rewrite andb_true_iff, Ascii.eqb_eq, IH. split.
      * intros [-> [after ->]]. now exists after.
      * intros [after H]. injection H as -> ->. split; eauto.
Qed.

Lemma includes_iff (s kw : string) :
  includes s kw = true <-> exists before after, s = before ++ kw ++ after.
Proof.
  induction s as [|c s IH].
  - simpl. rewrite orb_false_r, starts_with_iff. split.
    + intros [after H]. now exists EmptyString, after.
    + intros [before [after H]]. destruct before; [| discriminate].
      now exists after.
  - cbn [includes]. rewrite orb_true_iff, starts_with_iff, IH. split.
    + intros [[after H] | [before [after H]]].
      * now exists EmptyString, after.
      * exists (String c before), after. simpl. now rewrite H.
    + intros [before [after H]]. destruct before as [|x before].
      * left. now exists after.
      * right. exists before, after. simpl in H. now injection H.
Qed.

Lemma toLowerCase_append (a b : string) :
  toLowerCase (a ++ b) = toLowerCase a ++ toLowerCase b.
Proof. induction a as [|x a IH]; simpl; [reflexivity | now rewrite IH]. Qed.

Lemma toLowerCase_split (s a b : string) :
  toLowerCase s = a ++ b ->
  exists a' b', s = a' ++ b' /\ toLowerCase a' = a /\ toLowerCase b' = b.
Proof.
  revert s. induction a as [|x a IH]; intros s H.
  - exists EmptyString, s. auto.
  - destruct s as [|c s]; [discriminate |].
    simpl in H. injection H as Hc Hs.
    destruct (IH _ Hs) as (a' & b' & -> & <- & <-).
    exists (String c a'), b'. simpl. now rewrite Hc.
Qed.

(** [includes] on the lowered prompt is occurrence up to case. *)
Lemma includes_lower_iff (prompt kw : string) :
  includes (toLowerCase prompt) kw = true <-> Spec.occurs_ci kw prompt.
Proof.
  rewrite includes_iff. unfold Spec.occurs_ci. split.
  - intros (before & after & H).
    apply toLowerCase_split in H as (p & rest & -> & _ & H).
    apply toLowerCase_split in H as (u & q & -> & Hu & _).
    now exists p, u, q.
  - intros (before & u & after & -> & <-).
    exists (toLowerCase before), (toLowerCase after).
    now rewrite !toLowerCase_append.
Qed.

End StringFacts.

(** ** The content classifier *)

Section ClassifierFacts.
Import JsString Classifier.

Variable lower : string.

Let occurs (g : KeywordGroup) : bool :=
  existsb (includes lower) (keywords g).

Let chosen (g : KeywordGroup) : BestMatch :=
  {| best_name := name g; best_priority := priority g |}.

(** Of the keywords of one group only the first that occurs can change
    [bestMatch]. *)
Lemma scan_group_eq (b : BestMatch) (g : KeywordGroup) :
  scan_group lower b g =
  if occurs g && (priority g <? best_priority b)%Z then chosen g else b.
Proof.
  unfold scan_group, occurs. revert b.
  induction (keywords g) as [|kw kws IH]; intros b; [reflexivity |].
  cbn [fold_left existsb]. rewrite IH. unfold consider.
  destruct (includes lower kw);
    destruct (priority g <? best_priority b)%Z eqn:Hlt;
    cbn [andb orb best_priority];
    rewrite ?Z.ltb_irrefl, ?Hlt;
    destruct (existsb (includes lower) kws); reflexivity.
Qed.

Lemma scan_table (table : list KeywordGroup) (b : BestMatch) :
  let r := fold_left (scan_group lower) table b in
  (r = b /\
   forall g, In g table -> occurs g = true ->
             (best_priority b <= priority g)%Z)
  \/
  (exists before g after,
     table = (before ++ g :: after)%list /\ occurs g = true /\
     r = chosen g /\ (priority g < best_priority b)%Z /\
     (forall g', In g' before -> occurs g' = true ->
                 (priority g < priority g')%Z) /\
     (forall g', In g' after -> occurs g' = true ->
                 (priority g <= priority g')%Z)).
Proof.
  revert b. induction table as [|g0 table IH]; intros b r.
  - left. split; [reflexivity | intros g []].
  - subst r. cbn [fold_left]. rewrite scan_group_eq.
    destruct (occurs g0 && (priority g0 <? best_priority b)%Z) eqn:Hstep.
    + apply andb_true_iff in Hstep as [Hocc Hlt]. apply Z.ltb_lt in Hlt.
      destruct (IH (chosen g0)) as [[Hr Hrest] | Hbetter].
      * right. exists [], g0, table. cbn [best_priority chosen] in *.
        repeat split; auto. intros g' [].
      * destruct Hbetter as (before & g & after & -> & Hg & Hr & Hp & Hb & Ha).
        right. exists (g0 :: before), g, after.
        cbn [best_priority chosen] in Hp.
        repeat split; auto; [lia |].
        intros g' [<- | Hin] Hocc'; auto.
    + destruct (IH b) as [[Hr Hrest] | Hbetter].
      * left. split; [exact Hr |].
        intros g [<- | Hin] Hocc; auto.
        rewrite Hocc in Hstep. cbn [andb] in Hstep.
        apply Z.ltb_ge in Hstep. exact Hstep.
      * destruct Hbetter as (before & g & after & -> & Hg & Hr & Hp & Hb & Ha).
        right. exists (g0 :: before), g, after.
        repeat split; auto.
        intros g' [<- | Hin] Hocc'; auto.
        rewrite Hocc' in Hstep. cbn [andb] in Hstep.
        apply Z.ltb_ge in Hstep. lia.
Qed.

End ClassifierFacts.

Section ClassifierSpec.
Import JsString Classifier.

Lemma occurs_iff (prompt : string) (g : KeywordGroup) :
  existsb (includes (toLowerCase prompt)) (keywords g) = true
  <-> Spec.group_occurs g prompt.
Proof.
  rewrite existsb_exists. unfold Spec.group_occurs.
  split; intros (kw & Hin & H); exists kw; split; auto;
    now apply includes_lower_iff.
Qed.

(** The loop over a table whose priorities are all below that of the
    initial [bestMatch] returns the name of the winning group, or
    [default] when no group occurs. *)
Lemma detect_spec (table : list KeywordGroup) (prompt : string) :
  Forall (fun g => (priority g < 99)%Z) table ->
  (detect table prompt = "default" /\
   forall g, In g table -> ~ Spec.group_occurs g prompt)
  \/
  (exists g, Spec.wins table prompt g /\ detect table prompt = name g).
Proof.
  intros Hprio. unfold detect.
  destruct (scan_table (toLowerCase prompt) table initial_match)
    as [[-> Hnone] | (before & g & after & Htable & Hg & -> & _ & Hb & Ha)].
  - left. split; [reflexivity |].
    intros g Hin Hocc. apply occurs_iff in Hocc.
    specialize (Hnone g Hin Hocc). cbn in Hnone.
    pose proof (proj1 (List.Forall_forall _ _) Hprio g Hin) as Hlt.
    cbn beta in Hlt. lia.
  - right. exists g. split; [| reflexivity].
    exists before, after. repeat split; auto.
    + now apply occurs_iff.
    + intros g' Hin Hocc. apply Hb; auto. now apply occurs_iff.
    + intros g' Hin Hocc. apply Ha; auto. now apply occurs_iff.
Qed.

End ClassifierSpec.

(** C5. On every prompt the classifier of the one-shot service returns the
    name of the keyword group that wins: among the groups with a keyword
    occurring in the prompt up to case, wherever it occurs, the one with the
    lowest priority number, and of several such groups the one declared
    first; it returns [default] when no keyword of any group occurs.  On
    [write an assignment for a lecture] it returns [assignment]. *)
Theorem detectContentType_lowest_priority :
  (forall prompt : string,
     (GeminiService.detectContentType prompt = "default" /\
      forall g, In g GeminiService.keywordPriority ->
                ~ Spec.group_occurs g prompt)
     \/
     (exists g, Spec.wins GeminiService.keywordPriority prompt g /\
                GeminiService.detectContentType prompt = Classifier.name g))
  /\ GeminiService.detectContentType "write an assignment for a lecture"
     = "assignment".
Proof.
  split; [| reflexivity].
  intros prompt. apply detect_spec.
  unfold GeminiService.keywordPriority.
  repeat constructor.
Qed.

(** C10. The chain of tests of [chatbot.js] and the priority table of
    [geminiService.js] give every prompt the same label. *)
Theorem detectContentType_chain_eq_table (prompt : string) :
  Chatbot.detectContentType prompt = GeminiService.detectContentType prompt.
Proof.
  unfold Chatbot.detectContentType, GeminiService.detectContentType,
    Classifier.detect, GeminiService.keywordPriority.
  cbn [fold_left]. rewrite !scan_group_eq.
  cbn [Classifier.keywords Classifier.priority Classifier.name existsb].
  generalize (JsString.toLowerCase prompt). intros lower.
  destruct (JsString.includes lower "lesson plan");
    destruct (JsString.includes lower "assignment");
    destruct (JsString.includes lower "quiz");
    destruct (JsString.includes lower "quizzes");
    destruct (JsString.includes lower "lecture"); reflexivity.
Qed.

(** ** The question count of a quiz *)

Section QuestionCount.
Import JsString QuestionPattern Spec.

Lemma lower_q_not_digit (c : ascii) :
  lower_char c = "q"%char -> is_digit c = false.
Proof.
  destruct c as [b0 b1 b2 b3 b4 b5 b6 b7].
  destruct b0, b1, b2, b3, b4, b5, b6, b7; vm_compute; congruence.
Qed.

Lemma all_digits_cons (c : ascii) (s : string) :
  all_digits (String c s) <-> is_digit c = true /\ all_digits s.
Proof. unfold all_digits. cbn. apply List.Forall_cons_iff. Qed.

Lemma all_spaces_nil : all_spaces EmptyString.
Proof. constructor. Qed.

(** A white space character does not begin with a digit. *)
Lemma white_space_head (c rest : string) :
  white_space c ->
  exists a more, c ++ rest = String a more /\ is_digit a = false.
Proof.
  intros (cp & Hin & ->). unfold white_space_code_points in Hin.
  repeat (destruct Hin as [<- | Hin];
          [eexists _, _; split; reflexivity |]).
  destruct Hin.
Qed.

Lemma skip_space_white (c rest : string) :
  white_space c -> skip_space (c ++ rest) = Some rest.
Proof.
  intros (cp & Hin & ->). unfold white_space_code_points in Hin.
  repeat (destruct Hin as [<- | Hin]; [reflexivity |]).
  destruct Hin.
Qed.

Lemma byte_eq (a : ascii) (n : N) :
  N_of_ascii a = n -> a = ascii_of_N n.
Proof. intros <-. now rewrite ascii_N_embedding. Qed.

Lemma skip_space_some (s rest : string) :
  skip_space s = Some rest ->
  exists c, white_space c /\ s = c ++ rest.
Proof.
  assert (Hcp : forall cp bytes,
            In cp white_space_code_points -> bytes = utf8 cp ->
            exists c, white_space c /\ bytes ++ rest = c ++ rest).
  { intros cp bytes Hin ->. exists (utf8 cp). split; [| reflexivity].
    now exists cp. }
  destruct s as [|a s1]; [discriminate |]. cbn [skip_space].
  destruct (is_space a) eqn:Ha.
  { intros [= ->]. unfold is_space in Ha.
    apply orb_true_iff in Ha as [Ha | Ha].
    - apply andb_true_iff in Ha as [Hlo Hhi].
      apply N.leb_le in Hlo. apply N.leb_le in Hhi.
      assert (Hn : (N_of_ascii a = 9 \/ N_of_ascii a = 10
                    \/ N_of_ascii a = 11 \/ N_of_ascii a = 12
                    \/ N_of_ascii a = 13)%N) by lia.
      destruct Hn as [Hn | [Hn | [Hn | [Hn | Hn]]]];
        apply byte_eq in Hn; subst a;
        [ apply (Hcp 9%N (utf8 9)) | apply (Hcp 10%N (utf8 10))
        | apply (Hcp 11%N (utf8 11)) | apply (Hcp 12%N (utf8 12))
        | apply (Hcp 13%N (utf8 13)) ];
        (reflexivity || (vm_compute; tauto)).
    - apply N.eqb_eq in Ha. apply byte_eq in Ha. subst a.
      apply (Hcp 32%N (utf8 32)); [vm_compute; tauto | reflexivity]. }
  destruct s1 as [|b s2]; [discriminate |].
  destruct (is_space2 a b) eqn:Hab.
  { intros [= ->]. unfold is_space2 in Hab.
    apply andb_true_iff in Hab as [Hx Hy].
    apply N.eqb_eq in Hx. apply N.eqb_eq in Hy.
    apply byte_eq in Hx. apply byte_eq in Hy. subst a b.
    apply (Hcp 160%N (utf8 160)); [vm_compute; tauto | reflexivity]. }
  destruct s2 as [|c s3]; [discriminate |].
  destruct (is_space3 a b c) eqn:Habc; [| discriminate].
  intros [= ->]. unfold is_space3 in Habc. cbn zeta in Habc.
  assert (Hcases :
            ((N_of_ascii a = 225 /\ N_of_ascii b = 154
             /\ N_of_ascii c = 128)
            \/ (N_of_ascii a = 226 /\ N_of_ascii b = 128
                /\ (128 <= N_of_ascii c <= 138 \/ N_of_ascii c = 168
                    \/ N_of_ascii c = 169 \/ N_of_ascii c = 175))
            \/ (N_of_ascii a = 226 /\ N_of_ascii b = 129
                /\ N_of_ascii c = 159)
            \/ (N_of_ascii a = 227 /\ N_of_ascii b = 128
                /\ N_of_ascii c = 128)
            \/ (N_of_ascii a = 239 /\ N_of_ascii b = 187
                /\ N_of_ascii c = 191))%N).
  { repeat first [ rewrite orb_true_iff in Habc
                 | rewrite andb_true_iff in Habc
                 | rewrite N.eqb_eq in Habc
                 | rewrite N.leb_le in Habc ].
    tauto. }
  assert (Hthree : forall x y z cp,
            N_of_ascii a = x -> N_of_ascii b = y -> N_of_ascii c = z ->
            In cp white_space_code_points ->
            utf8 cp
            = String (ascii_of_N x)
                (String (ascii_of_N y)
                   (String (ascii_of_N z) EmptyString)) ->
            exists sp,
              white_space sp /\
              String a (String b (String c rest)) = sp ++ rest).
  { intros x y z cp Hx Hy Hz Hin Hutf.
    apply byte_eq in Hx. apply byte_eq in Hy. apply byte_eq in Hz.
    subst a b c. exists (utf8 cp). split; [now exists cp |].
    now rewrite Hutf. }
  destruct Hcases
    as [(Hx & Hy & Hz) | [(Hx & Hy & Hz) | [(Hx & Hy & Hz)
        | [(Hx & Hy & Hz) | (Hx & Hy & Hz)]]]].
  - apply (Hthree _ _ _ 5760%N Hx Hy Hz); [vm_compute; tauto | reflexivity].
  - assert (Hz' : (N_of_ascii c = 128 \/ N_of_ascii c = 129
                   \/ N_of_ascii c = 130 \/ N_of_ascii c = 131
                   \/ N_of_ascii c = 132 \/ N_of_ascii c = 133
                   \/ N_of_ascii c = 134 \/ N_of_ascii c = 135
                   \/ N_of_ascii c = 136 \/ N_of_ascii c = 137
                   \/ N_of_ascii c = 138 \/ N_of_ascii c = 168
                   \/ N_of_ascii c = 169 \/ N_of_ascii c = 175)%N) by lia.
    clear Hz.
    destruct Hz' as [Hz | [Hz | [Hz | [Hz | [Hz | [Hz | [Hz | [Hz | [Hz
                     | [Hz | [Hz | [Hz | [Hz | Hz]]]]]]]]]]]]];
      [ apply (Hthree _ _ _ 8192%N Hx Hy Hz)
      | apply (Hthree _ _ _ 8193%N Hx Hy Hz)
      | apply (Hthree _ _ _ 8194%N Hx Hy Hz)
      | apply (Hthree _ _ _ 8195%N Hx Hy Hz)
      | apply (Hthree _ _ _ 8196%N Hx Hy Hz)
      | apply (Hthree _ _ _ 8197%N Hx Hy Hz)
      | apply (Hthree _ _ _ 8198%N Hx Hy Hz)
      | apply (Hthree _ _ _ 8199%N Hx Hy Hz)
      | apply (Hthree _ _ _ 8200%N Hx Hy Hz)
      | apply (Hthree _ _ _ 8201%N Hx Hy Hz)
      | apply (Hthree _ _ _ 8202%N Hx Hy Hz)
      | apply (Hthree _ _ _ 8232%N Hx Hy Hz)
      | apply (Hthree _ _ _ 8233%N Hx Hy Hz)
      | apply (Hthree _ _ _ 8239%N Hx Hy Hz) ];
      (reflexivity || (vm_compute; tauto)).
  - apply (Hthree _ _ _ 8287%N Hx Hy Hz); [vm_compute; tauto | reflexivity].
  - apply (Hthree _ _ _ 12288%N Hx Hy Hz);
      [vm_compute; tauto | reflexivity].
  - apply (Hthree _ _ _ 65279%N Hx Hy Hz);
      [vm_compute; tauto | reflexivity].
Qed.

Lemma skip_space_shorter (s rest : string) :
  skip_space s = Some rest -> String.length rest < String.length s.
Proof.
  destruct s as [|a [|b [|c s3]]]; cbn;
    repeat match goal with
           | |- context [if ?t then _ else _] => destruct t
           end;
    intros [= <-]; cbn; lia.
Qed.

Lemma spaces_question_eq (s : string) :
  spaces_question s =
  match skip_space s with
  | Some rest => spaces_question rest || literal_ci "question" s
  | None => literal_ci "question" s
  end.
Proof.
  destruct s as [|a s1]; [reflexivity |].
  cbn [spaces_question skip_space].
  destruct (is_space a); [reflexivity |].
  destruct s1 as [|b s2]; [reflexivity |]. cbv beta iota.
  destruct (is_space2 a b); [reflexivity |].
  destruct s2 as [|c s3]; [reflexivity |]. cbv beta iota.
  destruct (is_space3 a b c); reflexivity.
Qed.

Lemma all_digits_nil : all_digits EmptyString.
Proof. constructor. Qed.

(** The literal under the [i] flag: a word whose lower case is that of
    the literal. *)
Lemma literal_ci_iff (lit s : string) :
  literal_ci lit s = true <->
  exists word after, s = word ++ after /\ toLowerCase word = toLowerCase lit.
Proof.
  revert s. induction lit as [|a lit IH]; intros s.
  - split; [| reflexivity]. intros _. now exists EmptyString, s.
  - destruct s as [|b s]; cbn [literal_ci].
    + split; [discriminate |].
      intros (word & after & H & Hw). destruct word; discriminate.
    + unfold eqb_ci. rewrite andb_true_iff, Ascii.eqb_eq, IH. split.
      * intros [Hab (word & after & -> & Hw)].
        exists (String b word), after. split; [reflexivity |].
        cbn. now rewrite Hw, Hab.
      * intros (word & after & H & Hw).
        destruct word as [|x word]; [discriminate |].
        cbn in H, Hw. injection H as -> ->. injection Hw as Hx Hw.
        split; [now rewrite Hx | now exists word, after].
Qed.

Lemma question_word_iff (s : string) :
  literal_ci "question" s = true <->
  exists word after, s = word ++ after /\ toLowerCase word = "question".
Proof. apply literal_ci_iff. Qed.

Lemma spaces_question_iff (s : string) :
  spaces_question s = true <->
  exists spaces word after,
    s = spaces ++ word ++ after /\ all_spaces spaces /\
    toLowerCase word = "question".
Proof.
  split.
  - remember (String.length s) as n eqn:Hn. revert s Hn.
    induction n as [n IH] using lt_wf_ind. intros s -> H.
    rewrite spaces_question_eq in H.
    assert (Hcases : (exists rest, skip_space s = Some rest
                                   /\ spaces_question rest = true)
                     \/ literal_ci "question" s = true).
    { destruct (skip_space s) as [rest|]; [| now right].
      apply orb_true_iff in H as [H | H]; eauto. }
    destruct Hcases as [(rest & Hskip & Hrest) | Hlit].
    + pose proof (skip_space_shorter _ _ Hskip) as Hlt.
      destruct (IH _ Hlt rest eq_refl Hrest)
        as (spaces & word & after & -> & Hsp & Hw).
      apply skip_space_some in Hskip as (c & Hc & ->).
      exists (c ++ spaces), word, after.
      split; [now rewrite append_assoc |].
      split; [now constructor | exact Hw].
    + apply question_word_iff in Hlit as (word & after & Hlit & Hw).
      exists EmptyString, word, after. auto using all_spaces_nil.
  - intros (spaces & word & after & -> & Hsp & Hw).
    induction Hsp as [|c spaces Hc Hsp IH].
    + cbn [String.append]. rewrite spaces_question_eq.
      assert (Hlit : literal_ci "question" (word ++ after) = true)
        by (apply question_word_iff; eauto).
      rewrite Hlit.
      destruct (skip_space (word ++ after));
        [apply orb_true_r | reflexivity].
    + rewrite append_assoc, spaces_question_eq.
      rewrite (skip_space_white _ _ Hc), IH. reflexivity.
Qed.

(** What follows the digits of a match does not begin with a digit. *)
Lemma after_digits_no_match (spaces word after : string) :
  all_spaces spaces -> toLowerCase word = "question" ->
  match_here (spaces ++ word ++ after) = None.
Proof.
  intros Hsp Hw. destruct Hsp as [|c spaces Hc Hsp].
  - destruct word as [|x word]; [discriminate |].
    cbn in Hw. injection Hw as Hx _.
    cbn [String.append match_here].
    now rewrite (lower_q_not_digit _ Hx).
  - rewrite append_assoc.
    destruct (white_space_head c (spaces ++ word ++ after) Hc)
      as (a & more & -> & Ha).
    cbn [match_here]. now rewrite Ha.
Qed.

(** A match at the head of [s]: digits, white space, the word. *)
Lemma match_here_iff (s ds : string) :
  match_here s = Some ds <->
  exists spaces word after,
    s = ds ++ spaces ++ word ++ after /\
    ds <> EmptyString /\ all_digits ds /\
    all_spaces spaces /\ toLowerCase word = "question".
Proof.
  split.
  - revert ds. induction s as [|c s IH]; intros ds; cbn [match_here];
      [discriminate |].
    destruct (is_digit c) eqn:Hc; [| discriminate].
    destruct (match_here s) as [ds'|] eqn:Hs.
    + intros [= <-].
      destruct (IH ds' eq_refl) as (sp & word & after & -> & _ & Hd & Hsp & Hw).
      exists sp, word, after.
      split; [reflexivity |]. split; [discriminate |].
      split; [now apply all_digits_cons | now split].
    + destruct (spaces_question s) eqn:Hq; [| discriminate].
      intros [= <-].
      apply spaces_question_iff in Hq as (sp & word & after & -> & Hsp & Hw).
      exists sp, word, after.
      split; [reflexivity |]. split; [discriminate |].
      split; [| now split].
      apply all_digits_cons. auto using all_digits_nil.
  - intros (sp & word & after & -> & Hne & Hd & Hsp & Hw).
    induction ds as [|c ds IH]; [congruence |].
    apply all_digits_cons in Hd as [Hc Hd].
    cbn [String.append match_here]. rewrite Hc.
    destruct ds as [|c' ds].
    + cbn [String.append].
      rewrite (after_digits_no_match _ _ _ Hsp Hw).
      assert (Hq : spaces_question (sp ++ word ++ after) = true)
        by (apply spaces_question_iff; eauto 6).
      now rewrite Hq.
    + rewrite IH; [reflexivity | discriminate | exact Hd].
Qed.

Lemma exec_some (s ds : string) :
  exec s = Some ds ->
  exists before rest,
    s = before ++ rest /\ match_here rest = Some ds /\
    forall before' rest',
      s = before' ++ rest' ->
      String.length before' < String.length before ->
      match_here rest' = None.
Proof.
  induction s as [|c s IH].
  - cbn. discriminate.
  - cbn [exec]. destruct (match_here (String c s)) as [ds0|] eqn:Hm.
    + intros [= <-]. exists EmptyString, (String c s).
      repeat split; auto. cbn. intros; lia.
    + intros H. destruct (IH H) as (before & rest & -> & Hrest & Hmin).
      exists (String c before), rest. repeat split; auto.
      intros before' rest' Heq Hlen.
      destruct before' as [|x before'].
      * cbn in Heq. now subst rest'.
      * cbn in Heq. injection Heq as -> Heq.
        apply (Hmin before' rest' Heq). cbn in Hlen. lia.
Qed.

Lemma exec_none (s : string) :
  exec s = None ->
  forall before rest, s = before ++ rest -> match_here rest = None.
Proof.
  induction s as [|c s IH]; cbn [exec].
  - intros _ before rest H. destruct before; [| discriminate].
    cbn in H. now subst rest.
  - destruct (match_here (String c s)) eqn:Hm; [discriminate |].
    intros H before rest Heq. destruct before as [|x before].
    + cbn in Heq. now subst rest.
    + cbn in Heq. injection Heq as -> Heq. eapply IH; eauto.
Qed.

Lemma integer_before_question_match (prompt before ds : string) :
  integer_before_question prompt before ds ->
  exists rest, prompt = before ++ rest /\ match_here rest = Some ds.
Proof.
  intros (sp & word & after & -> & Hne & Hd & _ & Hsp & Hw).
  eexists. split; [reflexivity |].
  apply match_here_iff. eauto 8.
Qed.

(** The capture of the leftmost match is the first integer before the
    word, and there is no match when there is no such integer. *)
Lemma exec_spec (prompt : string) :
  match exec prompt with
  | Some ds => first_integer_before_question prompt ds
  | None => forall before ds, ~ integer_before_question prompt before ds
  end.
Proof.
  destruct (exec prompt) as [ds|] eqn:He.
  - apply exec_some in He as (before & rest & -> & Hrest & Hmin).
    exists before. split.
    + pose proof Hrest as Hdec.
      apply match_here_iff in Hdec as (sp & word & after & -> & Hne & Hd & Hsp & Hw).
      exists sp, word, after. repeat split; auto.
      intros (b' & c & -> & Hc).
      specialize (Hmin b' (String c (ds ++ sp ++ word ++ after))).
      rewrite append_assoc in Hmin. cbn [String.append] in Hmin.
      specialize (Hmin eq_refl).
      rewrite length_append in Hmin. cbn in Hmin.
      assert (Hlt : String.length b' < String.length b' + 1) by lia.
      specialize (Hmin Hlt). cbn [match_here] in Hmin.
      rewrite Hc, Hrest in Hmin. discriminate.
    + intros before' ds' Hint.
      apply integer_before_question_match in Hint as (rest' & Heq & Hm').
      destruct (Nat.le_gt_cases (String.length before)
                  (String.length before')) as [Hle | Hlt]; [exact Hle |].
      rewrite (Hmin before' rest' Heq Hlt) in Hm'. discriminate.
  - intros before ds Hint.
    apply integer_before_question_match in Hint as (rest & Heq & Hm).
    rewrite (exec_none _ He before rest Heq) in Hm. discriminate.
Qed.

Lemma append_eq_length (a b a' b' : string) :
  a ++ b = a' ++ b' -> String.length a = String.length a' ->
  a = a' /\ b = b'.
Proof.
  revert a'. induction a as [|x a IH]; intros [|x' a'] Heq Hlen;
    try discriminate.
  - auto.
  - cbn in Heq, Hlen. injection Heq as -> Heq.
    destruct (IH a' Heq ltac:(lia)) as [-> ->]. auto.
Qed.

(** A prompt has at most one first integer before the word. *)
Lemma first_integer_unique (prompt ds ds' : string) :
  first_integer_before_question prompt ds ->
  first_integer_before_question prompt ds' ->
  ds = ds'.
Proof.
  intros (before & Hint & Hmin) (before' & Hint' & Hmin').
  pose proof (Hmin _ _ Hint') as Hle.
  pose proof (Hmin' _ _ Hint) as Hge.
  apply integer_before_question_match in Hint as (rest & Heq & Hm).
  apply integer_before_question_match in Hint' as (rest' & Heq' & Hm').
  rewrite Heq in Heq'.
  destruct (append_eq_length _ _ _ _ Heq' ltac:(lia)) as [_ <-].
  congruence.
Qed.

End QuestionCount.

(** ** The numbers of the question count *)

Section Numbers.
Import JsString JsNumber Spec.

Lemma digit_cases (c : ascii) :
  is_digit c = true ->
  In c ["0"; "1"; "2"; "3"; "4"; "5"; "6"; "7"; "8"; "9"]%char.
Proof.
  destruct c as [b0 b1 b2 b3 b4 b5 b6 b7].
  destruct b0, b1, b2, b3, b4, b5, b6, b7; vm_compute;
    try discriminate; tauto.
Qed.

(** Reading digits after a prefix that is not zero. *)
Lemma horner_acc (s : string) (acc : positive) :
  all_digits s ->
  exists d,
    NilEmpty.uint_of_string s = Some d /\
    fold_left horner (list_ascii_of_string s) (Npos acc)
    = Npos (Pos.of_uint_acc d acc).
Proof.
  revert acc. induction s as [|c s IH]; intros acc Hd.
  - exists Decimal.Nil. split; reflexivity.
  - apply all_digits_cons in Hd as [Hc Hd]. apply digit_cases in Hc.
    cbn [list_ascii_of_string fold_left NilEmpty.uint_of_string].
    cbn in Hc.
    repeat (destruct Hc as [<- | Hc];
            [ match goal with
              | |- context [horner (Npos acc) ?c] =>
                  match eval vm_compute in (digit_value c) with
                  | 0%N =>
                      destruct (IH (10 * acc)%positive Hd)
                        as (d & -> & Hfold);
                      eexists; split; [reflexivity |];
                      replace (horner (Npos acc) c)
                        with (Npos (10 * acc)) by reflexivity;
                      exact Hfold
                  | Npos ?k =>
                      destruct (IH (k + 10 * acc)%positive Hd)
                        as (d & -> & Hfold);
                      eexists; split; [reflexivity |];
                      replace (horner (Npos acc) c)
                        with (Npos (k + 10 * acc))
                        by (unfold horner; vm_compute (digit_value _);
                            lia);
                      exact Hfold
                  end
              end |]).
    destruct Hc.
Qed.

Lemma horner_zero (s : string) :
  all_digits s ->
  exists d,
    NilEmpty.uint_of_string s = Some d /\
    fold_left horner (list_ascii_of_string s) 0%N = N.of_uint d.
Proof.
  induction s as [|c s IH]; intros Hd.
  - exists Decimal.Nil. split; reflexivity.
  - apply all_digits_cons in Hd as [Hc Hd]. apply digit_cases in Hc.
    cbn [list_ascii_of_string fold_left NilEmpty.uint_of_string].
    cbn in Hc.
    destruct Hc as [<- | Hc].
    { destruct (IH Hd) as (d & -> & Hfold).
      eexists. split; [reflexivity |].
      change (horner 0 "0") with 0%N. exact Hfold. }
    repeat (destruct Hc as [<- | Hc];
            [ match goal with
              | |- context [horner 0 ?c] =>
                  match eval vm_compute in (digit_value c) with
                  | Npos ?k =>
                      change (horner 0 c) with (Npos k);
                      destruct (horner_acc s k Hd) as (d & -> & ->);
                      eexists; split; reflexivity
                  end
              end |]).
    destruct Hc.
Qed.

(** The integer read digit by digit is the integer the digits denote. *)
Lemma mathematical_value_spec (s : string) :
  s <> EmptyString -> all_digits s ->
  integer_of s = Some (mathematical_value s).
Proof.
  intros Hne Hd. unfold integer_of, mathematical_value.
  destruct (horner_zero s Hd) as (d & Hread & ->).
  destruct s as [|c s]; [congruence |].
  change (NilZero.uint_of_string (String c s))
    with (NilEmpty.uint_of_string (String c s)).
  now rewrite Hread.
Qed.

Lemma pow_2_53 : (2 ^ 53 = 9007199254740992)%N.
Proof. reflexivity. Qed.

Lemma of_integer_small (n : N) :
  (n < 2 ^ 53)%N -> of_integer n = finite n.
Proof.
  intros Hn. unfold of_integer.
  now rewrite (proj2 (N.ltb_lt _ _) Hn).
Qed.

(** From 2^53 on an integer reads as a double that is no smaller. *)
Lemma of_integer_large (c : N) :
  (2 ^ 53 <= c)%N ->
  match of_integer c with
  | finite y => (2 ^ 53 <= y)%N
  | Infinity => True
  end.
Proof.
  intros Hc. unfold of_integer.
  rewrite (proj2 (N.ltb_ge _ _) Hc).
  set (e := (N.log2 c - 52)%N).
  assert (Hlog : (53 <= N.log2 c)%N).
  { rewrite <- (N.log2_pow2 53) by lia. now apply N.log2_le_mono. }
  assert (He : (1 <= e)%N) by (unfold e; lia).
  assert (Hpos : (0 < c)%N).
  { rewrite pow_2_53 in Hc. lia. }
  destruct (N.log2_spec c Hpos) as [Hlo _].
  assert (Hsplit : (2 ^ N.log2 c = 2 ^ 52 * 2 ^ e)%N).
  { rewrite <- N.pow_add_r. f_equal. unfold e. lia. }
  assert (H2e : (2 ^ 1 <= 2 ^ e)%N) by (apply N.pow_le_mono_r; lia).
  assert (Hne : (2 ^ e <> 0)%N) by (apply N.pow_nonzero; lia).
  assert (Hq : (2 ^ 52 <= c / 2 ^ e)%N).
  { apply N.div_le_lower_bound; [exact Hne |].
    rewrite N.mul_comm, <- Hsplit. exact Hlo. }
  set (q := (c / 2 ^ e)%N) in *.
  set (q' := if ((2 ^ (e - 1) <? c mod 2 ^ e)
                 || ((c mod 2 ^ e =? 2 ^ (e - 1)) && N.odd q))%N
             then (q + 1)%N else q).
  assert (Hq' : (q <= q')%N) by (unfold q'; destruct (_ || _); lia).
  destruct (1024 <=? N.log2 (q' * 2 ^ e))%N; [exact I |].
  change (2 ^ 1)%N with 2%N in H2e.
  assert (H52 : (2 ^ 52 = 4503599627370496)%N) by reflexivity.
  rewrite pow_2_53. rewrite H52 in Hq. nia.
Qed.

Lemma nearby_reads (x unit c : N) :
  nearby x unit = Some c -> of_integer c = finite x.
Proof.
  unfold nearby.
  destruct (of_integer (x / unit * unit)) as [y|] eqn:Hbelow;
    destruct (of_integer (x / unit * unit + unit)) as [z|] eqn:Habove;
    try destruct (y =? x)%N eqn:Hy; try destruct (z =? x)%N eqn:Hz;
    try apply N.eqb_eq in Hy; try apply N.eqb_eq in Hz;
    repeat match goal with
           | |- context [if ?t then _ else _] => destruct t
           end;
    intros [= <-]; congruence.
Qed.

Lemma shortest_reads (x : N) (zeros : nat) :
  of_integer x = finite x -> of_integer (shortest x zeros) = finite x.
Proof.
  intros Hx. induction zeros as [|zeros IH]; [exact Hx |].
  cbn [shortest].
  destruct (nearby x (10 ^ N.of_nat (S zeros))) as [c|] eqn:Hc;
    [now apply nearby_reads in Hc | exact IH].
Qed.

(** An integer that a double holds exactly is printed in full. *)
Lemma toString_exact (n : N) :
  (n <= 2 ^ 53)%N -> toString (of_integer n) = numeral_of n.
Proof.
  intros Hn.
  destruct (N.eq_dec n (2 ^ 53)%N) as [-> | Hne]; [reflexivity |].
  assert (Hlt : (n < 2 ^ 53)%N) by lia.
  rewrite (of_integer_small n Hlt). unfold toString.
  set (c := shortest n _).
  assert (Hc : of_integer c = finite n)
    by (apply shortest_reads, of_integer_small, Hlt).
  assert (Heq : c = n).
  { destruct (N.lt_ge_cases c (2 ^ 53)%N) as [Hsmall | Hlarge].
    - rewrite (of_integer_small c Hsmall) in Hc. congruence.
    - pose proof (of_integer_large c Hlarge) as Hy.
      rewrite Hc in Hy. lia. }
  rewrite Heq.
  assert (H21 : (n <? 10 ^ 21)%N = true).
  { apply N.ltb_lt. rewrite pow_2_53 in Hlt.
    change (10 ^ 21)%N with 1000000000000000000000%N. lia. }
  rewrite H21. reflexivity.
Qed.

End Numbers.

(** C6, as the code has it.  For a prompt the one-shot service classifies
    as a quiz the schema is [QuizSchema], and the system instruction asks
    for [exactly K questions], where K is the text of the Number that
    [parseInt] reads from the first run of digits of the prompt that
    stands right before the letters of the word question, in either case
    and with white space or none in between.  K is the numeral of that
    integer when the integer is at most 2^53, and K is 20 when the prompt
    has no such run of digits.  [Make a quiz with 15 questions] gives 15
    and [Make a quiz] gives 20. *)
Theorem quiz_question_count :
  let instruction count :=
    "You are a test creator. Generate a comprehensive quiz with exactly "
    ++ count
    ++ " questions based on the user's prompt, adhering strictly to the provided JSON schema." in
  (forall (prompt : string) (turns : list Content),
     GeminiService.detectContentType prompt = "quiz" ->
     let cfg := config (GeminiService.request prompt turns) in
     responseSchema cfg = GeminiService.QuizSchema /\
     ((exists ds n,
         Spec.first_integer_before_question prompt ds /\
         (forall ds', Spec.first_integer_before_question prompt ds' ->
                      ds' = ds) /\
         Spec.integer_of ds = Some n /\
         systemInstruction cfg
         = instruction (JsNumber.toString (JsNumber.of_integer n)) /\
         ((n <= 2 ^ 53)%N ->
          systemInstruction cfg = instruction (Spec.numeral_of n)))
      \/
      ((forall before ds, ~ Spec.integer_before_question prompt before ds) /\
       systemInstruction cfg = instruction "20")))
  /\ systemInstruction
       (config (GeminiService.request "Make a quiz with 15 questions" []))
     = instruction "15"
  /\ systemInstruction (config (GeminiService.request "Make a quiz" []))
     = instruction "20".
Proof.
  intros instruction.
  split; [| split; vm_compute; reflexivity].
  intros prompt turns Hquiz cfg. subst cfg.
  unfold GeminiService.request. rewrite Hquiz.
  cbn [GeminiService.select String.eqb Ascii.eqb Bool.eqb config
       responseSchema systemInstruction].
  split; [reflexivity |].
  unfold QuestionPattern.questionCount.
  pose proof (exec_spec prompt) as Hspec.
  destruct (QuestionPattern.exec prompt) as [ds|];
    [left | right; split; [exact Hspec | reflexivity]].
  assert (Hdigits : ds <> EmptyString /\ Spec.all_digits ds).
  { destruct Hspec as (before & (sp & word & after & _ & Hne & Hd & _) & _).
    now split. }
  exists ds, (JsNumber.mathematical_value ds).
  split; [exact Hspec |].
  split; [intros ds' Hds'; exact (first_integer_unique _ _ _ Hds' Hspec) |].
  split; [now apply mathematical_value_spec |].
  split; [reflexivity |].
  intros Hn. unfold GeminiService.quiz_instruction, number_to_string,
    JsNumber.parseInt.
  now rewrite (toString_exact _ Hn).
Qed.

(** The prompt of the example is classified as a quiz, and its count is the
    integer 15 that stands before the word. *)
Lemma quiz_question_count_witness :
  GeminiService.detectContentType "Make a quiz with 15 questions" = "quiz" /\
  responseSchema
    (config (GeminiService.request "Make a quiz with 15 questions" []))
  = GeminiService.QuizSchema.
Proof.
  split; [reflexivity |].
  exact (proj1 (proj1 quiz_question_count
                  "Make a quiz with 15 questions" [] eq_refl)).
Defined.

(** C6 as the specification states it does not hold of the code: the count
    written into the instruction is not always the integer of the prompt.
    An integer above 2^53 is replaced by the nearest double: the prompt
    that asks for 9007199254740993 questions gives an instruction for
    9007199254740992 questions. *)
Theorem quiz_count_of_large_integer_is_rounded :
  let prompt := "Make a quiz with 9007199254740993 questions" in
  let cfg := config (GeminiService.request prompt []) in
  GeminiService.detectContentType prompt = "quiz" /\
  Spec.first_integer_before_question prompt "9007199254740993" /\
  Spec.integer_of "9007199254740993" = Some 9007199254740993%N /\
  systemInstruction cfg
  = "You are a test creator. Generate a comprehensive quiz with exactly 9007199254740992 questions based on the user's prompt, adhering strictly to the provided JSON schema." /\
  Spec.integer_of "9007199254740992" <> Spec.integer_of "9007199254740993".
Proof.
  intros prompt cfg.
  split; [reflexivity |].
  split.
  - pose proof (exec_spec prompt) as Hspec.
    assert (He : QuestionPattern.exec prompt = Some "9007199254740993")
      by (vm_compute; reflexivity).
    rewrite He in Hspec. exact Hspec.
  - split; [vm_compute; reflexivity |].
    split; [vm_compute; reflexivity |].
    vm_compute. discriminate.
Qed.

(** ** The retrying invoker *)

Section RetryFacts.
Import Spec.

Variable retryable : JsError -> bool.
Context {A : Type}.
Variables (op : M A) (inv : World -> Prop) (calls : World -> nat).
Variable outcome : nat -> Completion A.
Hypothesis Hop : scripted op inv calls outcome.
Variables maxRetries initialDelay : Z.
Hypothesis Hmax : (1 <= maxRetries)%Z.

Let loop := retry_loop retryable op maxRetries initialDelay.

(** One iteration of the loop, by the outcome of the invocation. *)
Lemma retry_loop_step (remaining attempt : nat) (w : World) :
  loop (S remaining) attempt w =
  match op w with
  | (Return a, w1) => (Return (Some a), w1)
  | (Throw e, w1) =>
      if retryable e then
        if (Z.of_nat attempt =? maxRetries - 1)%Z then
          (Throw e,
           set_console
             (console w1 ++ [error_no_more_retries (Z.to_nat maxRetries)])
             w1)
        else
          loop remaining (S attempt)
            (set_console
               (console w1 ++
                [warn_retrying e attempt
                   (initialDelay * 2 ^ Z.of_nat attempt)]) w1)
      else (Throw e, w1)
  end.
Proof.
  unfold loop. cbn [retry_loop]. unfold try_catch, bind, ret, throw.
  destruct (op w) as [[a|e] w1]; [reflexivity |].
  destruct (retryable e); [| reflexivity].
  destruct (Z.of_nat attempt =? maxRetries - 1)%Z; reflexivity.
Qed.

Lemma retry_loop_inv (remaining attempt : nat) (w : World) :
  inv w -> inv (snd (loop remaining attempt w)).
Proof.
  revert attempt w. induction remaining as [|remaining IH];
    intros attempt w Hw; [exact Hw |].
  rewrite retry_loop_step.
  pose proof (scripted_inv _ _ _ _ Hop w Hw) as Hw1.
  destruct (op w) as [[a|e] w1]; cbn [snd] in *; [exact Hw1 |].
  destruct (retryable e); [| exact Hw1].
  destruct (Z.of_nat attempt =? maxRetries - 1)%Z; cbn [snd].
  - now apply (console_inv _ _ _ _ Hop).
  - apply IH. now apply (console_inv _ _ _ _ Hop).
Qed.

(** The loop never forgets an invocation, and makes one when an iteration
    is left. *)
Lemma retry_loop_calls (remaining attempt : nat) (w : World) :
  inv w ->
  calls w + (if remaining is O then 0 else 1)
  <= calls (snd (loop remaining attempt w)).
Proof.
  revert attempt w. induction remaining as [|remaining IH];
    intros attempt w Hw; [cbn; lia |].
  rewrite retry_loop_step.
  pose proof (scripted_calls _ _ _ _ Hop w Hw) as Hc.
  pose proof (scripted_inv _ _ _ _ Hop w Hw) as Hw1.
  destruct (op w) as [[a|e] w1]; cbn [snd] in *; [lia |].
  destruct (retryable e); [| cbn [snd]; lia].
  destruct (Z.of_nat attempt =? maxRetries - 1)%Z; cbn [snd].
  - rewrite (console_calls _ _ _ _ Hop). lia.
  - set (w2 := set_console _ w1).
    assert (Hw2 : inv w2) by now apply (console_inv _ _ _ _ Hop).
    specialize (IH (S attempt) w2 Hw2).
    assert (calls w2 = calls w1) by apply (console_calls _ _ _ _ Hop).
    destruct remaining; lia.
Qed.

Lemma retry_loop_spec (remaining attempt : nat) (w : World) (k : nat) :
  attempt + remaining = Z.to_nat maxRetries ->
  inv w ->
  k < remaining ->
  (forall j, j < k ->
     exists e, outcome (calls w + j) = Throw e /\ retryable e = true) ->
  let r := fst (loop remaining attempt w) in
  let w' := snd (loop remaining attempt w) in
  match outcome (calls w + k) with
  | Return a => r = Return (Some a) /\ calls w' = calls w + k + 1
  | Throw e =>
      if retryable e then
        (attempt + S k = Z.to_nat maxRetries ->
         r = Throw e /\ calls w' = calls w + k + 1)
        /\ (attempt + S k < Z.to_nat maxRetries ->
            calls w + k + 2 <= calls w')
      else r = Throw e /\ calls w' = calls w + k + 1
  end.
Proof.
  revert attempt w k.
  induction remaining as [|remaining IH]; intros attempt w k Hn Hw Hk Hprev;
    [lia |].
  cbn zeta. rewrite retry_loop_step.
  pose proof (scripted_outcome _ _ _ _ Hop w Hw) as Hout.
  pose proof (scripted_calls _ _ _ _ Hop w Hw) as Hc.
  pose proof (scripted_inv _ _ _ _ Hop w Hw) as Hw1.
  destruct k as [|k].
  - rewrite Nat.add_0_r, <- Hout.
    destruct (op w) as [[a|e] w1]; cbn [fst snd] in *; [split; [easy | lia] |].
    destruct (retryable e); [| cbn [fst snd]; split; [easy | lia]].
    destruct (Z.of_nat attempt =? maxRetries - 1)%Z eqn:Hlast.
    + apply Z.eqb_eq in Hlast. cbn [fst snd].
      rewrite (console_calls _ _ _ _ Hop).
      split; [split; [easy | lia] | lia].
    + apply Z.eqb_neq in Hlast. split; [lia |]. intros _.
      set (w2 := set_console _ w1).
      assert (Hw2 : inv w2) by now apply (console_inv _ _ _ _ Hop).
      pose proof (retry_loop_calls remaining (S attempt) w2 Hw2) as Hge.
      assert (calls w2 = calls w1) by apply (console_calls _ _ _ _ Hop).
      destruct remaining; [lia |]. fold loop. lia.
  - destruct (Hprev 0 ltac:(lia)) as (e0 & He0 & Hretry).
    rewrite Nat.add_0_r in He0. rewrite He0 in Hout. clear He0.
    destruct (op w) as [c w1]; cbn [fst snd] in *. subst c.
    cbn beta iota. rewrite Hretry.
    assert (Hlast : (Z.of_nat attempt =? maxRetries - 1)%Z = false)
      by (apply Z.eqb_neq; lia).
    rewrite Hlast.
    set (w2 := set_console _ w1).
    assert (Hw2 : inv w2) by now apply (console_inv _ _ _ _ Hop).
    assert (Hc2 : calls w2 = S (calls w))
      by (unfold w2; now rewrite (console_calls _ _ _ _ Hop)).
    specialize (IH (S attempt) w2 k ltac:(lia) Hw2 ltac:(lia)).
    cbn zeta in IH. fold loop in IH.
    replace (calls w + S k) with (calls w2 + k) by lia.
    replace (attempt + S (S k)) with (S attempt + S k) by lia.
    assert (Hprev' : forall j, j < k ->
              exists e, outcome (calls w2 + j) = Throw e
                        /\ retryable e = true).
    { intros j Hj. destruct (Hprev (S j) ltac:(lia)) as (e & He & Hr).
      exists e. split; [| exact Hr]. rewrite <- He. f_equal. lia. }
    specialize (IH Hprev').
    destruct (outcome (calls w2 + k)) as [a|e].
    + destruct IH as [-> ->]. split; [reflexivity | lia].
    + destruct (retryable e).
      * destruct IH as [IH1 IH2]. split.
        -- intros Hfin. destruct (IH1 Hfin) as [-> ->].
           split; [reflexivity | lia].
        -- intros Hmore. specialize (IH2 Hmore). lia.
      * destruct IH as [-> ->]. split; [reflexivity | lia].
Qed.

End RetryFacts.

(** The loop meets the contract for the test it is given. *)
Lemma retry_meets_contract (retryable : JsError -> bool) :
  Spec.retry_contract retryable
    (fun A op maxRetries initialDelay =>
       retry retryable op maxRetries initialDelay).
Proof.
  intros A op inv calls outcome maxAttempts baseDelay w k Hop Hw Hmax Hk Hprev.
  unfold retry.
  pose proof (retry_loop_spec retryable op inv calls outcome Hop
                maxAttempts baseDelay Hmax (Z.to_nat maxAttempts) 0 w k
                eq_refl Hw Hk Hprev) as H.
  cbn zeta in *.
  destruct (outcome (calls w + k)) as [a|e]; [exact H |].
  destruct (retryable e); [| exact H].
  destruct H as [H1 H2]. split.
  - intros Hfin. destruct (H1 Hfin) as [-> ->]. split; [reflexivity | lia].
  - intros Hmore. apply H2. lia.
Qed.

Lemma generateContent_scripted (params : GenerateContentParams)
    (up : nat -> GenerateContentParams -> Completion Response) :
  Spec.scripted (generateContent params) (fun w => upstream w = up)
    (fun w => length (sent w)) (fun n => up n params).
Proof.
  split; unfold generateContent; cbn.
  - now intros w ->.
  - intros w _. rewrite length_app. cbn. lia.
  - auto.
  - reflexivity.
  - auto.
Qed.

(** C4, as the specification states it, fails for [withRetry] of
    [chatbot.js]: a first attempt failing with status 503 is raised at once,
    after one invocation, although four attempts are left and the second
    one would be answered.  With status 503 counted as transient, this
    copy does not meet the contract. *)
Lemma chatbot_withRetry_503_not_retried :
  let up := Examples.fails_once Examples.unavailable "{}" in
  let run :=
    Chatbot.withRetry (generateContent Examples.ping) 5 2000
      (Examples.fresh up) in
  (fst run = Throw Examples.unavailable /\
   length (sent (snd run)) = 1 /\
   up 1 Examples.ping = Examples.answer "{}")
  /\ ~ Spec.retry_contract status_429_or_503 (@Chatbot.withRetry).
Proof.
  intros up run. split; [repeat split |].
  intros H.
  specialize (H Response (generateContent Examples.ping)
                (fun w => upstream w = up) (fun w => length (sent w))
                (fun n => up n Examples.ping) 5%Z 2000%Z
                (Examples.fresh up) 0
                (generateContent_scripted _ _) eq_refl).
  cbn zeta in H.
  assert (Hk : 0 < Z.to_nat 5) by (cbn; lia).
  specialize (H ltac:(lia) Hk ltac:(intros j Hj; lia)).
  cbn in H. destruct H as [_ H].
  assert (Hmore : 1 < Pos.to_nat 5) by (cbn; lia).
  specialize (H Hmore). vm_compute in H. lia.
Qed.

(** C4. [withRetry] of both halves of [geminiService.js] meets the contract
    of the retrying invoker with status 429 and status 503 as the transient
    errors; [withRetry] of [chatbot.js] meets it with status 429 as the
    only transient error.  With at least one permitted attempt: a result is
    returned, an error that is not transient is raised at once, a transient
    error is retried, and the one of the last permitted attempt is
    raised. *)
Theorem withRetry_contract :
  Spec.retry_contract status_429_or_503 (@GeminiService.withRetry) /\
  Spec.retry_contract status_429_or_503 (@ChatService.withRetry) /\
  Spec.retry_contract status_429 (@Chatbot.withRetry).
Proof.
  split; [| split]; apply retry_meets_contract.
Qed.

(** A call that is throttled once and then answered returns the answer
    after two invocations, with each of the three copies. *)
Lemma withRetry_contract_witness :
  let up := Examples.fails_once Examples.too_many_requests "{}" in
  let w := Examples.fresh up in
  let op := generateContent Examples.ping in
  let answered (run : Completion (option Response) * World) :=
    fst run = Return (Some {| text := Some "{}" |}) /\
    length (sent (snd run)) = 2 in
  answered (GeminiService.withRetry op 5 2000 w) /\
  answered (ChatService.withRetry op 5 2000 w) /\
  answered (Chatbot.withRetry op 5 2000 w).
Proof.
  intros up w op answered.
  assert (Hk : 1 < Z.to_nat 5) by (cbn; lia).
  assert (Hmax : (1 <= 5)%Z) by lia.
  assert (Hprev : forall transient : JsError -> bool,
            transient Examples.too_many_requests = true ->
            forall j, j < 1 ->
            exists e, up (length (sent w) + j) Examples.ping = Throw e
                      /\ transient e = true).
  { intros transient Ht j Hj. assert (j = 0) as -> by lia.
    exists Examples.too_many_requests. split; [reflexivity | exact Ht]. }
  split; [| split].
  - exact (proj1 withRetry_contract Response op
             (fun w => upstream w = up) (fun w => length (sent w))
             (fun n => up n Examples.ping) 5%Z 2000%Z w 1
             (generateContent_scripted _ _) eq_refl Hmax Hk
             (Hprev _ eq_refl)).
  - exact (proj1 (proj2 withRetry_contract) Response op
             (fun w => upstream w = up) (fun w => length (sent w))
             (fun n => up n Examples.ping) 5%Z 2000%Z w 1
             (generateContent_scripted _ _) eq_refl Hmax Hk
             (Hprev _ eq_refl)).
  - exact (proj2 (proj2 withRetry_contract) Response op
             (fun w => upstream w = up) (fun w => length (sent w))
             (fun n => up n Examples.ping) 5%Z 2000%Z w 1
             (generateContent_scripted _ _) eq_refl Hmax Hk
             (Hprev _ eq_refl)).
Defined.

(** ** Attachments and calls of the remote model *)

Lemma sent_more_refl (w : World) : sent_more w w [].
Proof.
  unfold sent_more. rewrite app_nil_r.
  repeat split; auto. exists []. now rewrite app_nil_r.
Qed.

Lemma sent_more_trans (w1 w2 w3 : World) (r1 r2 : list GenerateContentParams) :
  sent_more w1 w2 r1 -> sent_more w2 w3 r2 -> sent_more w1 w3 (r1 ++ r2).
Proof.
  intros (Hc1 & Hs1 & Hu1 & Hm1 & Hr1 & l1 & Hl1)
         (Hc2 & Hs2 & Hu2 & Hm2 & Hr2 & l2 & Hl2).
  unfold sent_more.
  rewrite Hc2, Hs2, Hu2, Hm2, Hr2, Hr1, Hl2, Hl1, <- !app_assoc.
  repeat split; auto. now exists (l1 ++ l2)%list.
Qed.

Lemma sent_more_console (w : World) (entry : ConsoleEntry) :
  sent_more w (set_console (console w ++ [entry]) w) [].
Proof.
  unfold sent_more. cbn. rewrite app_nil_r.
  repeat split; auto. now exists [entry].
Qed.

Lemma sent_more_logged (w w' : World) (reqs : list GenerateContentParams)
    (entry : ConsoleEntry) :
  sent_more w w' reqs -> sent_more w (logged entry w') reqs.
Proof.
  intros H. rewrite <- (app_nil_r reqs).
  eapply sent_more_trans; [exact H | apply sent_more_console].
Qed.

Lemma sent_more_send (w : World) (req : GenerateContentParams) :
  sent_more w (set_sent (sent w ++ [req]) w) [req].
Proof.
  unfold sent_more. cbn. repeat split; auto.
  exists []. now rewrite app_nil_r.
Qed.

(** The block that reads and removes the staged file. *)
Lemma attach_some (file : UploadedFile) (w : World) :
  let path := join (uploadsDir w) (filename file) in
  attach (Some file) w =
  match staged w !! path with
  | Some bytes =>
      (Return [inlineData (Base64.encode bytes) (mimetype file)],
       set_staged (delete path (staged w)) w)
  | None => (Throw (Error ("File not found: " ++ path)), w)
  end.
Proof.
  intros path. subst path.
  cbv beta iota zeta delta [attach bind get_uploadsDir existsSync
    fileToGenerativePart readFileSync unlinkSync ret throw].
  destruct (staged w !! join (uploadsDir w) (filename file))
    as [bytes|] eqn:Hfile.
  - rewrite bool_decide_true by eauto. cbn [negb].
    rewrite Hfile. cbn beta iota. rewrite Hfile. reflexivity.
  - rewrite bool_decide_false by (intros [? ?]; discriminate). reflexivity.
Qed.

(** The block leaves everything but the staged file as it is. *)
Lemma attach_frame (file : option UploadedFile) (w w1 : World)
    (c : Completion (list Part)) :
  attach file w = (c, w1) ->
  chatHistories w1 = chatHistories w /\ uploadsDir w1 = uploadsDir w /\
  upstream w1 = upstream w /\ sent w1 = sent w /\ console w1 = console w.
Proof.
  destruct file as [file|].
  - rewrite attach_some.
    destruct (staged w !! join (uploadsDir w) (filename file));
      intros [= <- <-]; cbn; auto.
  - intros [= <- <-]. auto.
Qed.

(** With the test on the last attempt, the loop is left by a [return] or a
    [throw], never at its end. *)
Lemma retry_loop_none {A} (retryable : JsError -> bool) (op : M A)
    (maxRetries initialDelay : Z) (remaining attempt : nat) (w : World) :
  attempt + remaining = Z.to_nat maxRetries ->
  fst (retry_loop retryable op maxRetries initialDelay remaining attempt w)
  = Return None ->
  remaining = 0.
Proof.
  revert attempt w. induction remaining as [|remaining IH];
    intros attempt w Hn; [reflexivity |].
  rewrite retry_loop_step.
  destruct (op w) as [[a|e] w1]; cbn [fst]; [discriminate |].
  destruct (retryable e); [| discriminate].
  destruct (Z.of_nat attempt =? maxRetries - 1)%Z eqn:Hlast;
    [discriminate |].
  intros H. apply IH in H; [| lia].
  apply Z.eqb_neq in Hlast. lia.
Qed.

Section RetryUpstream.
Variable op : M Response.
Variable req : GenerateContentParams.
Variable histories : gmap string (list Content).
Hypothesis Hop :
  forall w, chatHistories w = histories -> op w = generateContent req w.
Variables maxRetries initialDelay : Z.

Let loop :=
  retry_loop status_429_or_503 op maxRetries initialDelay.

(** A run of the loop sends the one request [n] times; all but the last
    of these calls failed, and the last one decides the completion. *)
Lemma retry_upstream (remaining attempt : nat) (w : World) :
  chatHistories w = histories ->
  exists n,
    sent_more w (snd (loop remaining attempt w)) (repeat req n) /\
    n <= remaining /\
    (forall i, S i < n ->
       exists e, upstream w (length (sent w) + i) req = Throw e) /\
    match fst (loop remaining attempt w) with
    | Return (Some resp) =>
        exists m, n = S m /\
          upstream w (length (sent w) + m) req = Return resp
    | Return None => True
    | Throw e =>
        exists m, n = S m /\
          upstream w (length (sent w) + m) req = Throw e
    end.
Proof.
  revert attempt w. induction remaining as [|remaining IH];
    intros attempt w Hw.
  - exists 0. cbn. split; [apply sent_more_refl |].
    split; [lia |]. split; [intros i Hi; lia | exact I].
  - unfold loop. rewrite retry_loop_step. rewrite (Hop w Hw).
    unfold generateContent.
    set (w1 := set_sent (sent w ++ [req]) w).
    assert (Hw1 : sent_more w w1 [req]) by apply sent_more_send.
    destruct (upstream w (length (sent w)) req) as [resp|e] eqn:Hcall.
    + exists 1. cbn [fst snd repeat].
      split; [exact Hw1 |]. split; [lia |].
      split; [intros i Hi; lia |].
      exists 0. now rewrite Nat.add_0_r.
    + assert (Hone :
          forall w', sent_more w1 w' [] ->
          exists n,
            sent_more w w' (repeat req n) /\ n <= S remaining /\
            (forall i, S i < n ->
               exists e, upstream w (length (sent w) + i) req = Throw e) /\
            exists m, n = S m /\
              upstream w (length (sent w) + m) req = Throw e).
      { intros w' Hw'. exists 1. split.
        - pose proof (sent_more_trans _ _ _ _ _ Hw1 Hw') as H.
          exact H.
        - split; [lia |]. split; [intros i Hi; lia |].
          exists 0. now rewrite Nat.add_0_r. }
      destruct (status_429_or_503 e).
      * destruct (Z.of_nat attempt =? maxRetries - 1)%Z.
        -- cbn [fst snd]. apply Hone, sent_more_console.
        -- set (w2 := set_console _ w1).
           assert (H12 : sent_more w1 w2 []) by apply sent_more_console.
           assert (Hw2 : chatHistories w2 = histories) by exact Hw.
           destruct (IH (S attempt) w2 Hw2) as (n & Hmore & Hn & Hfail & Hlast).
           fold loop.
           assert (Hsent2 : length (sent w2) = S (length (sent w))).
           { cbn. rewrite length_app. cbn. lia. }
           assert (Hup2 : upstream w2 = upstream w) by reflexivity.
           rewrite Hup2, Hsent2 in *.
           exists (S n). split.
           { pose proof (sent_more_trans _ _ _ _ _ Hw1
                           (sent_more_trans _ _ _ _ _ H12 Hmore)) as H.
             exact H. }
           split; [lia |]. split.
           { intros [|i] Hi.
             - exists e. now rewrite Nat.add_0_r.
             - destruct (Hfail i ltac:(lia)) as (e' & He').
               exists e'. rewrite <- He'. f_equal. lia. }
           destruct (fst (loop remaining (S attempt) w2)) as [[resp|]|e'].
           ++ destruct Hlast as (m & -> & Hm). exists (S m).
              split; [reflexivity |]. rewrite <- Hm. f_equal. lia.
           ++ exact I.
           ++ destruct Hlast as (m & -> & Hm). exists (S m).
              split; [reflexivity |]. rewrite <- Hm. f_equal. lia.
      * cbn [fst snd]. apply Hone, sent_more_refl.
Qed.

End RetryUpstream.

(** ** One-shot generation *)

Section OneShot.
Import GeminiService.

(** The function, step by step. *)
Lemma generateStructuredContent_unfold (prompt : string)
    (file : option UploadedFile) (w : World) :
  generateStructuredContent prompt file w =
  match attach file w with
  | (Throw e, w1) => (Throw failed_generation, logged (caught e) w1)
  | (Return attached, w1) =>
      match withRetry
              (generateContent (request prompt [user_turn prompt attached]))
              5 2000 w1 with
      | (Throw e, w2) => (Throw failed_generation, logged (caught e) w2)
      | (Return None, w2) =>
          (Throw failed_generation,
           logged
             (caught
                (TypeError
                   "Cannot read properties of undefined (reading 'text')"))
             w2)
      | (Return (Some resp), w2) =>
          match Json.parse_text (text resp) with
          | Return v => (Return v, w2)
          | Throw e => (Throw failed_generation, logged (caught e) w2)
          end
      end
  end.
Proof.
  unfold generateStructuredContent, try_catch, bind.
  destruct (attach file w) as [[attached|e] w1]; [| reflexivity].
  destruct (withRetry _ 5 2000 w1) as [[[resp|]|e] w2]; reflexivity.
Qed.

(** What a call does to the world and which calls decide its result. *)
Lemma generateStructuredContent_run (prompt : string)
    (file : option UploadedFile) (w : World) :
  let run := generateStructuredContent prompt file w in
  (exists e w1,
     attach file w = (Throw e, w1) /\
     run = (Throw failed_generation, logged (caught e) w1))
  \/
  (exists attached w1 m,
     attach file w = (Return attached, w1) /\
     let req := request prompt [user_turn prompt attached] in
     chatHistories (snd run) = chatHistories w /\
     staged (snd run) = staged w1 /\
     upstream (snd run) = upstream w /\
     sent (snd run) = (sent w ++ repeat req (S m))%list /\
     m < 5 /\
     (forall i, i < m ->
        exists e, upstream w (length (sent w) + i) req = Throw e) /\
     match upstream w (length (sent w) + m) req with
     | Throw e => fst run = Throw failed_generation
     | Return resp =>
         match Json.parse_text (text resp) with
         | Return v => fst run = Return v
         | Throw e =>
             fst run = Throw failed_generation /\
             exists lines, console (snd run)
                           = (console w ++ lines ++ [caught e])%list
         end
     end).
Proof.
  intros run. subst run. rewrite generateStructuredContent_unfold.
  destruct (attach file w) as [[attached|e] w1] eqn:Hattach.
  2: { left. eauto. }
  right. exists attached, w1.
  set (req := request prompt [user_turn prompt attached]).
  destruct (retry_upstream (generateContent req) req (chatHistories w1)
              ltac:(reflexivity) 5 2000 (Z.to_nat 5) 0 w1 eq_refl)
    as (n & Hmore & Hn & Hfail & Hlast).
  pose proof (retry_loop_none status_429_or_503 (generateContent req)
                5 2000 (Z.to_nat 5) 0 w1 eq_refl) as Hnone.
  destruct (attach_frame _ _ _ _ Hattach)
    as (Hc1 & _ & Hup1 & Hsent1 & Hcons1).
  unfold withRetry, retry.
  destruct Hmore as (Hc2 & Hs2 & _ & Hup2 & Hsent2 & l2 & Hl2).
  rewrite Hup1, Hsent1 in *. rewrite Hc1 in Hc2. rewrite Hcons1 in Hl2.
  destruct (retry_loop status_429_or_503 (generateContent req) 5 2000
              (Z.to_nat 5) 0 w1) as [[[resp|]|e] w2]; cbn [fst snd] in *.
  - destruct Hlast as (m & -> & Hm). exists m.
    split; [reflexivity |]. cbn zeta. rewrite Hm.
    destruct (Json.parse_text (text resp)) as [v|pe];
      cbn [fst snd logged chatHistories staged upstream sent console
           set_console].
    + split; [exact Hc2 |]. split; [exact Hs2 |]. split; [exact Hup2 |].
      split; [exact Hsent2 |]. split; [lia |].
      split; [intros i Hi; apply Hfail; lia | reflexivity].
    + split; [exact Hc2 |]. split; [exact Hs2 |]. split; [exact Hup2 |].
      split; [exact Hsent2 |]. split; [lia |].
      split; [intros i Hi; apply Hfail; lia |].
      split; [reflexivity |].
      exists l2. now rewrite Hl2, <- app_assoc.
  - specialize (Hnone eq_refl). discriminate.
  - destruct Hlast as (m & -> & Hm). exists m.
    split; [reflexivity |]. cbn zeta. rewrite Hm.
    cbn [fst snd logged chatHistories staged upstream sent console
         set_console].
    split; [exact Hc2 |]. split; [exact Hs2 |]. split; [exact Hup2 |].
    split; [exact Hsent2 |]. split; [lia |].
    split; [intros i Hi; apply Hfail; lia | reflexivity].
Qed.

End OneShot.

(** ** Chat sessions *)

Section Session.
Import ChatService.

Lemma get_history_own (sessionId : string) (w : World)
    (history : list Content) :
  chatHistories w !! sessionId = Some history ->
  get_history sessionId w = own history.
Proof. unfold get_history. now intros ->. Qed.

Lemma ask_sends (sessionId prompt : string) (history : list Content)
    (histories : gmap string (list Content)) :
  histories !! sessionId = Some history ->
  forall w, chatHistories w = histories ->
    ask sessionId prompt w = generateContent (request prompt history) w.
Proof.
  intros Hh w Hw. unfold ask, bind, history_now.
  rewrite (get_history_own sessionId w history); [reflexivity |].
  now rewrite Hw.
Qed.

(** A call on a session that does not exist and whose name
    [Object.prototype] does not define. *)
Lemma sendMessage_undefined (sessionId prompt : string)
    (file : option UploadedFile) (w : World) :
  get_history sessionId w = undefined ->
  sendMessage sessionId prompt file w = (Throw invalid_session, w).
Proof. intros H. unfold sendMessage. now rewrite H. Qed.

(** A call on a name that [Object.prototype] defines. *)
Lemma sendMessage_inherited (sessionId prompt : string)
    (file : option UploadedFile) (w : World) :
  get_history sessionId w = inherited ->
  sendMessage sessionId prompt file w =
  match attach file w with
  | (Throw e, w1) => (Throw failed_response, logged (caught sessionId e) w1)
  | (Return _, w1) =>
      (Throw failed_response,
       logged
         (caught sessionId (TypeError "history.push is not a function"))
         w1)
  end.
Proof.
  intros H. unfold sendMessage. rewrite H. cbn [truthy negb].
  unfold try_catch, bind.
  destruct (attach file w) as [[attached|e] w1] eqn:Hattach;
    [| reflexivity].
  destruct (attach_frame _ _ _ _ Hattach) as (Hc & _).
  unfold history_push. unfold get_history in *. rewrite Hc.
  destruct (chatHistories w !! sessionId); [discriminate |].
  destruct (bool_decide _); [reflexivity | discriminate].
Qed.

(** A call on an existing session, step by step. *)
Lemma sendMessage_own (sessionId prompt : string)
    (file : option UploadedFile) (w : World) (history : list Content) :
  chatHistories w !! sessionId = Some history ->
  sendMessage sessionId prompt file w =
  match attach file w with
  | (Throw e, w1) => (Throw failed_response, logged (caught sessionId e) w1)
  | (Return attached, w1) =>
      let asked := (history ++ [user_turn prompt attached])%list in
      let w2 :=
        set_chatHistories (<[sessionId := asked]> (chatHistories w1)) w1 in
      match withRetry (ask sessionId prompt) 5 2000 w2 with
      | (Throw e, w3) =>
          (Throw failed_response, logged (caught sessionId e) w3)
      | (Return None, w3) =>
          (Throw failed_response,
           logged
             (caught sessionId
                (TypeError
                   "Cannot read properties of undefined (reading 'text')"))
             w3)
      | (Return (Some resp), w3) =>
          match Json.parse_text (text resp) with
          | Throw e =>
              (Throw failed_response, logged (caught sessionId e) w3)
          | Return v =>
              match history_push sessionId
                      (model_turn (default EmptyString (text resp))) w3 with
              | (Return _, w4) => (Return v, w4)
              | (Throw e, w4) =>
                  (Throw failed_response, logged (caught sessionId e) w4)
              end
          end
      end
  end.
Proof.
  intros Hh. unfold sendMessage.
  rewrite (get_history_own _ _ _ Hh). cbn [truthy negb].
  unfold try_catch, bind.
  destruct (attach file w) as [[attached|e] w1] eqn:Hattach;
    [| reflexivity].
  destruct (attach_frame _ _ _ _ Hattach) as (Hc & _).
  unfold history_push at 1.
  rewrite (get_history_own sessionId w1 history) by now rewrite Hc.
  cbn zeta.
  destruct (withRetry (ask sessionId prompt) 5 2000 _)
    as [[[resp|]|e] w3]; try reflexivity.
  unfold result_text, ret, lift.
  destruct (Json.parse_text (text resp)) as [v|e]; [| reflexivity].
  destruct (history_push sessionId _ w3) as [[[]|e] w4]; reflexivity.
Qed.

(** What a call on an existing session does to the world, and which
    calls of the remote model decide its result. *)
Lemma sendMessage_run (sessionId prompt : string)
    (file : option UploadedFile) (w : World) (history : list Content) :
  chatHistories w !! sessionId = Some history ->
  let run := sendMessage sessionId prompt file w in
  (exists e w1,
     attach file w = (Throw e, w1) /\
     run = (Throw failed_response, logged (caught sessionId e) w1))
  \/
  (exists attached w1 m,
     attach file w = (Return attached, w1) /\
     let asked := (history ++ [user_turn prompt attached])%list in
     let req := request prompt asked in
     staged (snd run) = staged w1 /\
     upstream (snd run) = upstream w /\
     sent (snd run) = (sent w ++ repeat req (S m))%list /\
     m < 5 /\
     (forall i, i < m ->
        exists e, upstream w (length (sent w) + i) req = Throw e) /\
     match upstream w (length (sent w) + m) req with
     | Throw e =>
         fst run = Throw failed_response /\
         chatHistories (snd run)
         = <[sessionId := asked]> (chatHistories w)
     | Return resp =>
         match Json.parse_text (text resp) with
         | Return v =>
             exists body,
               text resp = Some body /\ fst run = Return v /\
               chatHistories (snd run)
               = <[sessionId := (asked ++ [model_turn body])%list]>
                   (chatHistories w)
         | Throw e =>
             fst run = Throw failed_response /\
             chatHistories (snd run)
             = <[sessionId := asked]> (chatHistories w) /\
             exists lines,
               console (snd run)
               = (console w ++ lines ++ [caught sessionId e])%list
         end
     end).
Proof.
  intros Hh run. subst run. rewrite (sendMessage_own _ _ _ _ _ Hh).
  destruct (attach file w) as [[attached|e] w1] eqn:Hattach.
  2: { left. eauto. }
  right. exists attached, w1.
  destruct (attach_frame _ _ _ _ Hattach) as (Hc1 & _ & Hup1 & Hsent1 & Hcons1).
  cbn zeta.
  set (asked := (history ++ [user_turn prompt attached])%list).
  set (req := request prompt asked).
  set (w2 := set_chatHistories (<[sessionId := asked]> (chatHistories w1)) w1).
  assert (Hask : forall w', chatHistories w' = chatHistories w2 ->
            ask sessionId prompt w' = generateContent req w').
  { apply ask_sends. cbn. apply lookup_insert_eq. }
  destruct (retry_upstream (ask sessionId prompt) req (chatHistories w2)
              Hask 5 2000 (Z.to_nat 5) 0 w2 eq_refl)
    as (n & Hmore & Hn & Hfail & Hlast).
  pose proof (retry_loop_none status_429_or_503 (ask sessionId prompt)
                5 2000 (Z.to_nat 5) 0 w2 eq_refl) as Hnone.
  unfold withRetry, retry.
  change (upstream w2) with (upstream w1) in *.
  change (sent w2) with (sent w1) in *.
  rewrite Hup1, Hsent1 in *.
  destruct Hmore as (Hc3 & Hs3 & _ & Hup3 & Hsent3 & l3 & Hl3).
  change (staged w2) with (staged w1) in Hs3.
  change (upstream w2) with (upstream w1) in Hup3.
  change (sent w2) with (sent w1) in Hsent3.
  change (console w2) with (console w1) in Hl3.
  change (chatHistories w2)
    with (<[sessionId := asked]> (chatHistories w1)) in Hc3.
  rewrite Hc1 in Hc3. rewrite Hup1 in Hup3. rewrite Hsent1 in Hsent3.
  rewrite Hcons1 in Hl3.
  destruct (retry_loop status_429_or_503 (ask sessionId prompt) 5 2000
              (Z.to_nat 5) 0 w2) as [[[resp|]|e] w3]; cbn [fst snd] in *.
  - destruct Hlast as (m & -> & Hm). exists m.
    split; [reflexivity |]. rewrite Hm.
    destruct (Json.parse_text (text resp)) as [v|pe] eqn:Hparse.
    + destruct (text resp) as [body|] eqn:Hbody; [| discriminate].
      unfold history_push, get_history. rewrite Hc3, lookup_insert_eq.
      cbn [fst snd chatHistories staged upstream sent set_chatHistories
           default from_option].
      rewrite insert_insert_eq.
      split; [exact Hs3 |]. split; [exact Hup3 |].
      split; [exact Hsent3 |]. split; [lia |].
      split; [intros i Hi; apply Hfail; lia |].
      exists body. auto.
    + cbn [fst snd logged chatHistories staged upstream sent console
           set_console].
      split; [exact Hs3 |]. split; [exact Hup3 |].
      split; [exact Hsent3 |]. split; [lia |].
      split; [intros i Hi; apply Hfail; lia |].
      split; [reflexivity |]. split; [exact Hc3 |].
      exists l3. now rewrite Hl3, <- app_assoc.
  - specialize (Hnone eq_refl). discriminate.
  - destruct Hlast as (m & -> & Hm). exists m.
    split; [reflexivity |]. rewrite Hm.
    cbn [fst snd logged chatHistories staged upstream sent console
         set_console].
    split; [exact Hs3 |]. split; [exact Hup3 |].
    split; [exact Hsent3 |]. split; [lia |].
    split; [intros i Hi; apply Hfail; lia |].
    split; [reflexivity | exact Hc3].
Qed.

End Session.

(** ** Results and failures of the two operations *)

Lemma lookup_repeat {A} (x : A) (n i : nat) :
  i < n -> repeat x n !! i = Some x.
Proof.
  revert i. induction n as [|n IH]; intros i Hi; [lia |].
  destruct i as [|i]; [reflexivity |]. cbn. apply IH. lia.
Qed.

Lemma lookup_repeat_inv {A} (x y : A) (n i : nat) :
  repeat x n !! i = Some y -> y = x /\ i < n.
Proof.
  revert i. induction n as [|n IH]; intros i; [destruct i; discriminate |].
  destruct i as [|i]; cbn.
  - intros [= <-]. split; [reflexivity | lia].
  - intros H. destruct (IH _ H). split; [assumption | lia].
Qed.

Lemma requests_of_app (w w' : World) (reqs : list GenerateContentParams) :
  sent w' = (sent w ++ reqs)%list -> requests_of w w' = reqs.
Proof. intros H. unfold requests_of. rewrite H. apply drop_app_length. Qed.

Lemma oneshot_schema (prompt : string) (turns : list Content) :
  responseSchema (config (GeminiService.request prompt turns))
  = fst (GeminiService.select (GeminiService.detectContentType prompt)
           prompt).
Proof.
  unfold GeminiService.request.
  now destruct (GeminiService.select _ prompt).
Qed.

Lemma session_schema (prompt : string) (turns : list Content) :
  responseSchema (config (ChatService.request prompt turns))
  = fst (ChatService.select (ChatService.detectContentType prompt)).
Proof.
  unfold ChatService.request.
  now destruct (ChatService.select _).
Qed.

(** A message is answered on an existing session only. *)
Lemma sendMessage_returns_own (sessionId prompt : string)
    (file : option UploadedFile) (w : World) (v : Json.value) :
  fst (ChatService.sendMessage sessionId prompt file w) = Return v ->
  exists history, chatHistories w !! sessionId = Some history.
Proof.
  destruct (ChatService.get_history sessionId w) as [history| |] eqn:Hget.
  - intros _. unfold ChatService.get_history in Hget.
    destruct (chatHistories w !! sessionId) as [h|]; [eauto |].
    destruct (bool_decide _); discriminate.
  - rewrite (sendMessage_inherited _ _ _ _ Hget).
    destruct (attach file w) as [[?|?] ?]; discriminate.
  - rewrite (sendMessage_undefined _ _ _ _ Hget). discriminate.
Qed.

(** C1, as the specification states it, fails: the one-shot operation
    returns the empty object the model answered, which has none of the
    required fields of the schema selected for the prompt. *)
Lemma generateStructuredContent_returns_nonconforming :
  let w := Examples.fresh (Examples.always "{}") in
  fst (GeminiService.generateStructuredContent "hello" None w)
  = Return (Json.Object []) /\
  responseSchema (config Examples.ping) = GeminiService.DefaultSchema /\
  Spec.conforms GeminiService.DefaultSchema (Json.Object []) = false.
Proof. vm_compute. auto. Qed.

(** C1. A result either operation returns is the value [JSON.parse] gives
    for the text of the response of the remote model to the last request
    the operation sent, and that request names the schema selected for the
    label of the prompt as its [responseSchema]. *)
Theorem returned_result_is_parsed_response :
  (forall (prompt : string) (file : option UploadedFile) (w : World)
          (v : Json.value),
     let run := GeminiService.generateStructuredContent prompt file w in
     fst run = Return v ->
     exists k req resp,
       sent (snd run) !! k = Some req /\
       length (sent w) <= k /\ S k = length (sent (snd run)) /\
       responseSchema (config req)
       = fst (GeminiService.select
                (GeminiService.detectContentType prompt) prompt) /\
       upstream w k req = Return resp /\
       Json.parse_text (text resp) = Return v)
  /\
  (forall (sessionId prompt : string) (file : option UploadedFile)
          (w : World) (v : Json.value),
     let run := ChatService.sendMessage sessionId prompt file w in
     fst run = Return v ->
     exists k req resp,
       sent (snd run) !! k = Some req /\
       length (sent w) <= k /\ S k = length (sent (snd run)) /\
       responseSchema (config req)
       = fst (ChatService.select (ChatService.detectContentType prompt)) /\
       upstream w k req = Return resp /\
       Json.parse_text (text resp) = Return v).
Proof.
  split.
  - intros prompt file w v run Hret. subst run.
    destruct (generateStructuredContent_run prompt file w)
      as [(e & w1 & _ & Hrun) | (attached & w1 & m & _ & Hrun)].
    { rewrite Hrun in Hret. discriminate. }
    cbn zeta in Hrun.
    destruct Hrun as (_ & _ & _ & Hsent & Hm & _ & Hlast).
    set (req := GeminiService.request prompt [user_turn prompt attached]) in *.
    destruct (upstream w (length (sent w) + m) req) as [resp|e] eqn:Hup;
      [| rewrite Hlast in Hret; discriminate].
    exists (length (sent w) + m), req, resp.
    split. { rewrite Hsent, lookup_app_r by lia.
             apply lookup_repeat. lia. }
    split; [lia |].
    split; [rewrite Hsent, length_app, repeat_length; lia |].
    split; [apply oneshot_schema |]. split; [exact Hup |].
    destruct (Json.parse_text (text resp)) as [v'|pe].
    + rewrite Hlast in Hret. now injection Hret as ->.
    + destruct Hlast as [Hlast _]. rewrite Hlast in Hret. discriminate.
  - intros sessionId prompt file w v run Hret. subst run.
    destruct (sendMessage_returns_own _ _ _ _ _ Hret) as [history Hh].
    destruct (sendMessage_run sessionId prompt file w history Hh)
      as [(e & w1 & _ & Hrun) | (attached & w1 & m & _ & Hrun)].
    { rewrite Hrun in Hret. discriminate. }
    cbn zeta in Hrun.
    destruct Hrun as (_ & _ & Hsent & Hm & _ & Hlast).
    set (req := ChatService.request prompt
                  (history ++ [user_turn prompt attached])) in *.
    destruct (upstream w (length (sent w) + m) req) as [resp|e] eqn:Hup;
      [| destruct Hlast as [Hlast _]; rewrite Hlast in Hret; discriminate].
    exists (length (sent w) + m), req, resp.
    split. { rewrite Hsent, lookup_app_r by lia.
             apply lookup_repeat. lia. }
    split; [lia |].
    split; [rewrite Hsent, length_app, repeat_length; lia |].
    split; [apply session_schema |]. split; [exact Hup |].
    destruct (Json.parse_text (text resp)) as [v'|pe].
    + destruct Hlast as (body & _ & Hlast & _).
      rewrite Hlast in Hret. now injection Hret as ->.
    + destruct Hlast as [Hlast _]. rewrite Hlast in Hret. discriminate.
Qed.

(** The empty object of the examples is the parsed text of the response,
    for a one-shot call and for a message on a new session. *)
Lemma returned_result_is_parsed_response_witness :
  let w := Examples.fresh (Examples.always "{}") in
  let ws := step w (start_session Examples.uuid) in
  (exists k req resp,
     sent (snd (GeminiService.generateStructuredContent "hello" None w)) !! k
     = Some req /\
     length (sent w) <= k /\
     S k = length
             (sent (snd (GeminiService.generateStructuredContent
                           "hello" None w))) /\
     responseSchema (config req)
     = fst (GeminiService.select
              (GeminiService.detectContentType "hello") "hello") /\
     upstream w k req = Return resp /\
     Json.parse_text (text resp) = Return (Json.Object []))
  /\
  (exists k req resp,
     sent (snd (ChatService.sendMessage Examples.uuid "hello" None ws)) !! k
     = Some req /\
     length (sent ws) <= k /\
     S k = length
             (sent (snd (ChatService.sendMessage Examples.uuid
                           "hello" None ws))) /\
     responseSchema (config req)
     = fst (ChatService.select (ChatService.detectContentType "hello")) /\
     upstream ws k req = Return resp /\
     Json.parse_text (text resp) = Return (Json.Object [])).
Proof.
  intros w ws. split.
  - apply (proj1 returned_result_is_parsed_response "hello" None w).
    vm_compute. reflexivity.
  - apply (proj2 returned_result_is_parsed_response
             Examples.uuid "hello" None ws).
    vm_compute. reflexivity.
Defined.

(** C2, as the specification states it, fails: when the text of the
    response is not JSON, the one-shot operation does not raise the failure
    of [JSON.parse] but an error of its own. *)
Lemma generateStructuredContent_hides_parse_failure :
  let w := Examples.fresh (Examples.always "oops") in
  exists e,
    Json.parse "oops" = Throw e /\
    fst (GeminiService.generateStructuredContent "hello" None w)
    = Throw GeminiService.failed_generation /\
    GeminiService.failed_generation <> e.
Proof.
  eexists. split; [vm_compute; reflexivity |].
  split; [vm_compute; reflexivity | discriminate].
Qed.

(** C2. When the text of a response the remote model gave to a request of
    the operation is not JSON, no request follows that one, the operation
    raises its own fixed error ([failed_generation] for the one-shot
    operation, [failed_response] for a message), and the failure of
    [JSON.parse] is the last line written to the console. *)
Theorem parse_failure_is_final_and_replaced :
  (forall (prompt : string) (file : option UploadedFile) (w : World)
          (k : nat) (req : GenerateContentParams) (resp : Response)
          (e : JsError),
     let run := GeminiService.generateStructuredContent prompt file w in
     requests_of w (snd run) !! k = Some req ->
     upstream w (length (sent w) + k) req = Return resp ->
     Json.parse_text (text resp) = Throw e ->
     length (requests_of w (snd run)) = S k /\
     fst run = Throw GeminiService.failed_generation /\
     exists lines,
       console (snd run)
       = (console w ++ lines ++ [GeminiService.caught e])%list)
  /\
  (forall (sessionId prompt : string) (file : option UploadedFile)
          (w : World) (history : list Content)
          (k : nat) (req : GenerateContentParams) (resp : Response)
          (e : JsError),
     let run := ChatService.sendMessage sessionId prompt file w in
     chatHistories w !! sessionId = Some history ->
     requests_of w (snd run) !! k = Some req ->
     upstream w (length (sent w) + k) req = Return resp ->
     Json.parse_text (text resp) = Throw e ->
     length (requests_of w (snd run)) = S k /\
     fst run = Throw ChatService.failed_response /\
     exists lines,
       console (snd run)
       = (console w ++ lines ++ [ChatService.caught sessionId e])%list).
Proof.
  split.
  - intros prompt file w k req resp e run Hk Hup Hparse. subst run.
    destruct (generateStructuredContent_run prompt file w)
      as [(e1 & w1 & Hattach & Hrun) | (attached & w1 & m & _ & Hrun)].
    { rewrite Hrun in Hk.
      destruct (attach_frame _ _ _ _ Hattach) as (_ & _ & _ & Hsent & _).
      unfold requests_of in Hk. cbn in Hk.
      rewrite Hsent, drop_all in Hk. discriminate. }
    cbn zeta in Hrun.
    destruct Hrun as (_ & _ & _ & Hsent & Hm & Hfail & Hlast).
    rewrite (requests_of_app _ _ _ Hsent) in *.
    apply lookup_repeat_inv in Hk as [-> Hk].
    assert (k = m) as ->.
    { destruct (Nat.eq_dec k m) as [|Hne]; [assumption |].
      destruct (Hfail k ltac:(lia)) as [e' He'].
      rewrite He' in Hup. discriminate. }
    rewrite Hup, Hparse in Hlast. rewrite repeat_length.
    destruct Hlast as [Hres Hcons]. auto.
  - intros sessionId prompt file w history k req resp e run Hh Hk Hup Hparse.
    subst run.
    destruct (sendMessage_run sessionId prompt file w history Hh)
      as [(e1 & w1 & Hattach & Hrun) | (attached & w1 & m & _ & Hrun)].
    { rewrite Hrun in Hk.
      destruct (attach_frame _ _ _ _ Hattach) as (_ & _ & _ & Hsent & _).
      unfold requests_of in Hk. cbn in Hk.
      rewrite Hsent, drop_all in Hk. discriminate. }
    cbn zeta in Hrun.
    destruct Hrun as (_ & _ & Hsent & Hm & Hfail & Hlast).
    rewrite (requests_of_app _ _ _ Hsent) in *.
    apply lookup_repeat_inv in Hk as [-> Hk].
    assert (k = m) as ->.
    { destruct (Nat.eq_dec k m) as [|Hne]; [assumption |].
      destruct (Hfail k ltac:(lia)) as [e' He'].
      rewrite He' in Hup. discriminate. }
    rewrite Hup, Hparse in Hlast. rewrite repeat_length.
    destruct Hlast as (Hres & _ & Hcons). auto.
Qed.

(** The answer [oops] of the examples ends the call after one request, for
    a one-shot call and for a message on a new session. *)
Lemma parse_failure_is_final_and_replaced_witness :
  let w := Examples.fresh (Examples.always "oops") in
  let ws := step w (start_session Examples.uuid) in
  let run := GeminiService.generateStructuredContent "hello" None w in
  let run_s := ChatService.sendMessage Examples.uuid "hello" None ws in
  let e := SyntaxError "Unexpected token in JSON" in
  (length (requests_of w (snd run)) = 1 /\
   fst run = Throw GeminiService.failed_generation /\
   exists lines,
     console (snd run)
     = (console w ++ lines ++ [GeminiService.caught e])%list)
  /\
  (length (requests_of ws (snd run_s)) = 1 /\
   fst run_s = Throw ChatService.failed_response /\
   exists lines,
     console (snd run_s)
     = (console ws ++ lines ++ [ChatService.caught Examples.uuid e])%list).
Proof.
  intros w ws run run_s e. split.
  - apply (proj1 parse_failure_is_final_and_replaced "hello" None w 0
             Examples.ping {| text := Some "oops" |} e).
    + vm_compute. reflexivity.
    + reflexivity.
    + vm_compute. reflexivity.
  - apply (proj2 parse_failure_is_final_and_replaced Examples.uuid "hello"
             None ws [] 0
             (ChatService.request "hello" [user_turn "hello" []])
             {| text := Some "oops" |} e).
    + vm_compute. reflexivity.
    + vm_compute. reflexivity.
    + reflexivity.
    + vm_compute. reflexivity.
Defined.

(** ** The staged file of an attachment *)

(** C9. When the staged file of the attachment exists as the one-shot
    operation reads it, it no longer exists when the operation is over,
    whatever the remote model answers and whether the operation returns a
    result or raises an error. *)
Theorem generateStructuredContent_removes_staged_file
    (prompt : string) (file : UploadedFile) (w : World) (bytes : string) :
  staged w !! staged_path w file = Some bytes ->
  staged (snd (GeminiService.generateStructuredContent prompt (Some file) w))
    !! staged_path w file = None.
Proof.
  intros Hfile. unfold staged_path in *.
  destruct (generateStructuredContent_run prompt (Some file) w)
    as [(e & w1 & Hattach & _) | (attached & w1 & m & Hattach & Hrun)];
    rewrite attach_some, Hfile in Hattach; [discriminate |].
  injection Hattach as _ <-.
  cbn zeta in Hrun. destruct Hrun as (_ & -> & _).
  cbn. apply lookup_delete_eq.
Qed.

(** The same holds for a message on an existing session. *)
Lemma sendMessage_removes_staged_file
    (sessionId prompt : string) (file : UploadedFile) (w : World)
    (history : list Content) (bytes : string) :
  chatHistories w !! sessionId = Some history ->
  staged w !! staged_path w file = Some bytes ->
  staged (snd (ChatService.sendMessage sessionId prompt (Some file) w))
    !! staged_path w file = None.
Proof.
  intros Hh Hfile. unfold staged_path in *.
  destruct (sendMessage_run sessionId prompt (Some file) w history Hh)
    as [(e & w1 & Hattach & _) | (attached & w1 & m & Hattach & Hrun)];
    rewrite attach_some, Hfile in Hattach; [discriminate |].
  injection Hattach as _ <-.
  cbn zeta in Hrun. destruct Hrun as (-> & _).
  cbn. apply lookup_delete_eq.
Qed.

(** The staged file is gone after a call the remote model rejects. *)
Lemma generateStructuredContent_removes_staged_file_witness :
  let w := Examples.with_notes (fun _ _ => Throw Examples.bad_request) in
  staged w !! staged_path w Examples.notes = Some "Newton" /\
  fst (GeminiService.generateStructuredContent "sum up" (Some Examples.notes) w)
  = Throw GeminiService.failed_generation /\
  staged
    (snd (GeminiService.generateStructuredContent "sum up"
            (Some Examples.notes) w))
    !! staged_path w Examples.notes = None.
Proof.
  intros w.
  assert (Hfile : staged w !! staged_path w Examples.notes = Some "Newton")
    by (vm_compute; reflexivity).
  split; [exact Hfile |]. split; [vm_compute; reflexivity |].
  exact (generateStructuredContent_removes_staged_file
           "sum up" Examples.notes w "Newton" Hfile).
Defined.

(** ** The history of a session *)

Lemma session_contents (prompt : string) (turns : list Content) :
  contents (ChatService.request prompt turns) = turns.
Proof.
  unfold ChatService.request. now destruct (ChatService.select _).
Qed.

(** Every request of a message carries the history of the session followed
    by the new user turn. *)
Lemma sendMessage_requests (sessionId prompt : string)
    (file : option UploadedFile) (w : World) (history : list Content)
    (req : GenerateContentParams) :
  chatHistories w !! sessionId = Some history ->
  In req (requests_of w
            (snd (ChatService.sendMessage sessionId prompt file w))) ->
  exists attached,
    contents req = (history ++ [user_turn prompt attached])%list.
Proof.
  intros Hh Hin.
  destruct (sendMessage_run sessionId prompt file w history Hh)
    as [(e & w1 & Hattach & Hrun) | (attached & w1 & m & _ & Hrun)].
  - rewrite Hrun in Hin.
    destruct (attach_frame _ _ _ _ Hattach) as (_ & _ & _ & Hsent & _).
    unfold requests_of in Hin. cbn in Hin.
    rewrite Hsent, drop_all in Hin. destruct Hin.
  - cbn zeta in Hrun. destruct Hrun as (_ & _ & Hsent & _).
    rewrite (requests_of_app _ _ _ Hsent) in Hin.
    apply repeat_spec in Hin as ->.
    exists attached. apply session_contents.
Qed.

(** What a message does to the histories: nothing, or the user turn is
    appended to the history of its session, or the user turn and the model
    turn are. *)
Lemma sendMessage_histories (sessionId prompt : string)
    (file : option UploadedFile) (w : World) :
  let w' := snd (ChatService.sendMessage sessionId prompt file w) in
  chatHistories w' = chatHistories w \/
  exists history attached,
    chatHistories w !! sessionId = Some history /\
    (chatHistories w'
     = <[sessionId := (history ++ [user_turn prompt attached])%list]>
         (chatHistories w)
     \/
     exists body,
       chatHistories w'
       = <[sessionId :=
             (history ++ [user_turn prompt attached; model_turn body])%list]>
           (chatHistories w)).
Proof.
  cbn zeta.
  destruct (ChatService.get_history sessionId w) as [h| |] eqn:Hget.
  - assert (Hh : chatHistories w !! sessionId = Some h).
    { unfold ChatService.get_history in Hget.
      destruct (chatHistories w !! sessionId); [congruence |].
      destruct (bool_decide _); discriminate. }
    destruct (sendMessage_run sessionId prompt file w h Hh)
      as [(e & w1 & Hattach & Hrun) | (attached & w1 & m & _ & Hrun)].
    + left. rewrite Hrun. cbn.
      now destruct (attach_frame _ _ _ _ Hattach).
    + right. exists h, attached. split; [exact Hh |].
      cbn zeta in Hrun. destruct Hrun as (_ & _ & _ & _ & _ & Hlast).
      destruct (upstream w _ _) as [resp|e].
      * destruct (Json.parse_text (text resp)).
        -- destruct Hlast as (body & _ & _ & ->).
           right. exists body. now rewrite <- app_assoc.
        -- destruct Hlast as (_ & -> & _). now left.
      * destruct Hlast as (_ & ->). now left.
  - left. rewrite (sendMessage_inherited _ _ _ _ Hget).
    destruct (attach file w) as [[?|?] w1] eqn:Hattach;
      cbn; now destruct (attach_frame _ _ _ _ Hattach).
  - left. now rewrite (sendMessage_undefined _ _ _ _ Hget).
Qed.

(** A message leaves the histories as they are or extends the one of its
    session. *)
Lemma sendMessage_history_grows (sessionId prompt : string)
    (file : option UploadedFile) (w : World) (sid : string)
    (history : list Content) :
  chatHistories w !! sid = Some history ->
  exists more,
    chatHistories (snd (ChatService.sendMessage sessionId prompt file w))
      !! sid = Some (history ++ more)%list.
Proof.
  intros Hsid.
  assert (Hins : forall h extra,
            chatHistories w !! sessionId = Some h ->
            exists more,
              <[sessionId := (h ++ extra)%list]> (chatHistories w) !! sid
              = Some (history ++ more)%list).
  { intros h extra Hh. destruct (decide (sessionId = sid)) as [->|Hne].
    - rewrite lookup_insert_eq. exists extra. congruence.
    - rewrite lookup_insert_ne by assumption.
      exists []. now rewrite app_nil_r. }
  destruct (sendMessage_histories sessionId prompt file w)
    as [-> | (h & attached & Hh & [-> | [body ->]])].
  - exists []. now rewrite app_nil_r.
  - now apply Hins.
  - now apply Hins.
Qed.

Lemma step_history_grows (c : Call) (w : World) (sid : string)
    (history : list Content) :
  c <> start_session sid ->
  chatHistories w !! sid = Some history ->
  exists more, chatHistories (step w c) !! sid = Some (history ++ more)%list.
Proof.
  intros Hc Hsid. destruct c as [uuid | sessionId prompt file | name bytes].
  - exists []. cbn. rewrite app_nil_r, lookup_insert_ne; [assumption |].
    congruence.
  - now apply sendMessage_history_grows.
  - exists []. cbn. now rewrite app_nil_r.
Qed.

Lemma run_calls_history_grows (calls : list Call) (w : World) (sid : string)
    (history : list Content) :
  ~ In (start_session sid) calls ->
  chatHistories w !! sid = Some history ->
  exists more,
    chatHistories (run_calls calls w) !! sid = Some (history ++ more)%list.
Proof.
  revert w history. induction calls as [|c calls IH]; intros w history Hno Hsid.
  - exists []. now rewrite app_nil_r.
  - cbn [run_calls fold_left].
    destruct (step_history_grows c w sid history) as [more1 H1];
      [intros ->; apply Hno; now left | assumption |].
    destruct (IH (step w c) _ ltac:(intros Hin; apply Hno; now right) H1)
      as [more2 H2].
    exists (more1 ++ more2)%list. unfold run_calls in H2.
    now rewrite H2, app_assoc.
Qed.

(** C3 does not hold of the code.  A failed exchange leaves its user turn
    in the history: after a message the remote model rejects and one it
    answers, the history of the session holds two user turns in a row and
    does not alternate. *)
Theorem failed_message_leaves_user_turn :
  let w := run_calls
             [ start_session Examples.uuid;
               send_message Examples.uuid "first" None;
               send_message Examples.uuid "second" None ]
             (Examples.fresh
                (Examples.fails_once Examples.bad_request "{}")) in
  let history :=
    [ user_turn "first" []; user_turn "second" []; model_turn "{}" ] in
  chatHistories w !! Examples.uuid = Some history /\
  consecutive_user_turns history /\
  alternates user history = false.
Proof.
  intros w history. split; [vm_compute; reflexivity |].
  split; [| reflexivity].
  exists [], (user_turn "first" []), (user_turn "second" []),
    [model_turn "{}"].
  repeat split.
Qed.

Lemma replies_follow_users_app (previous : Role) (history more : list Content) :
  replies_follow_users previous history = true ->
  (forall p, replies_follow_users p more = true) ->
  replies_follow_users previous (history ++ more) = true.
Proof.
  intros Hh Hmore. revert previous Hh.
  induction history as [|t history IH]; intros previous Hh; [apply Hmore |].
  cbn in *. destruct (role t), previous; auto; discriminate.
Qed.

(** What does hold of the histories when no two calls overlap: whatever
    calls are made, and whether they succeed or fail, every history begins
    with a user turn and has no two model turns in a row. *)
Lemma run_calls_histories_ordered (calls : list Call) (w : World) :
  histories_ordered w -> histories_ordered (run_calls calls w).
Proof.
  revert w. induction calls as [|c calls IH]; intros w Hw; [exact Hw |].
  cbn [run_calls fold_left]. apply IH. clear IH.
  assert (Hins : forall sid h more,
            chatHistories w !! sid = Some h ->
            (forall p, replies_follow_users p more = true) ->
            forall w', chatHistories w'
                       = <[sid := (h ++ more)%list]> (chatHistories w) ->
            histories_ordered w').
  { intros sid h more Hh Hmore w' Hw' s' h' Hs'. rewrite Hw' in Hs'.
    destruct (decide (sid = s')) as [->|Hne].
    - rewrite lookup_insert_eq in Hs'. injection Hs' as <-.
      apply replies_follow_users_app; eauto.
    - rewrite lookup_insert_ne in Hs' by assumption. eauto. }
  destruct c as [uuid | sessionId prompt file | name bytes].
  - intros s' h' Hs'. cbn in Hs'.
    destruct (decide (uuid = s')) as [->|Hne].
    + rewrite lookup_insert_eq in Hs'. now injection Hs' as <-.
    + rewrite lookup_insert_ne in Hs' by assumption. eauto.
  - cbn [step].
    destruct (sendMessage_histories sessionId prompt file w)
      as [Hsame | (h & attached & Hh & [Hone | [body Htwo]])].
    + intros s' h' Hs'. rewrite Hsame in Hs'. eauto.
    + eapply Hins; [exact Hh | | exact Hone]. now intros [].
    + eapply Hins; [exact Hh | | exact Htwo]. now intros [].
  - exact Hw.
Qed.

(** ** Unknown sessions *)

(** A call on an identifier that names no session and that
    [Object.prototype] does not define raises the error of an unknown
    session and changes nothing. *)
Lemma sendMessage_unknown_session (sessionId prompt : string)
    (file : option UploadedFile) (w : World) :
  chatHistories w !! sessionId = None ->
  ~ In sessionId ChatService.Object_prototype ->
  ChatService.sendMessage sessionId prompt file w
  = (Throw ChatService.invalid_session, w).
Proof.
  intros Hnone Hproto. apply sendMessage_undefined.
  unfold ChatService.get_history. rewrite Hnone.
  rewrite bool_decide_false; [reflexivity |].
  now rewrite list_elem_of_In.
Qed.

(** C8 does not hold of the code.  On the identifier [constructor], which
    no call of [startChatSession] has returned, the test of the session
    passes: the staged file of the attachment is read and removed, and the
    error raised is the one raised for a failure of the remote model, not
    the error of an unknown session. *)
Theorem sendMessage_on_inherited_name :
  let w := Examples.with_notes (Examples.always "{}") in
  let run :=
    ChatService.sendMessage "constructor" "hi" (Some Examples.notes) w in
  chatHistories w = ∅ /\
  staged w !! staged_path w Examples.notes = Some "Newton" /\
  fst run = Throw ChatService.failed_response /\
  fst run <> Throw ChatService.invalid_session /\
  staged (snd run) !! staged_path w Examples.notes = None.
Proof.
  intros w run.
  split; [reflexivity |]. split; [vm_compute; reflexivity |].
  assert (Hres : fst run = Throw ChatService.failed_response)
    by (vm_compute; reflexivity).
  split; [exact Hres |]. split; [rewrite Hres; discriminate |].
  vm_compute. reflexivity.
Qed.

(** * Further properties of the code *)

(** ** The classifier of the chat sessions *)

(** X1. The classifier of the chat sessions answers [presentation] when
    one of [ppt], [presentation], [powerpoint], [slides] occurs in the
    prompt up to case, whatever else occurs; [document] when none of them
    occurs and one of [pdf], [docx], [document], [report] does; and
    [default] otherwise.  It has no other answer. *)
Theorem session_detectContentType_cases (prompt : string) :
  let slides :=
    exists kw, In kw ["ppt"; "presentation"; "powerpoint"; "slides"] /\
               Spec.occurs_ci kw prompt in
  let paper :=
    exists kw, In kw ["pdf"; "docx"; "document"; "report"] /\
               Spec.occurs_ci kw prompt in
  (slides /\ ChatService.detectContentType prompt = "presentation") \/
  (~ slides /\ paper /\ ChatService.detectContentType prompt = "document") \/
  (~ slides /\ ~ paper /\ ChatService.detectContentType prompt = "default").
Proof.
  intros slides paper.
  pose (g1 := {| Classifier.name := "presentation";
                 Classifier.keywords :=
                   ["ppt"; "presentation"; "powerpoint"; "slides"];
                 Classifier.priority := 1 |}).
  pose (g2 := {| Classifier.name := "document";
                 Classifier.keywords := ["pdf"; "docx"; "document"; "report"];
                 Classifier.priority := 2 |}).
  pose proof (occurs_iff prompt g1) as H1.
  pose proof (occurs_iff prompt g2) as H2.
  change (Spec.group_occurs g1 prompt) with slides in H1.
  change (Spec.group_occurs g2 prompt) with paper in H2.
  unfold ChatService.detectContentType, Classifier.detect,
    ChatService.keywordPriority.
  fold g1 g2. cbn [fold_left]. rewrite !scan_group_eq.
  destruct (existsb _ (Classifier.keywords g1)) eqn:E1;
    destruct (existsb _ (Classifier.keywords g2)) eqn:E2; cbn.
  - left. split; [now apply H1 | reflexivity].
  - left. split; [now apply H1 | reflexivity].
  - right. left. split; [| split; [now apply H2 | reflexivity]].
    intros Hs. apply H1 in Hs. discriminate.
  - right. right. split; [| split; [| reflexivity]].
    + intros Hs. apply H1 in Hs. discriminate.
    + intros Hp. apply H2 in Hp. discriminate.
Qed.

(** ** Sessions *)

Lemma startChatSession_eq (uuid : string) (w : World) :
  ChatService.startChatSession uuid w =
  (Return uuid,
   logged (log_session_started uuid)
     (set_chatHistories (<[uuid := []]> (chatHistories w)) w)).
Proof. reflexivity. Qed.

(** ** A missing attachment *)

(** X3. When the staged file of the attachment does not exist, the
    operation stops there: it raises its fixed error and writes the line
    [File not found] to the console, and nothing else changes.  No request
    is sent, and the history of the session of a message does not receive
    the user turn. *)
Theorem missing_attachment_stops_the_call :
  (forall (prompt : string) (file : UploadedFile) (w : World),
     staged w !! staged_path w file = None ->
     GeminiService.generateStructuredContent prompt (Some file) w
     = (Throw GeminiService.failed_generation,
        logged
          (GeminiService.caught
             (Error ("File not found: " ++ staged_path w file))) w))
  /\
  (forall (sessionId prompt : string) (file : UploadedFile) (w : World)
          (history : list Content),
     chatHistories w !! sessionId = Some history ->
     staged w !! staged_path w file = None ->
     ChatService.sendMessage sessionId prompt (Some file) w
     = (Throw ChatService.failed_response,
        logged
          (ChatService.caught sessionId
             (Error ("File not found: " ++ staged_path w file))) w)).
Proof.
  split.
  - intros prompt file w Hnone. unfold staged_path in *.
    rewrite generateStructuredContent_unfold, attach_some, Hnone.
    reflexivity.
  - intros sessionId prompt file w history Hh Hnone. unfold staged_path in *.
    rewrite (sendMessage_own _ _ _ _ _ Hh), attach_some, Hnone.
    reflexivity.
Qed.

(** A one-shot call and a message on a new session, both with an
    attachment that was never staged. *)
Lemma missing_attachment_stops_the_call_witness :
  let w := Examples.fresh (Examples.always "{}") in
  let ws := step w (start_session Examples.uuid) in
  let gone :=
    Error ("File not found: " ++ staged_path w Examples.notes) in
  GeminiService.generateStructuredContent "sum up" (Some Examples.notes) w
  = (Throw GeminiService.failed_generation,
     logged (GeminiService.caught gone) w)
  /\
  ChatService.sendMessage Examples.uuid "sum up" (Some Examples.notes) ws
  = (Throw ChatService.failed_response,
     logged (ChatService.caught Examples.uuid gone) ws).
Proof.
  intros w ws gone. split.
  - apply (proj1 missing_attachment_stops_the_call "sum up" Examples.notes w).
    reflexivity.
  - apply (proj2 missing_attachment_stops_the_call Examples.uuid "sum up"
             Examples.notes ws []).
    + vm_compute. reflexivity.
    + reflexivity.
Defined.

(** ** What the two operations raise, send and touch *)

Lemma get_history_cases (sessionId : string) (w : World) :
  (exists history,
     chatHistories w !! sessionId = Some history /\
     ChatService.get_history sessionId w = ChatService.own history)
  \/ (chatHistories w !! sessionId = None /\
      In sessionId ChatService.Object_prototype /\
      ChatService.get_history sessionId w = ChatService.inherited)
  \/ (chatHistories w !! sessionId = None /\
      ~ In sessionId ChatService.Object_prototype /\
      ChatService.get_history sessionId w = ChatService.undefined).
Proof.
  unfold ChatService.get_history.
  destruct (chatHistories w !! sessionId) as [h|]; [left; eauto |].
  right. destruct (decide (sessionId ∈ ChatService.Object_prototype))
    as [Hin|Hout].
  - left. rewrite bool_decide_true by assumption.
    rewrite list_elem_of_In in Hin. auto.
  - right. rewrite bool_decide_false by assumption.
    rewrite list_elem_of_In in Hout. auto.
Qed.

(** The block of the attachment removes at most the staged file of the
    attachment. *)
Lemma attach_staged_other (file : option UploadedFile) (w w1 : World)
    (c : Completion (list Part)) (path : string) :
  attach file w = (c, w1) ->
  (forall f, file = Some f -> path <> staged_path w f) ->
  staged w1 !! path = staged w !! path.
Proof.
  intros Hattach Hpath. destruct file as [f|].
  - specialize (Hpath f eq_refl). unfold staged_path in Hpath.
    rewrite attach_some in Hattach.
    destruct (staged w !! join (uploadsDir w) (filename f));
      injection Hattach as _ <-; [| reflexivity].
    cbn. apply lookup_delete_ne. congruence.
  - injection Hattach as _ <-. reflexivity.
Qed.

(** The outcome of a one-shot call, with the number of requests it made. *)
Lemma generateStructuredContent_outcome (prompt : string)
    (file : option UploadedFile) (w : World) :
  let run := GeminiService.generateStructuredContent prompt file w in
  exists n attached w1 c,
    attach file w = (c, w1) /\
    staged (snd run) = staged w1 /\
    n <= 5 /\
    requests_of w (snd run)
    = repeat (GeminiService.request prompt [user_turn prompt attached]) n /\
    ((exists v, fst run = Return v /\ 1 <= n)
     \/ fst run = Throw GeminiService.failed_generation).
Proof.
  cbn zeta.
  destruct (generateStructuredContent_run prompt file w)
    as [(e & w1 & Hattach & Hrun) | (attached & w1 & m & Hattach & Hrun)].
  - exists 0, [], w1, (Throw e).
    destruct (attach_frame _ _ _ _ Hattach) as (_ & _ & _ & Hsent & _).
    rewrite Hrun. cbn [fst snd].
    split; [exact Hattach |]. split; [reflexivity |]. split; [lia |].
    split; [| now right].
    unfold requests_of. cbn. now rewrite Hsent, drop_all.
  - cbn zeta in Hrun.
    destruct Hrun as (_ & Hstaged & _ & Hsent & Hm & _ & Hlast).
    exists (S m), attached, w1, (Return attached).
    split; [exact Hattach |]. split; [exact Hstaged |]. split; [lia |].
    split; [exact (requests_of_app _ _ _ Hsent) |].
    destruct (upstream w _ _) as [resp|e]; [| now right].
    destruct (Json.parse_text (text resp)) as [v|pe].
    + left. exists v. split; [exact Hlast | lia].
    + right. apply Hlast.
Qed.

(** The outcome of a message, with the number of requests it made. *)
Lemma sendMessage_outcome (sessionId prompt : string)
    (file : option UploadedFile) (w : World) :
  let run := ChatService.sendMessage sessionId prompt file w in
  (chatHistories w !! sessionId = None /\
   ~ In sessionId ChatService.Object_prototype /\
   run = (Throw ChatService.invalid_session, w))
  \/
  ((is_Some (chatHistories w !! sessionId)
    \/ In sessionId ChatService.Object_prototype) /\
   exists n req w1 c,
     attach file w = (c, w1) /\
     staged (snd run) = staged w1 /\
     n <= 5 /\
     requests_of w (snd run) = repeat req n /\
     ((exists v, fst run = Return v /\ 1 <= n)
      \/ fst run = Throw ChatService.failed_response)).
Proof.
  cbn zeta.
  destruct (get_history_cases sessionId w)
    as [(h & Hh & _) | [(Hnone & Hin & Hget) | (Hnone & Hout & Hget)]].
  - right. split; [left; eauto |].
    destruct (sendMessage_run sessionId prompt file w h Hh)
      as [(e & w1 & Hattach & Hrun) | (attached & w1 & m & Hattach & Hrun)].
    + exists 0, Examples.ping, w1, (Throw e).
      destruct (attach_frame _ _ _ _ Hattach) as (_ & _ & _ & Hsent & _).
      rewrite Hrun. cbn [fst snd].
      split; [exact Hattach |]. split; [reflexivity |]. split; [lia |].
      split; [| now right].
      unfold requests_of. cbn. now rewrite Hsent, drop_all.
    + cbn zeta in Hrun.
      destruct Hrun as (Hstaged & _ & Hsent & Hm & _ & Hlast).
      eexists (S m), _, w1, (Return attached).
      split; [exact Hattach |]. split; [exact Hstaged |]. split; [lia |].
      split; [exact (requests_of_app _ _ _ Hsent) |].
      destruct (upstream w _ _) as [resp|e]; [| right; apply Hlast].
      destruct (Json.parse_text (text resp)) as [v|pe].
      * left. exists v. destruct Hlast as (body & _ & Hres & _).
        split; [exact Hres | lia].
      * right. apply Hlast.
  - right. split; [now right |].
    rewrite (sendMessage_inherited _ _ _ _ Hget).
    destruct (attach file w) as [c w1] eqn:Hattach.
    exists 0, Examples.ping, w1, c.
    destruct (attach_frame _ _ _ _ Hattach) as (_ & _ & _ & Hsent & _).
    split; [reflexivity |].
    destruct c as [attached|e]; cbn [fst snd];
      (split; [reflexivity |]; split; [lia |]; split; [| now right];
       unfold requests_of; cbn; now rewrite Hsent, drop_all).
  - left. rewrite (sendMessage_undefined _ _ _ _ Hget). auto.
Qed.

(** X4. The two operations raise their own fixed errors and no other: the
    one-shot operation the error [Failed to generate a structured
    response...], a message either the error [Invalid session ID...] or the
    error [Failed to get a structured response...].  A message raises the
    first one exactly when its identifier names no session and is not a
    name [Object.prototype] defines, and then it changes nothing. *)
Theorem operations_raise_fixed_errors :
  (forall (prompt : string) (file : option UploadedFile) (w : World)
          (e : JsError),
     fst (GeminiService.generateStructuredContent prompt file w) = Throw e ->
     e = GeminiService.failed_generation)
  /\
  (forall (sessionId prompt : string) (file : option UploadedFile)
          (w : World) (e : JsError),
     fst (ChatService.sendMessage sessionId prompt file w) = Throw e ->
     (e = ChatService.invalid_session /\
      chatHistories w !! sessionId = None /\
      ~ In sessionId ChatService.Object_prototype /\
      snd (ChatService.sendMessage sessionId prompt file w) = w)
     \/
     (e = ChatService.failed_response /\
      (is_Some (chatHistories w !! sessionId)
       \/ In sessionId ChatService.Object_prototype))).
Proof.
  split.
  - intros prompt file w e He.
    destruct (generateStructuredContent_outcome prompt file w)
      as (n & attached & w1 & c & _ & _ & _ & _ & [(v & Hv & _) | Hf]);
      congruence.
  - intros sessionId prompt file w e He.
    destruct (sendMessage_outcome sessionId prompt file w)
      as [(Hnone & Hout & Hrun) | (Hknown & n & req & w1 & c & _ & _ & _ & _
                                    & [(v & Hv & _) | Hf])].
    + left. rewrite Hrun in *. cbn in He. injection He as <-. auto.
    + congruence.
    + right. split; [congruence | exact Hknown].
Qed.

(** A one-shot call the remote model rejects, and a message on an
    identifier that names no session. *)
Lemma operations_raise_fixed_errors_witness :
  let w := Examples.fresh (fun _ _ => Throw Examples.bad_request) in
  fst (GeminiService.generateStructuredContent "hi" None w)
  = Throw GeminiService.failed_generation /\
  fst (ChatService.sendMessage Examples.uuid "hi" None w)
  = Throw ChatService.invalid_session /\
  snd (ChatService.sendMessage Examples.uuid "hi" None w) = w.
Proof.
  intros w.
  assert (H1 : exists e,
            fst (GeminiService.generateStructuredContent "hi" None w)
            = Throw e) by (eexists; vm_compute; reflexivity).
  assert (H2 : fst (ChatService.sendMessage Examples.uuid "hi" None w)
               = Throw ChatService.invalid_session)
    by (vm_compute; reflexivity).
  destruct H1 as [e He].
  pose proof (proj1 operations_raise_fixed_errors "hi" None w e He) as ->.
  split; [exact He |]. split; [exact H2 |].
  destruct (proj2 operations_raise_fixed_errors Examples.uuid "hi" None w
              _ H2) as [(_ & _ & _ & Hw) | (He' & _)];
    [exact Hw | discriminate].
Defined.

(** X6. Either operation leaves every staged file but the one of its own
    attachment in place, and a message leaves the history of every other
    session as it is. *)
Theorem operations_touch_only_their_own :
  (forall (prompt : string) (file : option UploadedFile) (w : World)
          (path : string),
     (forall f, file = Some f -> path <> staged_path w f) ->
     staged (snd (GeminiService.generateStructuredContent prompt file w))
       !! path = staged w !! path)
  /\
  (forall (sessionId prompt : string) (file : option UploadedFile)
          (w : World),
     let w' := snd (ChatService.sendMessage sessionId prompt file w) in
     (forall path,
        (forall f, file = Some f -> path <> staged_path w f) ->
        staged w' !! path = staged w !! path) /\
     (forall other, other <> sessionId ->
        chatHistories w' !! other = chatHistories w !! other)).
Proof.
  split.
  - intros prompt file w path Hpath.
    destruct (generateStructuredContent_outcome prompt file w)
      as (n & attached & w1 & c & Hattach & -> & _).
    exact (attach_staged_other _ _ _ _ _ Hattach Hpath).
  - intros sessionId prompt file w w'. subst w'. split.
    + intros path Hpath.
      destruct (sendMessage_outcome sessionId prompt file w)
        as [(_ & _ & ->) | (_ & n & req & w1 & c & Hattach & -> & _)];
        [reflexivity |].
      exact (attach_staged_other _ _ _ _ _ Hattach Hpath).
    + intros other Hne.
      destruct (sendMessage_histories sessionId prompt file w)
        as [-> | (h & attached & _ & [-> | [body ->]])];
        [reflexivity | |]; now apply lookup_insert_ne.
Qed.

(** A message with an attachment, while another file is staged and another
    session exists: both are left as they are. *)
Lemma operations_touch_only_their_own_witness :
  let w := step (step (Examples.with_notes (Examples.always "{}"))
                      (stage_file "77aa" "other"))
                (start_session Examples.uuid) in
  let other := join (uploadsDir w) "77aa" in
  staged (snd (GeminiService.generateStructuredContent "sum up"
                 (Some Examples.notes) w)) !! other = Some "other"
  /\
  staged (snd (ChatService.sendMessage Examples.uuid "sum up"
                 (Some Examples.notes) w)) !! other = Some "other".
Proof.
  intros w other.
  assert (Hother : forall f, Some Examples.notes = Some f ->
                             other <> staged_path w f).
  { intros f [= <-]. vm_compute. discriminate. }
  assert (Hw : staged w !! other = Some "other") by (vm_compute; reflexivity).
  split.
  - rewrite <- Hw.
    exact (proj1 operations_touch_only_their_own "sum up"
             (Some Examples.notes) w other Hother).
  - rewrite <- Hw.
    exact (proj1 (proj2 operations_touch_only_their_own Examples.uuid
                    "sum up" (Some Examples.notes) w) other Hother).
Defined.

(** ** The retry loop: invocations, warnings and delays *)

Section RetryLog.
Variable retryable : JsError -> bool.
Variable params : GenerateContentParams.
Variables maxRetries initialDelay : Z.

Let loop :=
  retry_loop retryable (generateContent params) maxRetries initialDelay.

(** The warning of the retry that follows attempt [attempt]. *)
Let warning (errs : nat -> JsError) (attempt : nat) : ConsoleEntry :=
  warn_retrying (errs attempt) attempt
    (initialDelay * 2 ^ Z.of_nat attempt).

Lemma warnings_shift (errs : nat -> JsError) (attempt k : nat) :
  map (fun j => warn_retrying (errs j) (attempt + j)
                  (initialDelay * 2 ^ Z.of_nat (attempt + j)))
      (seq 0 (S k))
  = warn_retrying (errs 0) attempt (initialDelay * 2 ^ Z.of_nat attempt)
    :: map (fun j => warn_retrying (errs (S j)) (S attempt + j)
                       (initialDelay * 2 ^ Z.of_nat (S attempt + j)))
           (seq 0 k).
Proof.
  cbn [seq map]. rewrite Nat.add_0_r. f_equal.
  rewrite <- seq_shift, map_map. apply map_ext.
  intros j. now rewrite Nat.add_succ_r.
Qed.

(** The loop on a remote model whose next [k] answers are transient
    failures: the requests it sends, its completion and the lines it
    writes, by the answer that follows. *)
Lemma retry_loop_log (remaining attempt : nat) (w : World) (k : nat)
    (errs : nat -> JsError) :
  attempt + remaining = Z.to_nat maxRetries ->
  k < remaining ->
  (forall j, j < k ->
     upstream w (length (sent w) + j) params = Throw (errs j) /\
     retryable (errs j) = true) ->
  let run := loop remaining attempt w in
  let warnings :=
    map (fun j => warn_retrying (errs j) (attempt + j)
                    (initialDelay * 2 ^ Z.of_nat (attempt + j)))
        (seq 0 k) in
  match upstream w (length (sent w) + k) params with
  | Return resp =>
      fst run = Return (Some resp) /\
      sent (snd run) = (sent w ++ repeat params (S k))%list /\
      console (snd run) = (console w ++ warnings)%list
  | Throw e =>
      if retryable e then
        attempt + S k = Z.to_nat maxRetries ->
        fst run = Throw e /\
        sent (snd run) = (sent w ++ repeat params (S k))%list /\
        console (snd run)
        = (console w ++ warnings
           ++ [error_no_more_retries (Z.to_nat maxRetries)])%list
      else
        fst run = Throw e /\
        sent (snd run) = (sent w ++ repeat params (S k))%list /\
        console (snd run) = (console w ++ warnings)%list
  end.
Proof.
  revert attempt w k errs.
  induction remaining as [|remaining IH];
    intros attempt w k errs Hn Hk Hprev; [lia |].
  cbn zeta. unfold loop. rewrite retry_loop_step. fold loop.
  unfold generateContent.
  destruct k as [|k].
  - rewrite Nat.add_0_r. cbn [seq map]. rewrite app_nil_r.
    destruct (upstream w (length (sent w)) params) as [resp|e].
    + cbn. auto.
    + destruct (retryable e); [| cbn; auto].
      intros Hlast.
      assert (Htest : (Z.of_nat attempt =? maxRetries - 1)%Z = true)
        by (apply Z.eqb_eq; lia).
      rewrite Htest. cbn. auto.
  - destruct (Hprev 0 ltac:(lia)) as [Hfirst Hretry].
    rewrite Nat.add_0_r in Hfirst. rewrite Hfirst, Hretry.
    assert (Htest : (Z.of_nat attempt =? maxRetries - 1)%Z = false)
      by (apply Z.eqb_neq; lia).
    rewrite Htest.
    set (w2 := set_console _ _).
    assert (Hsent2 : sent w2 = (sent w ++ [params])%list) by reflexivity.
    assert (Hlen2 : length (sent w2) = S (length (sent w)))
      by (rewrite Hsent2, length_app; cbn; lia).
    specialize (IH (S attempt) w2 k (fun j => errs (S j))
                  ltac:(lia) ltac:(lia)).
    cbn zeta in IH.
    assert (Hprev2 : forall j, j < k ->
              upstream w2 (length (sent w2) + j) params = Throw (errs (S j))
              /\ retryable (errs (S j)) = true).
    { intros j Hj. destruct (Hprev (S j) ltac:(lia)) as [Hu Hr].
      split; [| exact Hr]. rewrite Hlen2.
      change (upstream w2) with (upstream w).
      rewrite <- Hu. f_equal. lia. }
    specialize (IH Hprev2).
    rewrite Hlen2 in IH. change (upstream w2) with (upstream w) in IH.
    replace (S (length (sent w)) + k) with (length (sent w) + S k) in IH
      by lia.
    rewrite warnings_shift.
    change (console w2)
      with (console w ++
            [warn_retrying (errs 0) attempt
               (initialDelay * 2 ^ Z.of_nat attempt)])%list in IH.
    rewrite Hsent2 in IH.
    assert (Hreq : forall n,
              ((sent w ++ [params]) ++ repeat params n)%list
              = (sent w ++ repeat params (S n))%list)
      by (intros n; now rewrite <- app_assoc).
    rewrite Hreq in IH.
    replace (S attempt + S k) with (attempt + S (S k)) in IH by lia.
    destruct (upstream w (length (sent w) + S k) params) as [resp|e].
    + destruct IH as (Hres & Hs & Hc). split; [exact Hres |].
      split; [exact Hs |]. rewrite Hc. now rewrite <- app_assoc.
    + destruct (retryable e).
      * intros Hlast. destruct (IH Hlast) as (Hres & Hs & Hc).
        split; [exact Hres |]. split; [exact Hs |].
        rewrite Hc. now rewrite <- app_assoc.
      * destruct IH as (Hres & Hs & Hc). split; [exact Hres |].
        split; [exact Hs |]. rewrite Hc. now rewrite <- app_assoc.
Qed.

End RetryLog.

(** X7. When the remote model fails [k] times with errors the copy of
    [withRetry] retries and then answers, within the permitted attempts,
    [withRetry] returns the answer after [k + 1] equal requests and has
    written [k] lines to the console and nothing else: one warning for
    each failed attempt, in order, with the status of the error of that
    attempt. *)
Theorem retry_warns_once_per_failure (retryable : JsError -> bool)
    (params : GenerateContentParams) (maxRetries initialDelay : Z)
    (w : World) (k : nat) (errs : nat -> JsError) (resp : Response) :
  k < Z.to_nat maxRetries ->
  (forall j, j < k ->
     upstream w (length (sent w) + j) params = Throw (errs j) /\
     retryable (errs j) = true) ->
  upstream w (length (sent w) + k) params = Return resp ->
  let run :=
    retry retryable (generateContent params) maxRetries initialDelay w in
  fst run = Return (Some resp) /\
  sent (snd run) = (sent w ++ repeat params (S k))%list /\
  exists lines,
    console (snd run) = (console w ++ lines)%list /\
    length lines = k /\
    forall j, j < k ->
      exists line,
        lines !! j = Some line /\
        warned_status line = Some (error_status (errs j)).
Proof.
  intros Hk Hprev Hok run. subst run. unfold retry.
  pose proof (retry_loop_log retryable params maxRetries initialDelay
                (Z.to_nat maxRetries) 0 w k errs eq_refl Hk Hprev) as H.
  cbn zeta in H. rewrite Hok in H. destruct H as (Hres & Hsent & Hlog).
  split; [exact Hres |]. split; [exact Hsent |].
  eexists. split; [exact Hlog |].
  split; [now rewrite length_map, length_seq |].
  intros j Hj.
  exists (warn_retrying (errs j) j (initialDelay * 2 ^ Z.of_nat j)).
  split; [| reflexivity].
  change (map ?f ?l) with (f <$> l).
  rewrite list_lookup_fmap, lookup_seq_lt by exact Hj. reflexivity.
Qed.

(** Four refusals with status 429, then an answer, with five permitted
    attempts and the copy of [geminiService.js]: four warnings, each for
    the status 429. *)
Lemma retry_warns_once_per_failure_witness :
  let busy := Examples.too_many_requests in
  let up : nat -> GenerateContentParams -> Completion Response :=
    fun n _ => if (n <? 4)%nat then Throw busy else Examples.answer "{}" in
  let run :=
    GeminiService.withRetry (generateContent Examples.ping) 5 2000
      (Examples.fresh up) in
  fst run = Return (Some {| text := Some "{}" |}) /\
  sent (snd run) = repeat Examples.ping 5 /\
  map warned_status (console (snd run))
  = repeat (Some (Some 429%Z)) 4.
Proof.
  intros busy up run.
  assert (Hk : 4 < Z.to_nat 5) by (cbn; lia).
  assert (Hprev : forall j, j < 4 ->
            up (length (sent (Examples.fresh up)) + j) Examples.ping
            = Throw busy /\ status_429_or_503 busy = true).
  { intros j Hj. split; [| reflexivity].
    cbn [Examples.fresh sent length Nat.add]. unfold up.
    destruct (Nat.ltb_spec j 4); [reflexivity | lia]. }
  destruct (retry_warns_once_per_failure status_429_or_503 Examples.ping
              5 2000 (Examples.fresh up) 4 (fun _ => busy)
              {| text := Some "{}" |} Hk Hprev eq_refl)
    as (Hres & Hsent & _).
  split; [exact Hres |]. split; [exact Hsent |].
  vm_compute. reflexivity.
Defined.

(** X8. When the remote model fails every permitted attempt with errors
    the copy of [withRetry] retries, [withRetry] raises the error of the
    last attempt after as many equal requests as attempts are permitted;
    it has written a warning after each attempt but the last, and then the
    line that no retries are left. *)
Theorem retry_exhausted_raises_last_error (retryable : JsError -> bool)
    (params : GenerateContentParams) (maxRetries initialDelay : Z)
    (w : World) (errs : nat -> JsError) :
  (1 <= maxRetries)%Z ->
  (forall j, j < Z.to_nat maxRetries ->
     upstream w (length (sent w) + j) params = Throw (errs j) /\
     retryable (errs j) = true) ->
  let n := Z.to_nat maxRetries in
  let run :=
    retry retryable (generateContent params) maxRetries initialDelay w in
  fst run = Throw (errs (n - 1)) /\
  sent (snd run) = (sent w ++ repeat params n)%list /\
  console (snd run)
  = (console w ++
     map (fun j => warn_retrying (errs j) j (initialDelay * 2 ^ Z.of_nat j))
         (seq 0 (n - 1))
     ++ [error_no_more_retries n])%list.
Proof.
  intros Hmax Hall n run. subst run. unfold retry.
  assert (Hn : n = S (n - 1)) by (unfold n; lia).
  pose proof (retry_loop_log retryable params maxRetries initialDelay
                n 0 w (n - 1) errs eq_refl ltac:(lia)
                ltac:(intros j Hj; apply Hall; unfold n in *; lia)) as H.
  cbn zeta in H.
  destruct (Hall (n - 1) ltac:(unfold n; lia)) as [Hlast Hretry].
  rewrite Hlast, Hretry in H. cbn [Nat.add] in H.
  specialize (H ltac:(unfold n in *; lia)).
  rewrite <- Hn in H. exact H.
Qed.

(** Two permitted attempts, both refused with status 503. *)
Lemma retry_exhausted_raises_last_error_witness :
  let down := Examples.unavailable in
  let w := Examples.fresh (fun _ _ => Throw down) in
  let run := ChatService.withRetry (generateContent Examples.ping) 2 500 w in
  fst run = Throw down /\
  sent (snd run) = [Examples.ping; Examples.ping] /\
  console (snd run) = [warn_retrying down 0 500; error_no_more_retries 2].
Proof.
  intros down w run.
  exact (retry_exhausted_raises_last_error status_429_or_503 Examples.ping
           2 500 w (fun _ => down) ltac:(lia)
           (fun j _ => conj eq_refl eq_refl)).
Defined.

Section RetryBounds.
Import Spec.
Variable retryable : JsError -> bool.
Context {A : Type}.
Variables (op : M A) (inv : World -> Prop) (calls : World -> nat).
Variable outcome : nat -> Completion A.
Hypothesis Hop : scripted op inv calls outcome.
Variables maxRetries initialDelay : Z.

Lemma retry_loop_calls_le (remaining attempt : nat) (w : World) :
  inv w ->
  calls (snd (retry_loop retryable op maxRetries initialDelay
                remaining attempt w))
  <= calls w + remaining.
Proof.
  revert attempt w. induction remaining as [|remaining IH];
    intros attempt w Hw; [cbn; lia |].
  rewrite retry_loop_step.
  pose proof (scripted_calls _ _ _ _ Hop w Hw) as Hc.
  pose proof (scripted_inv _ _ _ _ Hop w Hw) as Hw1.
  destruct (op w) as [[a|e] w1]; cbn [snd] in *; [lia |].
  destruct (retryable e); [| cbn [snd]; lia].
  destruct (Z.of_nat attempt =? maxRetries - 1)%Z; cbn [snd].
  - rewrite (console_calls _ _ _ _ Hop). lia.
  - set (w2 := set_console _ w1).
    assert (Hw2 : inv w2) by now apply (console_inv _ _ _ _ Hop).
    specialize (IH (S attempt) w2 Hw2).
    assert (calls w2 = calls w1) by apply (console_calls _ _ _ _ Hop).
    lia.
Qed.

End RetryBounds.

(** X9. Whatever the operation answers, each copy of [withRetry] invokes
    it at most [maxRetries] times.  With a [maxRetries] of zero or less it
    returns [undefined] without invoking it and without writing a line;
    with a [maxRetries] of one or more it invokes it at least once and
    never returns [undefined]. *)
Theorem retry_invocations_bounded (retryable : JsError -> bool) (A : Type)
    (op : M A) (inv : World -> Prop) (calls : World -> nat)
    (outcome : nat -> Completion A) (maxRetries initialDelay : Z)
    (w : World) :
  Spec.scripted op inv calls outcome -> inv w ->
  let run := retry retryable op maxRetries initialDelay w in
  calls (snd run) <= calls w + Z.to_nat maxRetries /\
  ((maxRetries <= 0)%Z -> run = (Return None, w)) /\
  ((1 <= maxRetries)%Z ->
   calls w + 1 <= calls (snd run) /\ fst run <> Return None).
Proof.
  intros Hop Hw run. subst run. unfold retry. split; [| split].
  - now apply (retry_loop_calls_le retryable op inv calls outcome Hop).
  - intros Hle. assert (Z.to_nat maxRetries = 0) as -> by lia. reflexivity.
  - intros Hge. split.
    + pose proof (retry_loop_calls retryable op inv calls outcome Hop
                    maxRetries initialDelay (Z.to_nat maxRetries) 0 w Hw) as H.
      destruct (Z.to_nat maxRetries) eqn:E; [lia | exact H].
    + intros Hnone.
      apply retry_loop_none in Hnone; [lia | reflexivity].
Qed.

(** No permitted attempt: nothing is asked of a remote model that would
    have answered. *)
Lemma retry_invocations_bounded_witness :
  let w := Examples.fresh (Examples.always "{}") in
  Chatbot.withRetry (generateContent Examples.ping) 0 2000 w
  = (Return None, w).
Proof.
  intros w.
  exact (proj1 (proj2 (retry_invocations_bounded status_429 Response
                         (generateContent Examples.ping)
                         (fun w' => upstream w' = upstream w)
                         (fun w' => length (sent w'))
                         (fun n => upstream w n Examples.ping) 0 2000 w
                         (generateContent_scripted _ _) eq_refl))
           ltac:(lia)).
Defined.

(** ** Image generation *)

Lemma find_first {A} (f : A -> bool) (l : list A) (x : A) :
  List.find f l = Some x <->
  exists before after,
    l = (before ++ x :: after)%list /\
    Forall (fun y => f y = false) before /\ f x = true.
Proof.
  induction l as [|a l IH]; cbn.
  - split; [discriminate |].
    intros (before & after & H & _). destruct before; discriminate.
  - destruct (f a) eqn:Ha.
    + split.
      * intros [= <-]. exists [], l. auto.
      * intros (before & after & H & Hb & Hx).
        destruct before as [|b before].
        -- now injection H as ->.
        -- injection H as <- _. inversion Hb; congruence.
    + rewrite IH. split.
      * intros (before & after & -> & Hb & Hx).
        exists (a :: before), after. auto.
      * intros (before & after & H & Hb & Hx).
        destruct before as [|b before].
        -- injection H as <- _. congruence.
        -- injection H as <- ->. inversion Hb; subst. eauto.
Qed.

(** The optional chain and [find] of [generateImage] select the first
    part with [inlineData] of the first candidate. *)
Lemma imagePart_spec (response : ImageApi.ImageResponse)
    (p : ImageApi.ResponsePart) :
  ImageApi.imagePart response = Some p <-> first_inline_part response p.
Proof.
  unfold ImageApi.imagePart, first_inline_part.
  assert (Htest : forall q, ImageApi.has_inlineData q = false
                            <-> ImageApi.inlineData q = None).
  { intros q. unfold ImageApi.has_inlineData.
    destruct (ImageApi.inlineData q); split; congruence. }
  assert (Htrue : forall q, ImageApi.has_inlineData q = true
                            <-> ImageApi.inlineData q <> None).
  { intros q. unfold ImageApi.has_inlineData.
    destruct (ImageApi.inlineData q); split; congruence. }
  split.
  - destruct (ImageApi.candidates response) as [[|candidate others]|];
      try discriminate.
    destruct (ImageApi.content candidate) as [c|] eqn:Hc; [| discriminate].
    destruct (ImageApi.parts c) as [ps|] eqn:Hps; [| discriminate].
    intros Hfind. apply find_first in Hfind as (before & after & -> & Hb & Hp).
    exists candidate, others, c, before, after.
    split; [reflexivity |]. split; [exact Hc |]. split; [exact Hps |].
    split; [| now apply Htrue].
    eapply List.Forall_impl; [| exact Hb]. intros q. apply Htest.
  - intros (candidate & others & c & before & after & -> & -> & -> & Hb & Hp).
    apply find_first. exists before, after.
    split; [reflexivity |]. split; [| now apply Htrue].
    eapply List.Forall_impl; [| exact Hb]. intros q. apply Htest.
Qed.

(** A result of the loop is a result of some invocation of the
    operation. *)
Lemma retry_loop_result {A} (retryable : JsError -> bool) (op : M A)
    (maxRetries initialDelay : Z) (remaining attempt : nat) (w : World)
    (a : A) :
  fst (retry_loop retryable op maxRetries initialDelay remaining attempt w)
  = Return (Some a) ->
  exists w0, fst (op w0) = Return a.
Proof.
  revert attempt w. induction remaining as [|remaining IH];
    intros attempt w; [discriminate |].
  rewrite retry_loop_step.
  destruct (op w) as [[a'|e] w1] eqn:Hop; cbn [fst].
  - intros [= <-]. exists w. now rewrite Hop.
  - destruct (retryable e); [| discriminate].
    destruct (Z.of_nat attempt =? maxRetries - 1)%Z; [discriminate |].
    apply IH.
Qed.

Section ImageFacts.
Import ImageApi.
Variable retryable : JsError -> bool.
Variable ai : ImageParams -> M ImageResponse.

Let generate := generateImage (fun A => retry retryable) ai.

(** The function, step by step. *)
Lemma generateImage_unfold (prompt : string) (w : World) :
  generate prompt w =
  match retry retryable (ai (request prompt)) 5 2000 w with
  | (Throw e, w1) => (Throw failed_image, logged (caught e) w1)
  | (Return None, w1) =>
      (Throw failed_image,
       logged
         (caught
            (TypeError
               "Cannot read properties of undefined (reading 'candidates')"))
         w1)
  | (Return (Some response), w1) =>
      match image_data (imagePart response) w1 with
      | (Return image, w2) => (Return image, w2)
      | (Throw e, w2) => (Throw failed_image, logged (caught e) w2)
      end
  end.
Proof.
  unfold generate, generateImage, try_catch, bind.
  destruct (retry retryable (ai (request prompt)) 5 2000 w)
    as [[[response|]|e] w1]; reflexivity.
Qed.

(** The data of the selected part, as [generateImage] reads it. *)
Lemma image_data_returns (response : ImageResponse) (w : World)
    (image : string) :
  fst (image_data (imagePart response) w) = Return image <->
  exists p, first_inline_part response p /\ carries_image p image.
Proof.
  unfold carries_image. split.
  - destruct (imagePart response) as [p|] eqn:Hp; [| discriminate].
    apply imagePart_spec in Hp. cbn [image_data].
    destruct (inlineData p) as [blob|] eqn:Hblob; [| discriminate].
    destruct (data blob) as [d|] eqn:Hd; [| discriminate].
    destruct (String.eqb_spec d EmptyString) as [->|Hne]; [discriminate |].
    intros [= <-]. exists p. split; [exact Hp |]. exists blob. auto.
  - intros (p & Hp & blob & Hblob & Hd & Hne).
    apply imagePart_spec in Hp. rewrite Hp. cbn [image_data].
    rewrite Hblob, Hd.
    destruct (String.eqb_spec image EmptyString); [contradiction |].
    reflexivity.
Qed.

Lemma image_data_world (found : option ResponsePart) (w : World) :
  snd (image_data found w) = w.
Proof.
  destruct found as [p|]; [| reflexivity]. cbn.
  destruct (inlineData p) as [blob|]; [| reflexivity].
  destruct (data blob) as [d|]; [| reflexivity].
  destruct (String.eqb d EmptyString); reflexivity.
Qed.

Lemma image_data_throws (found : option ResponsePart) (w : World)
    (e : JsError) :
  fst (image_data found w) = Throw e ->
  e = no_image \/
  (exists p, found = Some p /\ inlineData p = None).
Proof.
  destruct found as [p|]; [| cbn; intros [= <-]; auto]. cbn.
  destruct (inlineData p) as [blob|] eqn:Hb; [| intros _; eauto].
  destruct (data blob) as [d|]; [| cbn; intros [= <-]; auto].
  destruct (String.eqb d EmptyString); cbn; [intros [= <-]; auto |].
  discriminate.
Qed.

Lemma generateImage_returns (prompt : string) (w : World)
    (image : string) :
  fst (generate prompt w) = Return image ->
  exists w0 response p,
    fst (ai (request prompt) w0) = Return response /\
    first_inline_part response p /\ carries_image p image.
Proof.
  rewrite generateImage_unfold. unfold retry.
  destruct (retry_loop retryable (ai (request prompt)) 5 2000
              (Z.to_nat 5) 0 w) as [[[response|]|e] w1] eqn:Hloop;
    try discriminate.
  destruct (image_data (imagePart response) w1) as [[d|e] w2] eqn:Hdata;
    [| discriminate].
  cbn [fst]. intros [= ->].
  assert (Hres : fst (retry_loop retryable (ai (request prompt)) 5 2000
                        (Z.to_nat 5) 0 w) = Return (Some response))
    by now rewrite Hloop.
  apply retry_loop_result in Hres as [w0 Hw0].
  assert (Hd : fst (image_data (imagePart response) w1) = Return image)
    by now rewrite Hdata.
  apply image_data_returns in Hd as (p & Hp & Hc).
  exists w0, response, p. auto.
Qed.

Lemma generateImage_fails (prompt : string) (w : World) :
  (exists image, fst (generate prompt w) = Return image) \/
  (fst (generate prompt w) = Throw failed_image /\
   exists e w1, snd (generate prompt w) = logged (caught e) w1).
Proof.
  rewrite generateImage_unfold.
  destruct (retry retryable (ai (request prompt)) 5 2000 w)
    as [[[response|]|e] w1]; cbn [fst snd]; eauto.
  destruct (image_data (imagePart response) w1) as [[d|e] w2];
    cbn [fst snd]; eauto.
Qed.

(** A call that returns no image, and what its [catch] block caught. *)
Lemma generateImage_outcome (prompt : string) (w : World) :
  let asked := retry retryable (ai (request prompt)) 5 2000 w in
  (exists image, fst (generate prompt w) = Return image) \/
  (exists e,
     generate prompt w
     = (Throw failed_image, logged (caught e) (snd asked)) /\
     match fst asked with
     | Throw e' => e = e'
     | Return None =>
         e = TypeError
               "Cannot read properties of undefined (reading 'candidates')"
     | Return (Some response) =>
         e = no_image /\
         forall p image,
           first_inline_part response p -> ~ carries_image p image
     end).
Proof.
  cbn zeta. rewrite generateImage_unfold.
  destruct (retry retryable (ai (request prompt)) 5 2000 w)
    as [[[response|]|e] w1]; cbn [fst snd]; eauto.
  pose proof (image_data_world (imagePart response) w1) as Hw.
  pose proof (image_data_returns response w1) as Hret.
  pose proof (image_data_throws (imagePart response) w1) as Hthrow.
  destruct (image_data (imagePart response) w1) as [[d|e] w2];
    cbn [fst snd] in *; [eauto |].
  subst w2. right. exists e. split; [reflexivity |].
  split.
  - destruct (Hthrow e eq_refl) as [-> | (p & Hp & Hnone)];
      [reflexivity |].
    apply imagePart_spec in Hp
      as (candidate & others & c & before & after & _ & _ & _ & _ & Hsome).
    contradiction.
  - intros p image Hp Hc.
    assert (H : Throw e = Return image)
      by (apply (proj2 (Hret image)); eauto).
    discriminate.
Qed.

(** An answer at the first attempt decides the call. *)
Lemma generateImage_first_answer (prompt : string) (w w1 : World)
    (response : ImageResponse) :
  ai (request prompt) w = (Return response, w1) ->
  generate prompt w =
  match image_data (imagePart response) w1 with
  | (Return image, _) => (Return image, w1)
  | (Throw e, _) => (Throw failed_image, logged (caught e) w1)
  end.
Proof.
  intros Hai. rewrite generateImage_unfold. unfold retry.
  change (Z.to_nat 5) with 5. rewrite retry_loop_step, Hai.
  pose proof (image_data_world (imagePart response) w1) as Hw.
  destruct (image_data (imagePart response) w1) as [[d|e] w2];
    cbn in Hw; now subst w2.
Qed.

End ImageFacts.

Lemma generateImage_copy (generate : (ImageApi.ImageParams ->
                                      M ImageApi.ImageResponse) ->
                                     string -> M string) :
  In generate generateImage_copies ->
  exists retryable,
    generate = ImageApi.generateImage (fun A => retry retryable).
Proof.
  intros [<- | [<- | [<- | []]]].
  - now exists status_429_or_503.
  - now exists status_429_or_503.
  - now exists status_429.
Qed.

Lemma generateImage_returns_nonempty
    (generate : (ImageApi.ImageParams -> M ImageApi.ImageResponse) ->
                string -> M string)
    (ai : ImageApi.ImageParams -> M ImageApi.ImageResponse)
    (prompt : string) (w : World) :
  In generate generateImage_copies ->
  forall image,
    fst (generate ai prompt w) = Return image -> image <> EmptyString.
Proof.
  intros Hcopy image Hret.
  apply generateImage_copy in Hcopy as [retryable ->].
  apply generateImage_returns in Hret
    as (w0 & response & p & _ & _ & blob & _ & _ & Hne).
  exact Hne.
Qed.

(** X10. An image that a copy of [generateImage] returns is a string that
    is not empty, and it is the data of the first part with [inlineData]
    of the first candidate of an answer of the remote model to the request
    for the prompt. *)
Theorem generateImage_returns_first_inline_data
    (generate : (ImageApi.ImageParams -> M ImageApi.ImageResponse) ->
                string -> M string)
    (ai : ImageApi.ImageParams -> M ImageApi.ImageResponse)
    (prompt : string) (w : World) (image : string) :
  In generate generateImage_copies ->
  fst (generate ai prompt w) = Return image ->
  image <> EmptyString /\
  exists w0 response p blob,
    fst (ai (ImageApi.request prompt) w0) = Return response /\
    first_inline_part response p /\
    ImageApi.inlineData p = Some blob /\
    ImageApi.data blob = Some image.
Proof.
  intros Hcopy Hret.
  apply generateImage_copy in Hcopy as [retryable ->].
  apply generateImage_returns in Hret
    as (w0 & response & p & Hai & Hp & blob & Hblob & Hd & Hne).
  split; [exact Hne |]. eauto 8.
Qed.

(** An answer with a caption and an image: the image is returned. *)
Lemma generateImage_returns_first_inline_data_witness :
  let response :=
    Examples.painted [Examples.caption "a cat"; Examples.png "iVBORw0KGgo"] in
  let w := Examples.fresh (Examples.always "{}") in
  fst (GeminiService.generateImage (Examples.paints response) "a cat" w)
  = Return "iVBORw0KGgo" /\
  exists w0 response' p blob,
    fst (Examples.paints response (ImageApi.request "a cat") w0)
    = Return response' /\
    first_inline_part response' p /\
    ImageApi.inlineData p = Some blob /\
    ImageApi.data blob = Some "iVBORw0KGgo".
Proof.
  intros response w. split; [reflexivity |].
  apply (generateImage_returns_first_inline_data
           GeminiService.generateImage (Examples.paints response)
           "a cat" w "iVBORw0KGgo").
  - left. reflexivity.
  - reflexivity.
Defined.

(** X11. An answer of the remote model at the first attempt decides the
    call of a copy of [generateImage], and the remote model is not asked
    again.  The image of the first part with [inlineData] of the first
    candidate is returned.  When there is no such part, or when that part
    carries no data or the empty string, the call fails, even if a later
    part carries an image: the error that no valid image was returned is
    written to the console and the fixed error of the function is
    raised. *)
Theorem generateImage_first_answer_decides
    (generate : (ImageApi.ImageParams -> M ImageApi.ImageResponse) ->
                string -> M string)
    (ai : ImageApi.ImageParams -> M ImageApi.ImageResponse)
    (prompt : string) (w w1 : World) (response : ImageApi.ImageResponse) :
  In generate generateImage_copies ->
  ai (ImageApi.request prompt) w = (Return response, w1) ->
  (forall p image,
     first_inline_part response p -> carries_image p image ->
     generate ai prompt w = (Return image, w1))
  /\
  ((forall p image,
      first_inline_part response p -> ~ carries_image p image) ->
   generate ai prompt w
   = (Throw ImageApi.failed_image,
      logged (ImageApi.caught ImageApi.no_image) w1)).
Proof.
  intros Hcopy Hai.
  apply generateImage_copy in Hcopy as [retryable ->].
  rewrite (generateImage_first_answer retryable ai prompt w w1 response Hai).
  split.
  - intros p image Hp Hc.
    assert (Hd : fst (ImageApi.image_data (ImageApi.imagePart response) w1)
                 = Return image)
      by (apply image_data_returns; eauto).
    destruct (ImageApi.image_data _ w1) as [[d|e] w2]; cbn in Hd;
      congruence.
  - intros Hnone.
    destruct (ImageApi.image_data (ImageApi.imagePart response) w1)
      as [[d|e] w2] eqn:Hdata.
    + assert (Hd : fst (ImageApi.image_data
                          (ImageApi.imagePart response) w1) = Return d)
        by now rewrite Hdata.
      apply image_data_returns in Hd as (p & Hp & Hc).
      destruct (Hnone p d Hp Hc).
    + assert (He : fst (ImageApi.image_data
                          (ImageApi.imagePart response) w1) = Throw e)
        by now rewrite Hdata.
      apply image_data_throws in He as [-> | (p & Hp & Hnodata)];
        [reflexivity |].
      apply imagePart_spec in Hp
        as (? & ? & ? & ? & ? & _ & _ & _ & _ & Hinline).
      contradiction.
Qed.

(** An answer whose first image part is empty and whose second one is
    not: the call fails. *)
Lemma generateImage_first_answer_decides_witness :
  let response := Examples.painted [Examples.png ""; Examples.png "iVBOR"] in
  let w := Examples.fresh (Examples.always "{}") in
  Chatbot.generateImage (Examples.paints response) "a cat" w
  = (Throw ImageApi.failed_image,
     logged (ImageApi.caught ImageApi.no_image) w).
Proof.
  intros response w.
  apply (proj2 (generateImage_first_answer_decides Chatbot.generateImage
                  (Examples.paints response) "a cat" w w response
                  ltac:(right; right; left; reflexivity) eq_refl)).
  intros p image Hp (blob & Hblob & Hd & Hne).
  apply imagePart_spec in Hp. cbn in Hp. injection Hp as <-.
  cbn in Hblob. injection Hblob as <-. cbn in Hd. congruence.
Defined.

(** X12. A call of a copy of [generateImage] that returns no image raises
    the one fixed error of the function, whatever went wrong, and what
    went wrong is the last line written to the console: the error that
    [withRetry] raised, which is an error of the remote model; the error
    of reading [candidates] of [undefined] when [withRetry] returned
    nothing; or the error that no valid image was returned, when the
    answer has no part with an image that can be used. *)
Theorem generateImage_failure_is_fixed_error
    (generate : (ImageApi.ImageParams -> M ImageApi.ImageResponse) ->
                string -> M string)
    (withRetry : M ImageApi.ImageResponse -> Z -> Z ->
                 M (option ImageApi.ImageResponse))
    (ai : ImageApi.ImageParams -> M ImageApi.ImageResponse)
    (prompt : string) (w : World) :
  In (generate, withRetry) generateImage_with_retry ->
  let asked := withRetry (ai (ImageApi.request prompt)) 5%Z 2000%Z w in
  (exists image, fst (generate ai prompt w) = Return image) \/
  (exists e,
     generate ai prompt w
     = (Throw ImageApi.failed_image,
        logged (ImageApi.caught e) (snd asked)) /\
     match fst asked with
     | Throw e' => e = e'
     | Return None =>
         e = TypeError
               "Cannot read properties of undefined (reading 'candidates')"
     | Return (Some response) =>
         e = ImageApi.no_image /\
         forall p image,
           first_inline_part response p -> ~ carries_image p image
     end).
Proof.
  intros [[= <- <-] | [[= <- <-] | [[= <- <-] | []]]].
  - apply (generateImage_outcome status_429_or_503).
  - apply (generateImage_outcome status_429_or_503).
  - apply (generateImage_outcome status_429).
Qed.

(** A remote model that rejects the request: its error is what the
    console shows. *)
Lemma generateImage_failure_is_fixed_error_witness :
  let w := Examples.fresh (Examples.always "{}") in
  ChatService.generateImage (Examples.refuses Examples.bad_request)
    "a cat" w
  = (Throw ImageApi.failed_image,
     logged (ImageApi.caught Examples.bad_request) w).
Proof.
  intros w.
  destruct (generateImage_failure_is_fixed_error ChatService.generateImage
              (@ChatService.withRetry _)
              (Examples.refuses Examples.bad_request) "a cat" w
              ltac:(right; left; reflexivity))
    as [[image Himage] | (e & Hrun & He)]; [discriminate |].
  vm_compute in He. subst e. exact Hrun.
Defined.

(** ** The controllers *)

Section Controllers.
Import Express.

Lemma handleSendMessage_eq (req : Request) (w : World) :
  ChatController.handleSendMessage req w =
  if falsy (prompt (body req)) || falsy (sessionId (body req)) then
    (Return {| status := 400;
               json := error_payload
                         "A prompt and a sessionId are required." |}, w)
  else
    match ChatService.sendMessage (value (sessionId (body req)))
            (value (prompt (body req))) (file req) w with
    | (Return v, w') =>
        (Return {| status := 200; json := result_payload v |}, w')
    | (Throw e, w') =>
        (Return {| status := 500;
                   json := error_payload
                             (message_or e
                                "An internal server error occurred.") |},
         logged (controller_error e) w')
    end.
Proof.
  unfold ChatController.handleSendMessage, try_catch, bind.
  destruct (falsy (prompt (body req)) || falsy (sessionId (body req)));
    [reflexivity |].
  destruct (ChatService.sendMessage _ _ _ w) as [[v|e] w']; reflexivity.
Qed.

Lemma handleContentGeneration_eq (req : Request) (w : World) :
  ContentController.handleContentGeneration req w =
  if falsy (prompt (body req)) then
    (Return {| status := 400;
               json := error_payload "A prompt is required." |}, w)
  else
    match GeminiService.generateStructuredContent
            (value (prompt (body req))) (file req) w with
    | (Return v, w') =>
        (Return {| status := 200; json := result_payload v |}, w')
    | (Throw e, w') =>
        (Return {| status := 500;
                   json := error_payload
                             (message_or e
                                "An internal server error occurred.") |},
         logged (controller_error e) w')
    end.
Proof.
  unfold ContentController.handleContentGeneration, try_catch, bind.
  destruct (falsy (prompt (body req))); [reflexivity |].
  destruct (GeminiService.generateStructuredContent _ _ w)
    as [[v|e] w']; reflexivity.
Qed.

Lemma handleImageGeneration_eq
    (generate : (ImageApi.ImageParams -> M ImageApi.ImageResponse) ->
                string -> M string)
    (handle : (ImageApi.ImageParams -> M ImageApi.ImageResponse) ->
              Request -> M Reply)
    (ai : ImageApi.ImageParams -> M ImageApi.ImageResponse)
    (req : Request) (w : World) :
  (generate = ChatService.generateImage /\
   handle = ChatController.handleImageGeneration)
  \/ (generate = GeminiService.generateImage /\
      handle = ContentController.handleImageGeneration) ->
  handle ai req w =
  if falsy (prompt (body req)) then
    (Return {| status := 400;
               json := error_payload
                         "A prompt is required to generate an image." |},
     w)
  else
    match generate ai (value (prompt (body req))) w with
    | (Return image, w') =>
        (Return {| status := 200;
                   json := image_payload "Image generated successfully."
                             image |}, w')
    | (Throw e, w') =>
        (Return {| status := 500;
                   json := error_payload
                             (message_or e
                                "An internal server error occurred.") |},
         logged (controller_error e) w')
    end.
Proof.
  intros [[-> ->] | [-> ->]];
    unfold ChatController.handleImageGeneration,
      ContentController.handleImageGeneration, try_catch, bind;
    (destruct (falsy (prompt (body req))); [reflexivity |]).
  - destruct (ChatService.generateImage ai _ w) as [[v|e] w'];
      reflexivity.
  - destruct (GeminiService.generateImage ai _ w) as [[v|e] w'];
      reflexivity.
Qed.

End Controllers.

(** X13. [handleSendMessage] answers every request, and in one of three
    ways.  When the prompt or the session identifier is missing or empty
    it answers 400 without calling the service, so that nothing changes
    and a file staged for the request stays staged.  When [sendMessage]
    returns a result it answers 200 with that result.  When [sendMessage]
    raises an error it answers 500 with the message [Invalid session ID.
    Please start a new session.] or the message [Failed to get a structured
    response from the AI model.], and with no other. *)
Theorem handleSendMessage_replies (req : Express.Request) (w : World) :
  let run := ChatController.handleSendMessage req w in
  let missing :=
    Express.falsy (Express.prompt (Express.body req))
    || Express.falsy (Express.sessionId (Express.body req)) in
  let service :=
    ChatService.sendMessage
      (Express.value (Express.sessionId (Express.body req)))
      (Express.value (Express.prompt (Express.body req)))
      (Express.file req) w in
  exists reply,
    fst run = Return reply /\
    ((missing = true /\ snd run = w /\
      reply = {| Express.status := 400;
                 Express.json :=
                   Express.error_payload
                     "A prompt and a sessionId are required." |})
     \/
     (missing = false /\
      exists v,
        fst service = Return v /\ snd run = snd service /\
        reply = {| Express.status := 200;
                   Express.json := Express.result_payload v |})
     \/
     (missing = false /\
      exists message,
        reply = {| Express.status := 500;
                   Express.json := Express.error_payload message |} /\
        (message = "Invalid session ID. Please start a new session."
         \/ message
            = "Failed to get a structured response from the AI model."))).
Proof.
  cbn zeta. rewrite handleSendMessage_eq.
  destruct (Express.falsy _ || Express.falsy _) eqn:Hmissing.
  - eexists. split; [reflexivity |]. left. auto.
  - destruct (ChatService.sendMessage _ _ _ w) as [[v|e] w'] eqn:Hrun.
    + eexists. split; [reflexivity |]. right. left.
      split; [reflexivity |]. exists v. auto.
    + eexists. split; [reflexivity |]. right. right.
      split; [reflexivity |].
      assert (He : fst (ChatService.sendMessage
                          (Express.value
                             (Express.sessionId (Express.body req)))
                          (Express.value (Express.prompt (Express.body req)))
                          (Express.file req) w) = Throw e)
        by now rewrite Hrun.
      destruct (sendMessage_outcome
                  (Express.value (Express.sessionId (Express.body req)))
                  (Express.value (Express.prompt (Express.body req)))
                  (Express.file req) w)
        as [(_ & _ & Heq) | (_ & n & r & w1 & c & _ & _ & _ & _
                             & [(v & Hv & _) | Hf])].
      * rewrite Heq in He. cbn in He. injection He as <-.
        eexists. split; [reflexivity |]. left. reflexivity.
      * congruence.
      * rewrite Hf in He. injection He as <-.
        eexists. split; [reflexivity |]. right. reflexivity.
Qed.

(** X14. [handleContentGeneration] answers every request: 400 when the
    prompt is missing or empty, without calling the service, so that a
    file staged for the request stays staged; 200 with the result of
    [generateStructuredContent]; or 500 with the message [Failed to
    generate a structured response from the AI model.] and no other.  When
    the prompt is there and the staged file of the attachment exists, that
    file is gone after the answer, whatever the answer is. *)
Theorem handleContentGeneration_replies (req : Express.Request)
    (w : World) :
  let run := ContentController.handleContentGeneration req w in
  let missing := Express.falsy (Express.prompt (Express.body req)) in
  let service :=
    GeminiService.generateStructuredContent
      (Express.value (Express.prompt (Express.body req)))
      (Express.file req) w in
  exists reply,
    fst run = Return reply /\
    ((missing = true /\ snd run = w /\
      reply = {| Express.status := 400;
                 Express.json :=
                   Express.error_payload "A prompt is required." |})
     \/
     (missing = false /\
      (forall f bytes,
         Express.file req = Some f ->
         staged w !! staged_path w f = Some bytes ->
         staged (snd run) !! staged_path w f = None) /\
      ((exists v,
          fst service = Return v /\ snd run = snd service /\
          reply = {| Express.status := 200;
                     Express.json := Express.result_payload v |})
       \/
       reply = {| Express.status := 500;
                  Express.json :=
                    Express.error_payload
                      "Failed to generate a structured response from the AI model." |}))).
Proof.
  cbn zeta. rewrite handleContentGeneration_eq.
  destruct (Express.falsy _) eqn:Hmissing.
  - eexists. split; [reflexivity |]. left. auto.
  - set (p := Express.value (Express.prompt (Express.body req))).
    destruct (generateStructuredContent_outcome p (Express.file req) w)
      as (n & attached & w1 & c & Hattach & Hstaged & _ & _ & Hres).
    cbn zeta in Hstaged, Hres.
    assert (Hgone : forall w',
              staged w' = staged (snd (GeminiService.generateStructuredContent
                                         p (Express.file req) w)) ->
              forall f bytes,
                Express.file req = Some f ->
                staged w !! staged_path w f = Some bytes ->
                staged w' !! staged_path w f = None).
    { intros w' Hw' f bytes Hf Hbytes. rewrite Hw', Hstaged.
      rewrite Hf, attach_some in Hattach. unfold staged_path in *.
      rewrite Hbytes in Hattach. injection Hattach as _ <-.
      cbn. apply lookup_delete_eq. }
    destruct (GeminiService.generateStructuredContent p (Express.file req) w)
      as [[v|e] w'] eqn:Hrun; cbn [fst snd] in *.
    + eexists. split; [reflexivity |]. right.
      split; [reflexivity |]. split; [now apply Hgone |].
      left. exists v. auto.
    + eexists. split; [reflexivity |]. right.
      split; [reflexivity |]. split; [now apply Hgone |].
      right. destruct Hres as [(v & Hv & _) | Hf]; [discriminate |].
      injection Hf as ->. reflexivity.
Qed.

(** A request with a prompt and a staged file, which the remote model
    rejects: the answer is 500 and the file is gone. *)
Lemma handleContentGeneration_replies_witness :
  let w := Examples.with_notes (fun _ _ => Throw Examples.bad_request) in
  let req :=
    {| Express.file := Some Examples.notes;
       Express.body := {| Express.prompt := Some "sum up";
                          Express.sessionId := None |} |} in
  let run := ContentController.handleContentGeneration req w in
  staged w !! staged_path w Examples.notes = Some "Newton" /\
  staged (snd run) !! staged_path w Examples.notes = None.
Proof.
  intros w req run.
  assert (Hfile : staged w !! staged_path w Examples.notes = Some "Newton")
    by (vm_compute; reflexivity).
  split; [exact Hfile |].
  destruct (handleContentGeneration_replies req w)
    as (reply & _ & [(Hmissing & _) | (_ & Hgone & _)]);
    [discriminate |].
  exact (Hgone Examples.notes "Newton" eq_refl Hfile).
Defined.

(** X15. [handleStartSession] answers 200 with the new session identifier,
    and a message with a prompt that [handleSendMessage] is then asked to
    send on that identifier is answered, and neither with 400 nor with the
    message of an invalid session, whatever sessions were started, messages
    sent and files staged in between, short of starting that identifier
    anew. *)
Theorem started_session_is_accepted (uuid : string)
    (req0 : Express.Request) (w : World) (calls : list Call)
    (p : string) (file : option UploadedFile) :
  let started := ChatController.handleStartSession uuid req0 w in
  let req :=
    {| Express.file := file;
       Express.body := {| Express.prompt := Some p;
                          Express.sessionId := Some uuid |} |} in
  uuid <> EmptyString -> p <> EmptyString ->
  ~ In (start_session uuid) calls ->
  fst started
  = Return {| Express.status := 200;
              Express.json :=
                Express.session_payload
                  "New chat session started successfully." uuid |} /\
  exists reply,
    fst (ChatController.handleSendMessage req
           (run_calls calls (snd started))) = Return reply /\
    Express.status reply <> 400%Z /\
    Express.json reply
    <> Express.error_payload
         "Invalid session ID. Please start a new session.".
Proof.
  intros started req Huuid Hp Hcalls. subst started.
  split; [reflexivity |].
  set (w1 := snd (ChatController.handleStartSession uuid req0 w)) in *.
  assert (Hnew : chatHistories w1 !! uuid = Some [])
    by (cbn; apply lookup_insert_eq).
  destruct (run_calls_history_grows calls w1 uuid [] Hcalls Hnew)
    as [more Hmore].
  set (w2 := run_calls calls w1) in *.
  rewrite handleSendMessage_eq.
  change (Express.value (Express.sessionId (Express.body req))) with uuid.
  change (Express.value (Express.prompt (Express.body req))) with p.
  change (Express.file req) with file.
  change (Express.falsy (Express.prompt (Express.body req)))
    with (String.eqb p EmptyString).
  change (Express.falsy (Express.sessionId (Express.body req)))
    with (String.eqb uuid EmptyString).
  destruct (String.eqb_spec p EmptyString); [contradiction |].
  destruct (String.eqb_spec uuid EmptyString); [contradiction |].
  cbn [orb].
  destruct (sendMessage_outcome uuid p file w2)
    as [(Hnone & _) | (_ & k & r & w3 & c & _ & _ & _ & _ & Hres)].
  { rewrite Hmore in Hnone. discriminate. }
  destruct (ChatService.sendMessage uuid p file w2) as [[v|e] w'];
    cbn [fst snd] in *.
  - eexists. split; [reflexivity |]. cbn. split; discriminate.
  - destruct Hres as [(v & Hv & _) | Hf]; [discriminate |].
    injection Hf as ->.
    eexists. split; [reflexivity |]. cbn. split; discriminate.
Qed.

(** A session is started, an upload is staged, then a message is sent on
    the session. *)
Lemma started_session_is_accepted_witness :
  let w := Examples.fresh (Examples.always "{}") in
  let req0 :=
    {| Express.file := None;
       Express.body := {| Express.prompt := None;
                          Express.sessionId := None |} |} in
  let req :=
    {| Express.file := None;
       Express.body := {| Express.prompt := Some "hello";
                          Express.sessionId := Some Examples.uuid |} |} in
  let started := ChatController.handleStartSession Examples.uuid req0 w in
  exists reply,
    fst (ChatController.handleSendMessage req
           (run_calls [stage_file "77aa" "other"] (snd started)))
    = Return reply /\
    Express.status reply <> 400%Z.
Proof.
  intros w req0 req started.
  assert (Hcalls : ~ In (start_session Examples.uuid)
                        [stage_file "77aa" "other"])
    by (intros [H | []]; discriminate).
  destruct (proj2 (started_session_is_accepted Examples.uuid req0 w
                     [stage_file "77aa" "other"] "hello" None
                     ltac:(discriminate) ltac:(discriminate) Hcalls))
    as (reply & Hreply & Hstatus & _).
  exists reply. split; [exact Hreply | exact Hstatus].
Defined.

(** X16. Both controllers of image generation answer every request: 400
    when the prompt is missing or empty, without asking the remote model
    and without changing anything; 200 with the image [generateImage]
    returned; or 500 with the message [Failed to generate image from the AI
    model.] and no other. *)
Theorem handleImageGeneration_replies
    (handle : (ImageApi.ImageParams -> M ImageApi.ImageResponse) ->
              Express.Request -> M Express.Reply)
    (ai : ImageApi.ImageParams -> M ImageApi.ImageResponse)
    (req : Express.Request) (w : World) :
  In handle [ ChatController.handleImageGeneration;
              ContentController.handleImageGeneration ] ->
  let run := handle ai req w in
  let missing := Express.falsy (Express.prompt (Express.body req)) in
  exists reply,
    fst run = Return reply /\
    ((missing = true /\ snd run = w /\
      reply = {| Express.status := 400;
                 Express.json :=
                   Express.error_payload
                     "A prompt is required to generate an image." |})
     \/
     (missing = false /\
      ((exists image,
          image <> EmptyString /\
          reply = {| Express.status := 200;
                     Express.json :=
                       Express.image_payload
                         "Image generated successfully." image |})
       \/
       reply = {| Express.status := 500;
                  Express.json :=
                    Express.error_payload
                      "Failed to generate image from the AI model." |}))).
Proof.
  intros Hhandle. cbn zeta.
  assert (Hcase : exists generate,
            In generate generateImage_copies /\
            ((generate = ChatService.generateImage /\
              handle = ChatController.handleImageGeneration)
             \/ (generate = GeminiService.generateImage /\
                 handle = ContentController.handleImageGeneration))).
  { destruct Hhandle as [<- | [<- | []]].
    - exists ChatService.generateImage. split; [right; left |]; auto.
    - exists GeminiService.generateImage. split; [left |]; auto. }
  destruct Hcase as (generate & Hcopy & Hpair).
  rewrite (handleImageGeneration_eq generate handle ai req w Hpair).
  destruct (Express.falsy _) eqn:Hmissing.
  - eexists. split; [reflexivity |]. left. auto.
  - set (p := Express.value (Express.prompt (Express.body req))).
    pose proof (generateImage_returns_nonempty generate ai p w Hcopy) as Hne.
    destruct (generateImage_copy generate Hcopy) as [retryable Hgen].
    pose proof (generateImage_fails retryable ai p w) as Hfail.
    rewrite <- Hgen in Hfail.
    destruct (generate ai p w) as [[image|e] w'] eqn:Hrun; cbn [fst snd] in *.
    + eexists. split; [reflexivity |]. right. split; [reflexivity |].
      left. exists image. split; [now apply Hne | reflexivity].
    + eexists. split; [reflexivity |]. right. split; [reflexivity |].
      right. destruct Hfail as [[image Himage] | [Hf _]]; [discriminate |].
      injection Hf as ->. reflexivity.
Qed.

(** A request without a prompt is answered 400 and changes nothing. *)
Lemma handleImageGeneration_replies_witness :
  let w := Examples.fresh (Examples.always "{}") in
  let req :=
    {| Express.file := None;
       Express.body := {| Express.prompt := Some EmptyString;
                          Express.sessionId := None |} |} in
  let run :=
    ChatController.handleImageGeneration
      (Examples.paints (Examples.painted [Examples.png "iVBOR"])) req w in
  exists reply,
    fst run = Return reply /\ Express.status reply = 400%Z /\ snd run = w.
Proof.
  intros w req run.
  destruct (handleImageGeneration_replies
              ChatController.handleImageGeneration
              (Examples.paints (Examples.painted [Examples.png "iVBOR"]))
              req w ltac:(left; reflexivity))
    as (reply & Hreply & [(_ & Hw & ->) | (Hmissing & _)]);
    [| discriminate].
  exists {| Express.status := 400;
            Express.json :=
              Express.error_payload
                "A prompt is required to generate an image." |}.
  split; [exact Hreply |]. split; [reflexivity | exact Hw].
Defined.

(** ** Attachments *)

Section Base64Facts.

#[local] Ltac Zify.zify_post_hook ::= Z.to_euclidean_division_equations.

Lemma digit_value (n : N) :
  (n < 64)%N ->
  Rfc4648.value_of (Base64.digit n) = Some n /\
  Ascii.eqb (Base64.digit n) "=" = false.
Proof.
  intros Hn.
  assert (Hall : forallb
                   (fun k =>
                      match Rfc4648.value_of (Base64.digit (N.of_nat k)) with
                      | Some m => N.eqb m (N.of_nat k)
                      | None => false
                      end
                      && negb (Ascii.eqb (Base64.digit (N.of_nat k)) "="))
                   (seq 0 64) = true) by (vm_compute; reflexivity).
  pose proof (proj1 (List.forallb_forall _ _) Hall (N.to_nat n)) as H.
  cbn beta in H. rewrite N2Nat.id in H.
  assert (Hin : In (N.to_nat n) (seq 0 64)) by (apply in_seq; lia).
  specialize (H Hin). apply andb_true_iff in H as [Hv He].
  destruct (Rfc4648.value_of (Base64.digit n)) as [m|]; [| discriminate].
  apply N.eqb_eq in Hv as ->.
  split; [reflexivity |]. now apply negb_true_iff.
Qed.

Lemma triples_ind (P : list N -> Prop) :
  P [] -> (forall a, P [a]) -> (forall a b, P [a; b]) ->
  (forall a b c rest, P rest -> P (a :: b :: c :: rest)) ->
  forall l, P l.
Proof.
  intros H0 H1 H2 H3 l.
  enough (H : P l /\ (forall a, P (a :: l)) /\ (forall a b, P (a :: b :: l)))
    by apply H.
  induction l as [|x l (IH0 & IH1 & IH2)]; [auto |].
  split; [apply IH1 |]. split; [intros a; apply IH2 |].
  intros a b. now apply H3.
Qed.

Lemma decode_encode_bytes (l : list N) :
  Forall (fun a => (a < 256)%N) l ->
  Rfc4648.decode_chars (list_ascii_of_string (Base64.encode_bytes l))
  = Some l.
Proof.
  induction l as [| a | a b | a b c rest IH] using triples_ind; intros Hl.
  - reflexivity.
  - apply Forall_cons_1 in Hl as [Ha _].
    cbn [Base64.encode_bytes list_ascii_of_string
         Rfc4648.decode_chars].
    destruct (digit_value (a / 4)) as [-> _]; [lia |].
    destruct (digit_value ((a mod 4) * 16)) as [-> _]; [lia |].
    cbn. do 2 f_equal. lia.
  - apply Forall_cons_1 in Hl as [Ha Hl].
    apply Forall_cons_1 in Hl as [Hb _].
    cbn [Base64.encode_bytes list_ascii_of_string
         Rfc4648.decode_chars].
    destruct (digit_value (a / 4)) as [-> _]; [lia |].
    destruct (digit_value ((a mod 4) * 16 + b / 16)) as [-> _]; [lia |].
    destruct (digit_value ((b mod 16) * 4)) as [-> ->]; [lia |].
    cbn [Ascii.eqb Bool.eqb]. cbn match.
    f_equal. f_equal; [lia |]. f_equal. lia.
  - apply Forall_cons_1 in Hl as [Ha Hl].
    apply Forall_cons_1 in Hl as [Hb Hl].
    apply Forall_cons_1 in Hl as [Hc Hl].
    cbn [Base64.encode_bytes list_ascii_of_string
         Rfc4648.decode_chars].
    destruct (digit_value (a / 4)) as [-> _]; [lia |].
    destruct (digit_value ((a mod 4) * 16 + b / 16)) as [-> _]; [lia |].
    destruct (digit_value ((b mod 16) * 4 + c / 64)) as [-> _]; [lia |].
    destruct (digit_value (c mod 64)) as [-> ->]; [lia |].
    rewrite (IH Hl).
    f_equal. f_equal; [lia |]. f_equal; [lia |]. f_equal. lia.
Qed.

Lemma decode_encode (bytes : string) :
  Rfc4648.decode (Base64.encode bytes) = Some bytes.
Proof.
  unfold Rfc4648.decode, Base64.encode.
  rewrite decode_encode_bytes.
  - rewrite map_map.
    rewrite (map_ext _ (fun a => a) ascii_N_embedding), map_id.
    now rewrite string_of_list_ascii_of_string.
  - apply List.Forall_forall. intros n Hin.
    apply in_map_iff in Hin as (a & <- & _). apply N_ascii_bounded.
Qed.

End Base64Facts.

Lemma encode_length (bytes : string) :
  String.length (Base64.encode bytes)
  = 4 * ((String.length bytes + 2) / 3).
Proof.
  unfold Base64.encode.
  assert (Hlen : String.length bytes
                 = length (map N_of_ascii (list_ascii_of_string bytes))).
  { rewrite length_map.
    induction bytes as [|c bytes IH]; cbn; congruence. }
  rewrite Hlen.
  generalize (map N_of_ascii (list_ascii_of_string bytes)). intros l.
  induction l as [| a | a b | a b c rest IH] using triples_ind;
    try reflexivity.
  cbn [Base64.encode_bytes String.length length]. rewrite IH.
  replace (S (S (S (length rest))) + 2) with (length rest + 2 + 1 * 3)
    by lia.
  rewrite Nat.div_add by lia. lia.
Qed.

(** ** Requests *)

Lemma oneshot_request_form (prompt : string) (turns : list Content) :
  asks_for_json_object (GeminiService.request prompt turns).
Proof.
  unfold asks_for_json_object.
  rewrite oneshot_schema.
  unfold GeminiService.request.
  generalize (GeminiService.detectContentType prompt). intros label.
  unfold GeminiService.select.
  destruct (String.eqb label "lessonPlan");
    [| destruct (String.eqb label "assignment");
       [| destruct (String.eqb label "quiz");
          [| destruct (String.eqb label "lecture")]]];
    (split; [reflexivity |]; split; [reflexivity |];
     split; [eexists _, _; reflexivity | reflexivity]).
Qed.

Lemma session_request_form (prompt : string) (turns : list Content) :
  asks_for_json_object (ChatService.request prompt turns).
Proof.
  unfold asks_for_json_object.
  rewrite session_schema.
  unfold ChatService.request.
  generalize (ChatService.detectContentType prompt). intros label.
  unfold ChatService.select.
  destruct (String.eqb label "presentation");
    [| destruct (String.eqb label "document")];
    (split; [reflexivity |]; split; [reflexivity |];
     split; [eexists _, _; reflexivity | reflexivity]).
Qed.

Lemma sendMessage_sends (sessionId prompt : string)
    (file : option UploadedFile) (w : World) (req : GenerateContentParams) :
  In req (requests_of w
            (snd (ChatService.sendMessage sessionId prompt file w))) ->
  exists turns, req = ChatService.request prompt turns.
Proof.
  intros Hin.
  assert (Hnone : forall c w1 entry,
            attach file w = (c, w1) ->
            ~ In req (requests_of w (logged entry w1))).
  { intros c w1 entry Hattach.
    destruct (attach_frame _ _ _ _ Hattach) as (_ & _ & _ & Hsent & _).
    unfold requests_of. cbn. rewrite Hsent, drop_all. auto. }
  destruct (get_history_cases sessionId w)
    as [(h & Hh & _) | [(_ & _ & Hget) | (_ & _ & Hget)]].
  - destruct (sendMessage_run sessionId prompt file w h Hh)
      as [(e & w1 & Hattach & Hrun) | (attached & w1 & m & _ & Hrun)].
    + rewrite Hrun in Hin. cbn [snd] in Hin.
      now apply (Hnone _ _ _ Hattach) in Hin.
    + cbn zeta in Hrun. destruct Hrun as (_ & _ & Hsent & _).
      rewrite (requests_of_app _ _ _ Hsent) in Hin.
      apply repeat_spec in Hin. eauto.
  - rewrite (sendMessage_inherited _ _ _ _ Hget) in Hin.
    destruct (attach file w) as [[attached|e] w1] eqn:Hattach;
      cbn [snd] in Hin; now apply (Hnone _ _ _ eq_refl) in Hin.
  - rewrite (sendMessage_undefined _ _ _ _ Hget) in Hin. cbn [snd] in Hin.
    unfold requests_of in Hin. rewrite drop_all in Hin. destruct Hin.
Qed.

(** X18. Whatever the prompt, the attachment and the state of the
    process, a request that [generateStructuredContent] or [sendMessage]
    sends to the remote model names the model [gemini-2.5-pro], asks for
    [application/json], and gives as response schema an object that, at
    every depth, requires only properties it declares. *)
Theorem requests_ask_for_json_objects (sessionId prompt : string)
    (file : option UploadedFile) (w : World) (req : GenerateContentParams) :
  In req (requests_of w
            (snd (GeminiService.generateStructuredContent prompt file w)))
  \/ In req (requests_of w
               (snd (ChatService.sendMessage sessionId prompt file w))) ->
  asks_for_json_object req.
Proof.
  intros [Hin | Hin].
  - destruct (generateStructuredContent_outcome prompt file w)
      as (n & attached & w1 & c & _ & _ & _ & Hreqs & _).
    cbn zeta in Hreqs. rewrite Hreqs in Hin.
    apply repeat_spec in Hin as ->. apply oneshot_request_form.
  - apply sendMessage_sends in Hin as [turns ->].
    apply session_request_form.
Qed.

(** The request of a one-shot call on a fresh process. *)
Lemma requests_ask_for_json_objects_witness :
  asks_for_json_object Examples.ping.
Proof.
  apply (requests_ask_for_json_objects Examples.uuid "hello" None
           (Examples.fresh (Examples.always "{}")) Examples.ping).
  left. vm_compute. left. reflexivity.
Defined.

(** X19. For every label and every prompt, the switch of [chatbot.js] and
    the switch of the one-shot service of [geminiService.js] select
    schemas of the same shape: the same types, the same names of
    properties in the same order and the same required names; the schemas
    differ in their descriptions only. *)
Theorem chatbot_and_service_select_same_shape (contentType prompt : string) :
  shape (fst (Chatbot.select contentType prompt))
  = shape (fst (GeminiService.select contentType prompt)).
Proof.
  unfold Chatbot.select, GeminiService.select.
  destruct (String.eqb contentType "lessonPlan");
    [| destruct (String.eqb contentType "assignment");
       [| destruct (String.eqb contentType "quiz");
          [| destruct (String.eqb contentType "lecture")]]];
    reflexivity.
Qed.

(** ** The histories of the sessions *)

Lemma replies_follow_users_spec (history : list Content) (previous : Role) :
  replies_follow_users previous history = true ->
  (previous = model -> begins_with_user history) /\
  ~ consecutive_model_turns history.
Proof.
  revert previous.
  induction history as [|t history IH]; intros previous H.
  - split; [intros _ turn rest; discriminate |].
    intros (before & a & b & after & Heq & _).
    now destruct before.
  - cbn in H. split.
    + intros -> turn rest [= <- <-].
      destruct (role t); [reflexivity | discriminate].
    + intros (before & a & b & after & Heq & Ha & Hb).
      destruct before as [|t' before].
      * injection Heq as -> ->. rewrite Ha in H.
        destruct previous; [| discriminate].
        cbn in H. rewrite Hb in H. discriminate.
      * injection Heq as -> ->.
        assert (Hrest : exists p,
                  replies_follow_users p (before ++ a :: b :: after)
                  = true)
          by (destruct (role t'), previous; eauto; discriminate).
        destruct Hrest as [p Hp].
        apply (proj2 (IH p Hp)). now exists before, a, b, after.
Qed.

(** X21. The history of a session is only ever appended to: whatever
    sessions are started, messages sent and files staged, and whether the
    messages succeed or fail, short of starting the same identifier anew,
    the turns a session holds stay in its history, in their places. *)
Theorem session_history_only_grows (calls : list Call) (w : World)
    (sessionId : string) (history : list Content) :
  ~ In (start_session sessionId) calls ->
  chatHistories w !! sessionId = Some history ->
  exists history',
    chatHistories (run_calls calls w) !! sessionId = Some history' /\
    length history <= length history' /\
    forall i turn, history !! i = Some turn -> history' !! i = Some turn.
Proof.
  intros Hcalls Hh.
  destruct (run_calls_history_grows calls w sessionId history Hcalls Hh)
    as [more Hmore].
  exists (history ++ more)%list. split; [exact Hmore |].
  split; [rewrite length_app; lia |].
  intros i turn Hi. now apply lookup_app_l_Some.
Qed.

(** A second message on a session keeps the turns of the first. *)
Lemma session_history_only_grows_witness :
  let w := run_calls [ start_session Examples.uuid;
                       send_message Examples.uuid "first" None ]
             (Examples.fresh (Examples.always "{}")) in
  exists history',
    chatHistories
      (run_calls [send_message Examples.uuid "second" None] w)
      !! Examples.uuid = Some history' /\
    history' !! 0 = Some (user_turn "first" []).
Proof.
  intros w.
  assert (Hcalls : ~ In (start_session Examples.uuid)
                        [send_message Examples.uuid "second" None])
    by (intros [H | []]; discriminate).
  assert (Hh : chatHistories w !! Examples.uuid
               = Some [user_turn "first" []; model_turn "{}"])
    by (vm_compute; reflexivity).
  destruct (session_history_only_grows _ w Examples.uuid _ Hcalls Hh)
    as (history' & Hnow & _ & Hkeeps).
  exists history'. split; [exact Hnow |].
  now apply Hkeeps.
Defined.

(** ** Calls of [sendMessage] that overlap *)

Section InterleavedFacts.
Import ChatService Interleaved.

Lemma histories_grow_refl (w : World) : histories_grow w w.
Proof. intros sid h Hh. exists []. now rewrite app_nil_r. Qed.

Lemma histories_grow_trans (w1 w2 w3 : World) :
  histories_grow w1 w2 -> histories_grow w2 w3 -> histories_grow w1 w3.
Proof.
  intros H12 H23 sid h Hh.
  destruct (H12 sid h Hh) as [m1 H1].
  destruct (H23 sid _ H1) as [m2 H2].
  exists (m1 ++ m2)%list. now rewrite H2, app_assoc.
Qed.

Lemma histories_grow_same (w w' : World) :
  chatHistories w' = chatHistories w -> histories_grow w w'.
Proof. intros H sid h Hh. exists []. now rewrite H, app_nil_r. Qed.

Lemma histories_grow_push (w w' : World) (sid : string)
    (h more : list Content) :
  chatHistories w !! sid = Some h ->
  chatHistories w' = <[sid := (h ++ more)%list]> (chatHistories w) ->
  histories_grow w w'.
Proof.
  intros Hh Hw' s h' Hs. rewrite Hw'.
  destruct (decide (sid = s)) as [<- | Hne].
  - rewrite lookup_insert_eq. rewrite Hh in Hs. injection Hs as <-.
    eauto.
  - rewrite lookup_insert_ne by assumption. exists [].
    now rewrite app_nil_r.
Qed.

Lemma own_requests_sent (a b : World) (l : list GenerateContentParams) :
  sent b = (sent a ++ l)%list -> own_requests (a, b) = l.
Proof. intros H. unfold own_requests. now apply requests_of_app. Qed.

Lemma own_requests_none (a b : World) :
  sent b = sent a -> own_requests (a, b) = [].
Proof.
  intros H. apply own_requests_sent. now rewrite app_nil_r.
Qed.

(** *** The steps, one by one *)

Lemma iteration_own (sid p : string) (k : nat) (w : World)
    (h : list Content) :
  chatHistories w !! sid = Some h -> k < 5 ->
  iteration sid p k w =
  (suspended
     {| sessionId := sid; prompt := p; attempt := k;
        waiting :=
          for_answer (upstream w (length (sent w)) (request p h)) |},
   set_sent (sent w ++ [request p h]) w).
Proof.
  intros Hh Hk. unfold iteration, maxRetries.
  rewrite (proj2 (Z.ltb_lt _ _)) by lia.
  rewrite (ask_sends sid p h (chatHistories w) Hh w eq_refl).
  reflexivity.
Qed.

Lemma begin_own (sid p : string) (file : option UploadedFile)
    (w : World) (h : list Content) :
  chatHistories w !! sid = Some h ->
  begin sid p file w =
  match attach file w with
  | (Throw e, w1) => fails sid e w1
  | (Return attached, w1) =>
      let asked := (h ++ [user_turn p attached])%list in
      let w2 :=
        set_chatHistories (<[sid := asked]> (chatHistories w1)) w1 in
      (suspended
         {| sessionId := sid; prompt := p; attempt := 0;
            waiting :=
              for_answer
                (upstream w (length (sent w)) (request p asked)) |},
       set_sent (sent w ++ [request p asked]) w2)
  end.
Proof.
  intros Hh. unfold begin.
  rewrite (get_history_own _ _ _ Hh). cbn [truthy negb].
  unfold bind.
  destruct (attach file w) as [[attached|e] w1] eqn:Hattach;
    [| reflexivity].
  destruct (attach_frame _ _ _ _ Hattach) as (Hc & _ & Hup & Hsent & _).
  unfold history_push.
  rewrite (get_history_own sid w1 h) by now rewrite Hc.
  cbn zeta.
  rewrite (iteration_own sid p 0 _ (h ++ [user_turn p attached]));
    [| cbn; apply lookup_insert_eq | lia].
  cbn [upstream sent set_chatHistories]. now rewrite Hup, Hsent.
Qed.

(** A call on an identifier that names no session ends at once, has
    sent nothing and has left the histories as they were. *)
Lemma begin_unknown (sid p : string) (file : option UploadedFile)
    (w : World) :
  chatHistories w !! sid = None ->
  exists e w',
    begin sid p file w = (finished (Throw e), w') /\
    (e = invalid_session \/ e = failed_response) /\
    chatHistories w' = chatHistories w /\ sent w' = sent w.
Proof.
  intros Hnone. unfold begin.
  destruct (get_history_cases sid w)
    as [(h & Hh & _) | [(_ & _ & Hget) | (_ & _ & Hget)]];
    [congruence | |]; rewrite Hget; cbn [truthy negb].
  - unfold bind.
    destruct (attach file w) as [[attached|e] w1] eqn:Hattach;
      destruct (attach_frame _ _ _ _ Hattach) as (Hc & _ & _ & Hsent & _).
    + unfold history_push. unfold get_history in *. rewrite Hc, Hnone in *.
      destruct (bool_decide _); [| discriminate].
      eexists _, _. split; [reflexivity |]. cbn. auto.
    + eexists _, _. split; [reflexivity |]. cbn. auto.
  - eexists _, _. split; [reflexivity |]. auto.
Qed.

Lemma conclude_own (sid : string) (resp : Response) (w : World)
    (h : list Content) :
  chatHistories w !! sid = Some h ->
  conclude sid resp w =
  match Json.parse_text (text resp) with
  | Return v =>
      (finished (Return v),
       set_chatHistories
         (<[sid := (h ++ [model_turn (default EmptyString (text resp))])%list]>
            (chatHistories w)) w)
  | Throw e => fails sid e w
  end.
Proof.
  intros Hh. unfold conclude, bind, result_text, ret, lift.
  destruct (Json.parse_text (text resp)) as [v|e]; [| reflexivity].
  unfold history_push. now rewrite (get_history_own _ _ _ Hh).
Qed.

(** *** The call that nothing interrupts *)

Lemma conclude_eq (sid : string) (resp : Response) (w : World) :
  conclude sid resp w =
  match Json.parse_text (text resp) with
  | Throw e => fails sid e w
  | Return v =>
      match history_push sid
              (model_turn (default EmptyString (text resp))) w with
      | (Return _, w4) => (finished (Return v), w4)
      | (Throw e, w4) => fails sid e w4
      end
  end.
Proof.
  unfold conclude, bind, result_text, ret, lift.
  destruct (Json.parse_text (text resp)) as [v|e]; [| reflexivity].
  destruct (history_push sid _ w) as [[[]|e] w4]; reflexivity.
Qed.

Lemma alone_loop (sid p : string) (remaining : nat) :
  forall (k fuel : nat) (w : World) (h : list Content),
    chatHistories w !! sid = Some h ->
    k + remaining = 5 -> 1 <= remaining -> 2 * remaining <= S fuel ->
    alone fuel (iteration sid p k w)
    = Some
        match retry_loop status_429_or_503 (ask sid p) 5 2000
                remaining k w with
        | (Throw e, w3) => (Throw failed_response, logged (caught sid e) w3)
        | (Return None, w3) =>
            (Throw failed_response,
             logged
               (caught sid
                  (TypeError
                     "Cannot read properties of undefined (reading 'text')"))
               w3)
        | (Return (Some resp), w3) =>
            match Json.parse_text (text resp) with
            | Throw e =>
                (Throw failed_response, logged (caught sid e) w3)
            | Return v =>
                match history_push sid
                        (model_turn (default EmptyString (text resp)))
                        w3 with
                | (Return _, w4) => (Return v, w4)
                | (Throw e, w4) =>
                    (Throw failed_response, logged (caught sid e) w4)
                end
            end
        end.
Proof.
  induction remaining as [|remaining IH];
    intros k fuel w h Hh Hk Hone Hfuel; [lia |].
  rewrite (iteration_own sid p k w h Hh) by lia.
  rewrite retry_loop_step.
  rewrite (ask_sends sid p h (chatHistories w) Hh w eq_refl).
  unfold generateContent.
  set (w1 := set_sent (sent w ++ [request p h]) w).
  destruct fuel as [|fuel]; [lia |]. cbn [alone].
  unfold resume. cbn [waiting sessionId prompt attempt].
  destruct (upstream w (length (sent w)) (request p h)) as [resp|e].
  - rewrite conclude_eq.
    destruct (Json.parse_text (text resp)) as [v|e];
      [| now destruct fuel].
    destruct (history_push sid _ w1) as [[[]|e] w4]; now destruct fuel.
  - destruct (status_429_or_503 e); [| now destruct fuel].
    unfold maxRetries.
    destruct (Z.of_nat k =? 5 - 1)%Z eqn:Hlast; [now destruct fuel |].
    apply Z.eqb_neq in Hlast.
    destruct fuel as [|fuel]; [lia |]. cbn [alone].
    unfold resume. cbn [waiting sessionId prompt attempt].
    apply (IH (S k) fuel _ h); [exact Hh | lia | lia | lia].
Qed.

(** The steps of a call, taken one after the other, are the call of
    [ChatService.sendMessage]. *)
Lemma alone_sendMessage (sid p : string) (file : option UploadedFile)
    (w : World) :
  alone 9 (begin sid p file w) = Some (sendMessage sid p file w).
Proof.
  destruct (get_history_cases sid w)
    as [(h & Hh & _) | [(Hnone & _ & Hget) | (Hnone & _ & Hget)]].
  - rewrite (sendMessage_own _ _ _ _ _ Hh). unfold begin.
    rewrite (get_history_own _ _ _ Hh). cbn [truthy negb]. unfold bind.
    destruct (attach file w) as [[attached|e] w1] eqn:Hattach;
      [| reflexivity].
    destruct (attach_frame _ _ _ _ Hattach) as (Hc & _).
    unfold history_push at 1.
    rewrite (get_history_own sid w1 h) by now rewrite Hc.
    cbn zeta.
    apply (alone_loop sid p 5 0 9 _ (h ++ [user_turn p attached]));
      [cbn; apply lookup_insert_eq | lia | lia | lia].
  - rewrite (sendMessage_inherited _ _ _ _ Hget). unfold begin.
    rewrite Hget. cbn [truthy negb]. unfold bind.
    destruct (attach file w) as [[attached|e] w1] eqn:Hattach;
      [| reflexivity].
    destruct (attach_frame _ _ _ _ Hattach) as (Hc & _).
    unfold history_push. unfold get_history in *. rewrite Hc, Hnone in *.
    destruct (bool_decide _); [reflexivity | discriminate].
  - rewrite (sendMessage_undefined _ _ _ _ Hget). unfold begin.
    rewrite Hget. reflexivity.
Qed.

Lemma alone_continues (fuel : nat) :
  forall (call : Suspended) (w w' : World) (r : Completion Json.value),
    alone fuel (suspended call, w) = Some (r, w') ->
    exists steps,
      continues call w steps r w' /\
      forall sid, undisturbed sid w steps.
Proof.
  induction fuel as [|fuel IH]; intros call w w' r H; [discriminate |].
  cbn [alone] in H.
  destruct (resume call w) as [[r1|call'] w1] eqn:Hstep.
  - assert (H' : Some (r1, w1) = Some (r, w')) by now destruct fuel.
    injection H' as <- <-. exists [(w, w1)].
    split; [apply continues_last; [apply histories_grow_refl | exact Hstep] |].
    intros sid. cbn. auto.
  - destruct (IH _ _ _ _ H) as (steps & Hsteps & Hquiet).
    exists ((w, w1) :: steps).
    split; [eapply continues_more; eauto using histories_grow_refl |].
    intros sid. cbn. auto.
Qed.

(** A call of [ChatService.sendMessage] is the run of a call that
    nothing disturbs. *)
Lemma runs_alone (sid p : string) (file : option UploadedFile)
    (w w' : World) (r : Completion Json.value) :
  sendMessage sid p file w = (r, w') ->
  exists steps,
    runs sid p file w steps r w' /\
    forall s, undisturbed s w steps.
Proof.
  intros Hrun. pose proof (alone_sendMessage sid p file w) as H.
  rewrite Hrun in H.
  destruct (begin sid p file w) as [[r1|call] w1] eqn:Hbegin.
  - cbn in H. injection H as <- <-. exists [(w, w1)].
    split; [now apply runs_at_once |]. intros s. cbn. auto.
  - destruct (alone_continues _ _ _ _ _ H) as (steps & Hsteps & Hquiet).
    exists ((w, w1) :: steps).
    split; [eapply runs_later; eauto |]. intros s. cbn. auto.
Qed.

(** *** The steps of a call that other requests interrupt *)

Lemma resume_same_call (call call' : Suspended) (w w' : World) :
  resume call w = (suspended call', w') ->
  sessionId call' = sessionId call /\ prompt call' = prompt call.
Proof.
  unfold resume, iteration, fails.
  destruct (waiting call) as [[resp|e]|].
  - rewrite conclude_eq. unfold fails.
    destruct (Json.parse_text (text resp)); [| discriminate].
    destruct (history_push _ _ w) as [[[]|e] w1]; discriminate.
  - destruct (status_429_or_503 e); [| discriminate].
    destruct (_ =? _)%Z; [discriminate |].
    intros [= <- _]. auto.
  - destruct (_ <? _)%Z; [| discriminate].
    destruct (ask _ _ w) as [answer w1]. intros [= <- _]. auto.
Qed.

Lemma continues_spec (call : Suspended) (w : World)
    (steps : list (World * World)) (r : Completion Json.value)
    (w' : World) :
  continues call w steps r w' ->
  forall base : list Content,
    (exists more,
       chatHistories w !! sessionId call = Some (base ++ more)%list) ->
    attempt call <= 4 ->
    (waiting call = for_timer -> attempt call < 4) ->
    exists mids before more,
      steps = (mids ++ [(before, w')])%list /\
      Forall
        (fun st =>
           chatHistories (snd st) = chatHistories (fst st) /\
           (sent (snd st) = sent (fst st) \/
            exists more',
              chatHistories (fst st) !! sessionId call
              = Some (base ++ more')%list /\
              sent (snd st)
              = (sent (fst st)
                 ++ [request (prompt call) (base ++ more')])%list))
        mids /\
      sent w' = sent before /\
      length (all_requests mids) + attempt call <= 4 /\
      chatHistories before !! sessionId call = Some (base ++ more)%list /\
      match r with
      | Return v =>
          exists resp body,
            ((mids = [] /\ waiting call = for_answer (Return resp)) \/
             (exists mids' a b req,
                mids = (mids' ++ [(a, b)])%list /\
                sent b = (sent a ++ [req])%list /\
                upstream a (length (sent a)) req = Return resp)) /\
            text resp = Some body /\ Json.parse body = Return v /\
            chatHistories w'
            = <[sessionId call := (base ++ more ++ [model_turn body])%list]>
                (chatHistories before)
      | Throw e =>
          e = failed_response /\ chatHistories w' = chatHistories before
      end.
Proof.
  induction 1 as [call w w1 w' r Hgrow Hstep
                 | call call' w w1 w2 w' steps r Hgrow Hstep Hrest IH];
    intros base [more0 Hbase] Hattempt Htimer;
    destruct (Hgrow _ _ Hbase) as [more1 Hnow];
    rewrite <- app_assoc in Hnow.
  - (* the last step *)
    exists [], w1, (more0 ++ more1)%list.
    split; [reflexivity |]. split; [constructor |].
    unfold resume in Hstep.
    destruct (waiting call) as [[resp|e]|] eqn:Hwait.
    + rewrite (conclude_own _ _ _ _ Hnow) in Hstep.
      destruct (Json.parse_text (text resp)) as [v|pe] eqn:Hparse.
      * injection Hstep as <- <-.
        split; [reflexivity |]. split; [cbn; lia |].
        split; [exact Hnow |].
        destruct (text resp) as [body|] eqn:Hbody; [| discriminate].
        exists resp, body. split; [now left |].
        split; [exact Hbody |]. split; [exact Hparse |].
        cbn. now rewrite <- !app_assoc.
      * injection Hstep as <- <-.
        split; [reflexivity |]. split; [cbn; lia |].
        split; [exact Hnow |]. split; reflexivity.
    + destruct (status_429_or_503 e).
      * destruct (_ =? _)%Z; [| discriminate].
        injection Hstep as <- <-.
        split; [reflexivity |]. split; [cbn; lia |].
        split; [exact Hnow |]. split; reflexivity.
      * injection Hstep as <- <-.
        split; [reflexivity |]. split; [cbn; lia |].
        split; [exact Hnow |]. split; reflexivity.
    + specialize (Htimer eq_refl).
      rewrite (iteration_own _ _ _ _ _ Hnow) in Hstep by lia.
      discriminate.
  - (* one more step *)
    destruct (resume_same_call _ _ _ _ Hstep) as [Hsid Hprompt].
    unfold resume in Hstep.
    destruct (waiting call) as [[resp|e]|] eqn:Hwait.
    + rewrite (conclude_own _ _ _ _ Hnow) in Hstep.
      destruct (Json.parse_text (text resp)); discriminate.
    + destruct (status_429_or_503 e); [| discriminate].
      destruct (_ =? _)%Z eqn:Hlast; [discriminate |].
      apply Z.eqb_neq in Hlast. unfold maxRetries in Hlast.
      injection Hstep as <- <-.
      set (w2 := logged
                   (warn_retrying e (attempt call)
                      (initialDelay * 2 ^ Z.of_nat (attempt call))) w1)
        in *.
      destruct (IH base) as (mids & before & more & -> & Hmids & Hsent
                             & Hcount & Hbefore & Hres).
      { cbn. eauto. }
      { cbn. lia. }
      { cbn. lia. }
      cbn [sessionId prompt attempt waiting] in *.
      exists ((w1, w2) :: mids), before, more.
      split; [reflexivity |].
      split; [constructor; [cbn; auto | exact Hmids] |].
      split; [exact Hsent |].
      split.
      { unfold all_requests in *. cbn [map concat].
        rewrite (own_requests_none w1 w2 eq_refl). exact Hcount. }
      split; [exact Hbefore |].
      destruct r as [v|err]; [| exact Hres].
      destruct Hres as (resp & body & Hlastreq & Hrest').
      exists resp, body. split; [| exact Hrest'].
      right.
      destruct Hlastreq as [[_ Hw] | (mids' & a & b & req & -> & Hab)];
        [discriminate |].
      exists ((w1, w2) :: mids'), a, b, req.
      split; [reflexivity | exact Hab].
    + specialize (Htimer eq_refl).
      rewrite (iteration_own _ _ _ _ _ Hnow) in Hstep by lia.
      injection Hstep as <- <-.
      set (req := request (prompt call) (base ++ more0 ++ more1)) in *.
      set (w2 := set_sent (sent w1 ++ [req]) w1) in *.
      destruct (IH base) as (mids & before & more & -> & Hmids & Hsent
                             & Hcount & Hbefore & Hres).
      { cbn. eauto. }
      { cbn. lia. }
      { cbn. discriminate. }
      cbn [sessionId prompt attempt waiting] in *.
      exists ((w1, w2) :: mids), before, more.
      split; [reflexivity |].
      split.
      { constructor; [| exact Hmids]. cbn [fst snd].
        split; [reflexivity |]. right.
        exists (more0 ++ more1)%list. split; [exact Hnow | reflexivity]. }
      split; [exact Hsent |].
      split.
      { unfold all_requests in *. cbn [map concat].
        rewrite (own_requests_sent w1 w2 [req] eq_refl).
        cbn [app length]. lia. }
      split; [exact Hbefore |].
      destruct r as [v|err]; [| exact Hres].
      destruct Hres as (resp & body & Hlastreq & Hrest').
      exists resp, body. split; [| exact Hrest'].
      right.
      destruct Hlastreq as [[-> Hw] | (mids' & a & b & rq & -> & Hab)].
      * injection Hw as Hw.
        exists [], w1, w2, req. split; [reflexivity |].
        split; [reflexivity | exact Hw].
      * exists ((w1, w2) :: mids'), a, b, rq.
        split; [reflexivity | exact Hab].
Qed.

(** The requests of the steps in the middle of a call. *)
Lemma middle_requests (sid p : string) (base : list Content)
    (mids : list (World * World)) :
  Forall
    (fun st =>
       chatHistories (snd st) = chatHistories (fst st) /\
       (sent (snd st) = sent (fst st) \/
        exists more',
          chatHistories (fst st) !! sid = Some (base ++ more')%list /\
          sent (snd st)
          = (sent (fst st) ++ [request p (base ++ more')])%list))
    mids ->
  Forall (fun st => chatHistories (snd st) = chatHistories (fst st)) mids /\
  Forall (fun st => length (own_requests st) <= 1) mids /\
  Forall (fun req => exists more', req = request p (base ++ more'))
    (all_requests mids) /\
  forall w, chatHistories w !! sid = Some base ->
            undisturbed sid w mids ->
            Forall (fun req => req = request p base) (all_requests mids).
Proof.
  induction 1 as [|[a b] mids [Hkeep Hsent] _ (IH1 & IH2 & IH3 & IH4)].
  - repeat split; intros; constructor.
  - cbn [fst snd] in *. unfold all_requests in *. cbn [map concat].
    destruct Hsent as [Hsame | (more' & Hh & Hsent)].
    + rewrite (own_requests_none a b Hsame).
      split; [now constructor |].
      split; [constructor; [| exact IH2];
              rewrite (own_requests_none a b Hsame); cbn; lia |].
      split; [exact IH3 |].
      intros w Hw [Ha Hrest]. cbn [app]. apply (IH4 b); [| exact Hrest].
      now rewrite Hkeep, Ha.
    + rewrite (own_requests_sent a b _ Hsent).
      split; [now constructor |].
      split; [constructor; [| exact IH2];
              rewrite (own_requests_sent a b _ Hsent); cbn; lia |].
      split; [constructor; [eauto | exact IH3] |].
      intros w Hw [Ha Hrest]. cbn [app].
      assert (Hmore : more' = []).
      { rewrite Ha, Hw in Hh. injection Hh as Hh.
        rewrite <- (app_nil_r base) in Hh at 1.
        now apply app_inv_head in Hh. }
      subst more'. rewrite app_nil_r.
      constructor; [reflexivity |].
      apply (IH4 b); [| exact Hrest]. now rewrite Hkeep, Ha.
Qed.

Lemma undisturbed_last (sid : string) (mids : list (World * World))
    (w before w' : World) :
  Forall (fun st => chatHistories (snd st) = chatHistories (fst st)) mids ->
  undisturbed sid w (mids ++ [(before, w')]) ->
  chatHistories before !! sid = chatHistories w !! sid.
Proof.
  intros Hkeep. revert w.
  induction Hkeep as [|[a b] mids Hab _ IH]; intros w.
  - cbn. tauto.
  - cbn [app undisturbed fst snd] in *. intros [Ha Hrest].
    rewrite (IH b Hrest). now rewrite Hab.
Qed.

Lemma all_requests_app (l1 l2 : list (World * World)) :
  all_requests (l1 ++ l2) = (all_requests l1 ++ all_requests l2)%list.
Proof. unfold all_requests. now rewrite map_app, concat_app. Qed.

(** What a call does, from its start to its end. *)
Lemma runs_spec (sid p : string) (file : option UploadedFile)
    (w : World) (steps : list (World * World))
    (r : Completion Json.value) (w' : World) :
  runs sid p file w steps r w' ->
  (steps = [(w, w')] /\ sent w' = sent w /\
   chatHistories w' = chatHistories w /\
   (r = Throw invalid_session \/ r = Throw failed_response) /\
   (chatHistories w !! sid = None \/
    exists e w1, attach file w = (Throw e, w1)))
  \/
  (exists h attached w1 started mids before more,
     let base := (h ++ [user_turn p attached])%list in
     chatHistories w !! sid = Some h /\
     attach file w = (Return attached, w1) /\
     steps = ((w, started) :: mids ++ [(before, w')])%list /\
     chatHistories started = <[sid := base]> (chatHistories w) /\
     sent started = (sent w ++ [request p base])%list /\
     Forall
       (fun st =>
          chatHistories (snd st) = chatHistories (fst st) /\
          (sent (snd st) = sent (fst st) \/
           exists more',
             chatHistories (fst st) !! sid = Some (base ++ more')%list /\
             sent (snd st)
             = (sent (fst st) ++ [request p (base ++ more')])%list))
       mids /\
     all_requests steps = request p base :: all_requests mids /\
     length (all_requests mids) <= 4 /\
     chatHistories before !! sid = Some (base ++ more)%list /\
     match r with
     | Return v =>
         exists resp body,
           (exists earlier a b req,
              ((w, started) :: mids = earlier ++ [(a, b)])%list /\
              sent b = (sent a ++ [req])%list /\
              upstream a (length (sent a)) req = Return resp) /\
           text resp = Some body /\ Json.parse body = Return v /\
           chatHistories w'
           = <[sid := (base ++ more ++ [model_turn body])%list]>
               (chatHistories before)
     | Throw e =>
         e = failed_response /\ chatHistories w' = chatHistories before
     end).
Proof.
  intros [r0 w0 Hbegin | call w1 w0 steps0 r0 Hbegin Hrest].
  - left. split; [reflexivity |].
    destruct (chatHistories w !! sid) as [h|] eqn:Hh.
    + rewrite (begin_own _ _ _ _ _ Hh) in Hbegin.
      destruct (attach file w) as [[attached|e] w1] eqn:Hattach;
        [discriminate |].
      destruct (attach_frame _ _ _ _ Hattach) as (Hc & _ & _ & Hsent & _).
      injection Hbegin as <- <-. cbn.
      split; [exact Hsent |]. split; [exact Hc |].
      split; [now right | right; eauto].
    + destruct (begin_unknown sid p file w Hh)
        as (e & w2 & Hb & He & Hc & Hsent).
      rewrite Hb in Hbegin. injection Hbegin as <- <-.
      split; [exact Hsent |]. split; [exact Hc |].
      split; [destruct He as [-> | ->]; auto | now left].
  - right.
    destruct (chatHistories w !! sid) as [h|] eqn:Hh.
    2: { destruct (begin_unknown sid p file w Hh) as (e & w2 & Hb & _).
         rewrite Hb in Hbegin. discriminate. }
    rewrite (begin_own _ _ _ _ _ Hh) in Hbegin.
    destruct (attach file w) as [[attached|e] w2] eqn:Hattach;
      [| discriminate].
    destruct (attach_frame _ _ _ _ Hattach) as (Hc & _ & _ & Hsent & _).
    cbn zeta in Hbegin. injection Hbegin as <- <-.
    set (base := (h ++ [user_turn p attached])%list) in *.
    set (started :=
           set_sent (sent w ++ [request p base])
             (set_chatHistories (<[sid := base]> (chatHistories w2)) w2))
      in *.
    destruct (continues_spec _ _ _ _ _ Hrest base)
      as (mids & before & more & -> & Hmids & Hlast & Hcount & Hbefore
          & Hres).
    { exists []. cbn. rewrite app_nil_r. apply lookup_insert_eq. }
    { cbn. lia. }
    { cbn. discriminate. }
    cbn [sessionId prompt attempt waiting] in *.
    exists h, attached, w2, started, mids, before, more. cbn zeta.
    split; [reflexivity |]. split; [reflexivity |].
    split; [reflexivity |].
    split; [cbn; now rewrite Hc |].
    split; [reflexivity |].
    split; [exact Hmids |].
    split.
    { change ((w, started) :: mids ++ [(before, w0)])%list
        with ([(w, started)] ++ mids ++ [(before, w0)])%list.
      rewrite !all_requests_app. unfold all_requests at 1 3.
      cbn [map concat].
      rewrite (own_requests_sent w started [request p base] eq_refl).
      rewrite (own_requests_none before w0 Hlast).
      cbn [app]. now rewrite !app_nil_r. }
    split; [lia |].
    split; [exact Hbefore |].
    destruct r0 as [v|err]; [| exact Hres].
    destruct Hres as (resp & body & Hlastreq & Hrest').
    exists resp, body. split; [| exact Hrest'].
    destruct Hlastreq as [[-> Hw] | (mids' & a & b & rq & -> & Hab)].
    + injection Hw as Hw.
      exists [], w, started, (request p base).
      split; [reflexivity |]. split; [reflexivity | exact Hw].
    + exists ((w, started) :: mids'), a, b, rq.
      split; [reflexivity | exact Hab].
Qed.

End InterleavedFacts.

(** ** What holds of calls that overlap *)

Section OverlapFacts.
Import ChatService Interleaved.

Lemma undisturbed_app_l (sid : string) (l1 l2 : list (World * World)) :
  forall w, undisturbed sid w (l1 ++ l2) -> undisturbed sid w l1.
Proof.
  induction l1 as [|[a b] l1 IH]; intros w; [constructor |].
  cbn [app undisturbed]. intros [Ha Hrest]. split; [exact Ha |].
  now apply IH.
Qed.

(** The block of the attachment succeeds when the file is staged. *)
Lemma attach_found (file : option UploadedFile) (w : World) :
  (forall f, file = Some f -> is_Some (staged w !! staged_path w f)) ->
  exists attached w1, attach file w = (Return attached, w1).
Proof.
  intros Hfile. destruct file as [f|]; [| eexists _, _; reflexivity].
  destruct (Hfile f eq_refl) as [bytes Hbytes].
  unfold staged_path in Hbytes. rewrite attach_some, Hbytes. eauto.
Qed.

(** The requests of a call: the first one carries the history the call
    found and its user turn, and a later one carries these and the turns
    the session has received since. *)
Lemma runs_requests (sid p : string) (file : option UploadedFile)
    (w : World) (steps : list (World * World))
    (r : Completion Json.value) (w' : World) (h : list Content) :
  runs sid p file w steps r w' ->
  chatHistories w !! sid = Some h ->
  (exists e w1,
     attach file w = (Throw e, w1) /\ all_requests steps = [] /\
     r = Throw failed_response)
  \/
  (exists attached w1 rest,
     attach file w = (Return attached, w1) /\
     all_requests steps
     = request p (h ++ [user_turn p attached]) :: rest /\
     length rest <= 4 /\
     Forall
       (fun req =>
          exists more,
            req = request p (h ++ user_turn p attached :: more))
       rest /\
     (undisturbed sid w steps ->
      Forall (fun req => req = request p (h ++ [user_turn p attached]))
        rest)).
Proof.
  intros Hruns Hh.
  destruct (attach file w) as [[attached|e] w1] eqn:Hattach.
  - right.
    destruct (runs_spec _ _ _ _ _ _ _ Hruns)
      as [(_ & _ & _ & _ & [Hnone | (e & w2 & Ha)])
         | (h' & attached' & w2 & started & mids & before & more & Hh'
            & Ha & -> & Hstarted & Hsent0 & Hmids & Hall & Hcount
            & Hbefore & Hres)]; [congruence | congruence |].
    cbn zeta in *. rewrite Hh in Hh'. injection Hh' as <-.
    rewrite Hattach in Ha. injection Ha as <- <-.
    destruct (middle_requests sid p _ mids Hmids)
      as (Hkeep & _ & Hreqs & Hsame).
    exists attached, w1, (all_requests mids).
    split; [reflexivity |]. split; [exact Hall |].
    split; [exact Hcount |].
    split.
    + eapply List.Forall_impl; [| exact Hreqs].
      intros req [more' ->]. exists more'.
      now rewrite <- app_assoc.
    + intros [_ Hquiet]. apply (Hsame started).
      * rewrite Hstarted. apply lookup_insert_eq.
      * eapply undisturbed_app_l. exact Hquiet.
  - left. exists e, w1. split; [reflexivity |].
    destruct (attach_frame _ _ _ _ Hattach) as (_ & _ & _ & Hsent & _).
    destruct Hruns as [r0 w0 Hbegin | call w2 w0 st r0 Hbegin Hrest];
      rewrite (begin_own _ _ _ _ _ Hh), Hattach in Hbegin;
      [| discriminate].
    injection Hbegin as <- <-.
    split; [| reflexivity].
    unfold all_requests. cbn [map concat].
    rewrite (own_requests_none w (logged _ w1)); [reflexivity |].
    exact Hsent.
Qed.

(** The first step of a call leaves the histories grown. *)
Lemma begin_grows (sid p : string) (file : option UploadedFile)
    (w : World) :
  histories_grow w (snd (begin sid p file w)).
Proof.
  destruct (chatHistories w !! sid) as [h|] eqn:Hh.
  - rewrite (begin_own _ _ _ _ _ Hh).
    destruct (attach file w) as [[attached|e] w1] eqn:Hattach;
      destruct (attach_frame _ _ _ _ Hattach) as (Hc & _).
    + cbn zeta. cbn [snd].
      apply (histories_grow_push w _ sid h [user_turn p attached] Hh).
      cbn. now rewrite Hc.
    + apply histories_grow_same. cbn. exact Hc.
  - destruct (begin_unknown sid p file w Hh) as (e & w' & -> & _ & Hc & _).
    now apply histories_grow_same.
Qed.

(** So does every later step of a call. *)
Lemma resume_grows (call : Suspended) (w : World) :
  histories_grow w (snd (resume call w)).
Proof.
  unfold resume, iteration, fails.
  destruct (waiting call) as [[resp|e]|].
  - rewrite conclude_eq. unfold fails.
    destruct (Json.parse_text (text resp));
      [| now apply histories_grow_same].
    unfold history_push, get_history.
    destruct (chatHistories w !! sessionId call) as [h|] eqn:Hh.
    + apply (histories_grow_push w _ (sessionId call) h
               [model_turn (default EmptyString (text resp))] Hh).
      reflexivity.
    + destruct (bool_decide _); now apply histories_grow_same.
  - destruct (status_429_or_503 e); [| now apply histories_grow_same].
    destruct (_ =? _)%Z; now apply histories_grow_same.
  - destruct (_ <? _)%Z; [| now apply histories_grow_same].
    unfold ask, bind, history_now, generateContent.
    destruct (get_history _ w); now apply histories_grow_same.
Qed.

(** So does the start of a session whose identifier is new. *)
Lemma startChatSession_grows (uuid : string) (w : World) :
  chatHistories w !! uuid = None ->
  histories_grow w (snd (startChatSession uuid w)).
Proof.
  intros Hnew sid h Hh. exists []. rewrite app_nil_r. cbn.
  rewrite lookup_insert_ne; [exact Hh | congruence].
Qed.

Lemma ordered_of_spec (history : list Content) (previous : Role) :
  (previous = model -> begins_with_user history) ->
  ~ consecutive_model_turns history ->
  replies_follow_users previous history = true.
Proof.
  revert previous.
  induction history as [|t history IH]; intros previous Hb Hn;
    [reflexivity |].
  cbn [replies_follow_users].
  assert (Hrest : ~ consecutive_model_turns history).
  { intros (before & a & b & after & -> & Ha & Hc).
    apply Hn. now exists (t :: before), a, b, after. }
  destruct (role t) eqn:Ht.
  - apply IH; [discriminate | exact Hrest].
  - destruct previous.
    + apply IH; [| exact Hrest].
      intros _ t' rest ->. destruct (role t') eqn:Ht'; [reflexivity |].
      exfalso. apply Hn. now exists [], t, t', rest.
    + specialize (Hb eq_refl t history eq_refl). congruence.
Qed.

End OverlapFacts.

(** C7.  Whatever other requests the process serves while a call of
    [sendMessage] waits, which only add to the histories, a call that
    returns a result has appended exactly two turns to the history of its
    session.  At its start it appends, after the turns the session then
    holds, the user turn with its prompt; at its end it appends, after the
    turns the session then holds, the model turn with the text of the
    answer of the remote model to the last request the call sent, and the
    result is the value parsed from that text; no other step of the call
    changes a history.  When no turn is added to the session in between,
    the two turns follow each other.  Every request that a later call on
    the session sends carries the turns up to that model turn, in order,
    before the user turn of the later call, and a later call whose
    attachment, if it has one, is staged sends such a request. *)
Theorem sendMessage_appends_two_turns (sessionId prompt : string)
    (file : option UploadedFile) (w : World)
    (steps : list (World * World)) (v : Json.value) (w' : World) :
  Interleaved.runs sessionId prompt file w steps (Return v) w' ->
  exists history attached started mids before between body,
    let first := {| role := user; parts := text_part prompt :: attached |} in
    let second := {| role := model; parts := [text_part body] |} in
    steps = ((w, started) :: mids ++ [(before, w')])%list /\
    chatHistories w !! sessionId = Some history /\
    chatHistories started
    = <[sessionId := (history ++ [first])%list]> (chatHistories w) /\
    Forall (fun step => chatHistories (snd step) = chatHistories (fst step))
      mids /\
    chatHistories before !! sessionId
    = Some (history ++ first :: between)%list /\
    chatHistories w'
    = <[sessionId := (history ++ first :: between ++ [second])%list]>
        (chatHistories before) /\
    (Interleaved.undisturbed sessionId w steps -> between = []) /\
    (exists earlier asked answered req resp,
       ((w, started) :: mids = earlier ++ [(asked, answered)])%list /\
       sent answered = (sent asked ++ [req])%list /\
       upstream asked (length (sent asked)) req = Return resp /\
       text resp = Some body) /\
    Json.parse body = Return v /\
    forall (w2 : World) (prompt' : string) (file' : option UploadedFile)
           (steps' : list (World * World)) (r' : Completion Json.value)
           (w3 : World),
      Interleaved.histories_grow w' w2 ->
      Interleaved.runs sessionId prompt' file' w2 steps' r' w3 ->
      (forall req,
         In req (Interleaved.all_requests steps') ->
         exists later attached' more,
           contents req
           = (history ++ first :: between ++ second :: later
              ++ {| role := user; parts := text_part prompt' :: attached' |}
                 :: more)%list) /\
      ((forall f, file' = Some f ->
                  is_Some (staged w2 !! staged_path w2 f)) ->
       Interleaved.all_requests steps' <> []).
Proof.
  intros Hruns.
  destruct (runs_spec _ _ _ _ _ _ _ Hruns)
    as [(_ & _ & _ & [Hr | Hr] & _)
       | (h & attached & w1 & started & mids & before & more & Hh
          & Hattach & -> & Hstarted & Hsent0 & Hmids & Hall & Hcount
          & Hbefore & Hres)]; try discriminate.
  cbn zeta in *.
  destruct Hres as (resp & body & Hlast & Hbody & Hparse & Hfinal).
  destruct (middle_requests sessionId prompt _ mids Hmids) as (Hkeep & _).
  rewrite <- app_assoc in Hbefore, Hfinal. cbn [app] in Hbefore, Hfinal.
  exists h, attached, started, mids, before, more, body. cbn zeta.
  split; [reflexivity |]. split; [exact Hh |]. split; [exact Hstarted |].
  split; [exact Hkeep |]. split; [exact Hbefore |].
  split; [exact Hfinal |].
  split.
  { intros [_ Hquiet].
    pose proof (undisturbed_last _ _ _ _ _ Hkeep Hquiet) as Hsame.
    rewrite Hbefore, Hstarted, lookup_insert_eq in Hsame.
    injection Hsame as Hsame.
    change (h ++ user_turn prompt attached :: more)%list
      with (h ++ [user_turn prompt attached] ++ more)%list in Hsame.
    rewrite app_assoc in Hsame.
    rewrite <- (app_nil_r (h ++ [user_turn prompt attached])) in Hsame at 2.
    now apply app_inv_head in Hsame. }
  split.
  { destruct Hlast as (earlier & a & b & req & Heq & Hsent & Hup).
    exists earlier, a, b, req, resp. auto. }
  split; [exact Hparse |].
  intros w2 prompt' file' steps' r' w3 Hgrow Hruns'.
  assert (Hnow : chatHistories w' !! sessionId
                 = Some (h ++ user_turn prompt attached
                           :: more ++ [model_turn body])%list)
    by (rewrite Hfinal; apply lookup_insert_eq).
  destruct (Hgrow _ _ Hnow) as [later Hlater].
  destruct (runs_requests _ _ _ _ _ _ _ _ Hruns' Hlater)
    as [(e & w4 & Hattach' & Hnone & _)
       | (attached' & w4 & rest & Hattach' & Hreqs & _ & Hrest & _)].
  - split.
    + intros req Hin. rewrite Hnone in Hin. destruct Hin.
    + intros Hfile. destruct (attach_found _ _ Hfile) as (a & w5 & Ha).
      congruence.
  - split; [| intros _; rewrite Hreqs; discriminate].
    intros req Hin. rewrite Hreqs in Hin.
    destruct Hin as [<- | Hin].
    + exists later, attached', []. rewrite session_contents.
      rewrite <- !app_assoc. cbn [app]. rewrite <- !app_assoc.
      reflexivity.
    + destruct (proj1 (List.Forall_forall _ _) Hrest req Hin) as [more' ->].
      exists later, attached', more'. rewrite session_contents.
      rewrite <- !app_assoc. cbn [app]. rewrite <- !app_assoc.
      reflexivity.
Qed.

(** Two calls on one session that overlap: the second one starts while
    the first one waits for its answer, so that the user turn of the
    second stands between the two turns of the first. *)
Lemma sendMessage_appends_two_turns_witness :
  let w := step (Examples.fresh (Examples.always "{}"))
                (start_session Examples.uuid) in
  let first_call :=
    {| Interleaved.sessionId := Examples.uuid;
       Interleaved.prompt := "first";
       Interleaved.attempt := 0;
       Interleaved.waiting :=
         Interleaved.for_answer (Examples.answer "{}") |} in
  let w1 := snd (Interleaved.begin Examples.uuid "first" None w) in
  let w2 := snd (Interleaved.begin Examples.uuid "second" None w1) in
  let w3 := snd (Interleaved.resume first_call w2) in
  Interleaved.runs Examples.uuid "first" None w [(w, w1); (w2, w3)]
    (Return (Json.Object [])) w3 /\
  exists between body,
    chatHistories w3 !! Examples.uuid
    = Some ({| role := user; parts := [text_part "first"] |}
            :: between
            ++ [{| role := model; parts := [text_part body] |}])%list /\
    between = [{| role := user; parts := [text_part "second"] |}] /\
    Json.parse body = Return (Json.Object []).
Proof.
  intros w first_call w1 w2 w3.
  assert (Hruns : Interleaved.runs Examples.uuid "first" None w
                    [(w, w1); (w2, w3)] (Return (Json.Object [])) w3).
  { apply (Interleaved.runs_later _ _ _ _ first_call); [reflexivity |].
    apply Interleaved.continues_last; [apply begin_grows | reflexivity]. }
  split; [exact Hruns |].
  destruct (sendMessage_appends_two_turns _ _ _ _ _ _ _ Hruns)
    as (history & attached & started & mids & before & between & body
        & Hsteps & Hh & _ & _ & Hbefore & Hfinal & _ & _ & Hparse & _).
  cbn zeta in *.
  assert (Hmids : mids = [] /\ before = w2).
  { injection Hsteps as _ Hrest.
    destruct mids as [|st [|st' mids]]; cbn in Hrest;
      [| discriminate | discriminate].
    injection Hrest as <-. auto. }
  destruct Hmids as [-> ->].
  assert (Hempty : history = []).
  { assert (H0 : chatHistories w !! Examples.uuid = Some [])
      by (vm_compute; reflexivity).
    congruence. }
  subst history. cbn [app] in *.
  assert (H2 : chatHistories w2 !! Examples.uuid
               = Some [user_turn "first" []; user_turn "second" []])
    by (vm_compute; reflexivity).
  rewrite H2 in Hbefore. injection Hbefore as Hattached Hbetween.
  exists between, body.
  split.
  { rewrite Hfinal, lookup_insert_eq.
    unfold user_turn in *. now rewrite <- Hattached. }
  split; [now subst between | exact Hparse].
Defined.

(** X2. Starting a session never fails and asks nothing of the remote
    model: it returns the identifier, gives it an empty history and leaves
    the other sessions, the staged files and the requests sent as they
    are.  A first call of [sendMessage] on the new session, whatever is
    served while it waits, is not refused as an unknown session; the
    request it sends first carries the user turn of that message alone,
    and every request it sends begins with that turn. *)
Theorem new_session_starts_empty (uuid prompt : string)
    (file : option UploadedFile) (w : World) :
  let started := ChatService.startChatSession uuid w in
  let w1 := snd started in
  fst started = Return uuid /\
  chatHistories w1 !! uuid = Some [] /\
  (forall other, other <> uuid ->
     chatHistories w1 !! other = chatHistories w !! other) /\
  staged w1 = staged w /\ sent w1 = sent w /\
  forall (steps : list (World * World)) (r : Completion Json.value)
         (w' : World),
    Interleaved.runs uuid prompt file w1 steps r w' ->
    r <> Throw ChatService.invalid_session /\
    (forall req rest,
       Interleaved.all_requests steps = req :: rest ->
       exists attached,
         contents req
         = [{| role := user; parts := text_part prompt :: attached |}]) /\
    (forall req,
       In req (Interleaved.all_requests steps) ->
       exists attached more,
         contents req
         = {| role := user; parts := text_part prompt :: attached |}
           :: more).
Proof.
  intros started w1. subst started w1. rewrite startChatSession_eq.
  cbn [fst snd].
  set (w1 := logged _ _).
  assert (Hnew : chatHistories w1 !! uuid = Some [])
    by (cbn; apply lookup_insert_eq).
  split; [reflexivity |]. split; [exact Hnew |].
  split. { intros other Hne. cbn. now apply lookup_insert_ne. }
  split; [reflexivity |]. split; [reflexivity |].
  intros steps r w' Hruns.
  destruct (runs_requests _ _ _ _ _ _ _ _ Hruns Hnew)
    as [(e & w4 & _ & Hnone & ->)
       | (attached & w4 & rest & _ & Hreqs & _ & Hrest & _)].
  - split; [discriminate |]. rewrite Hnone.
    split; [discriminate | intros req []].
  - split.
    { destruct (runs_spec _ _ _ _ _ _ _ Hruns)
        as [(_ & _ & _ & _ & [Hnone | (e & w5 & Hattach)])
           | (h & a & w5 & st & mids & before & more & _ & _ & _ & _ & _
              & _ & _ & _ & _ & Hres)].
      - congruence.
      - destruct (runs_requests _ _ _ _ _ _ _ _ Hruns Hnew)
          as [(_ & _ & _ & _ & ->) | (a & w6 & _ & Ha & _)];
          [discriminate | congruence].
      - destruct r as [v|e]; [discriminate |].
        destruct Hres as [-> _]. discriminate. }
    rewrite Hreqs. split.
    + intros req rest' [= <- _]. exists attached.
      now rewrite session_contents.
    + intros req [<- | Hin].
      * exists attached, []. now rewrite session_contents.
      * destruct (proj1 (List.Forall_forall _ _) Hrest req Hin)
          as [more ->].
        exists attached, more. now rewrite session_contents.
Qed.

(** X5. One call of the one-shot operation sends at most five requests to
    the remote model, all of them equal, and returns no result without
    having sent one.  One call of [sendMessage], whatever is served while
    it waits, sends at most five requests, which differ in the transcript
    only, and returns no result without having sent one; when no turn is
    added to its session in between, its requests are equal. *)
Theorem operations_send_few_requests :
  (forall (prompt : string) (file : option UploadedFile) (w : World),
     let run := GeminiService.generateStructuredContent prompt file w in
     exists n attached,
       n <= 5 /\
       requests_of w (snd run)
       = repeat (GeminiService.request prompt [user_turn prompt attached])
           n /\
       forall v, fst run = Return v -> 1 <= n)
  /\
  (forall (sessionId prompt : string) (file : option UploadedFile)
          (w : World) (steps : list (World * World))
          (r : Completion Json.value) (w' : World),
     Interleaved.runs sessionId prompt file w steps r w' ->
     let reqs := Interleaved.all_requests steps in
     length reqs <= 5 /\
     (forall req, In req reqs ->
        exists turns, req = ChatService.request prompt turns) /\
     (forall v, r = Return v -> 1 <= length reqs) /\
     (Interleaved.undisturbed sessionId w steps ->
      exists req, reqs = repeat req (length reqs))).
Proof.
  split.
  - intros prompt file w run. subst run.
    destruct (generateStructuredContent_outcome prompt file w)
      as (n & attached & w1 & c & _ & _ & Hn & Hreqs & Hres).
    exists n, attached. split; [exact Hn |]. split; [exact Hreqs |].
    intros v Hv. destruct Hres as [(v' & _ & Hone) | Hf];
      [exact Hone | congruence].
  - intros sessionId prompt file w steps r w' Hruns reqs. subst reqs.
    destruct (chatHistories w !! sessionId) as [h|] eqn:Hh.
    + destruct (runs_requests _ _ _ _ _ _ _ _ Hruns Hh)
        as [(e & w1 & _ & -> & ->)
           | (attached & w1 & rest & _ & -> & Hlen & Hrest & Hsame)].
      * cbn. split; [lia |]. split; [intros req [] |].
        split; [discriminate |]. intros _. now exists Examples.ping.
      * cbn [length]. split; [lia |].
        split.
        { intros req [<- | Hin]; [eauto |].
          destruct (proj1 (List.Forall_forall _ _) Hrest req Hin)
            as [more ->]. eauto. }
        split; [intros; lia |].
        intros Hquiet. specialize (Hsame Hquiet).
        exists (ChatService.request prompt (h ++ [user_turn prompt attached])).
        cbn [repeat]. f_equal.
        clear -Hsame. induction Hsame as [|x rest -> _ IH];
          [reflexivity |]. cbn. now rewrite <- IH.
    + destruct (runs_spec _ _ _ _ _ _ _ Hruns)
        as [(-> & Hsent & _ & Hr & _)
           | (h & a & w5 & st & mids & before & more & Hh' & _)];
        [| congruence].
      unfold Interleaved.all_requests. cbn [map concat].
      rewrite (own_requests_none _ _ Hsent). cbn.
      split; [lia |]. split; [intros req [] |].
      split; [intros v ->; destruct Hr; discriminate |].
      intros _. now exists Examples.ping.
Qed.

(** X17. An attachment reaches the remote model whole.  When the staged
    file of the attachment exists, the call sends at least one request,
    and every request of a one-shot call and of a call of [sendMessage],
    whatever is served while it waits, carries after the turns the
    session held the user turn of the prompt followed by one part for the
    file, which has the media type of the upload and whose data is the
    Base64 text of the file: it decodes to the bytes of the file and has
    four characters for every three bytes, the last group padded. *)
Theorem attachment_carries_the_file (prompt : string) (f : UploadedFile)
    (w : World) (bytes : string) :
  staged w !! staged_path w f = Some bytes ->
  exists data,
    Rfc4648.decode data = Some bytes /\
    String.length data = 4 * ((String.length bytes + 2) / 3) /\
    let turn :=
      {| role := user;
         parts := [text_part prompt; inlineData data (mimetype f)] |} in
    (exists m,
       requests_of w
         (snd (GeminiService.generateStructuredContent prompt (Some f) w))
       = repeat (GeminiService.request prompt [turn]) (S m)) /\
    (forall (sessionId : string) (history : list Content)
            (steps : list (World * World)) (r : Completion Json.value)
            (w' : World),
       chatHistories w !! sessionId = Some history ->
       Interleaved.runs sessionId prompt (Some f) w steps r w' ->
       Interleaved.all_requests steps <> [] /\
       forall req,
         In req (Interleaved.all_requests steps) ->
         exists more,
           req = ChatService.request prompt (history ++ turn :: more)%list).
Proof.
  intros Hfile. unfold staged_path in Hfile.
  exists (Base64.encode bytes).
  split; [apply decode_encode |]. split; [apply encode_length |].
  cbn zeta.
  pose proof (attach_some f w) as Hattach. cbn zeta in Hattach.
  rewrite Hfile in Hattach.
  split.
  - destruct (generateStructuredContent_run prompt (Some f) w)
      as [(e & w1 & Ha & _) | (attached & w1 & m & Ha & Hrun)].
    { rewrite Hattach in Ha. discriminate. }
    rewrite Hattach in Ha. injection Ha as <- <-.
    cbn zeta in Hrun. destruct Hrun as (_ & _ & _ & Hsent & _).
    exists m. exact (requests_of_app _ _ _ Hsent).
  - intros sessionId history steps r w' Hh Hruns.
    destruct (runs_requests _ _ _ _ _ _ _ _ Hruns Hh)
      as [(e & w1 & Ha & _)
         | (attached & w1 & rest & Ha & -> & _ & Hrest & _)].
    { rewrite Hattach in Ha. discriminate. }
    rewrite Hattach in Ha. injection Ha as <- <-.
    split; [discriminate |].
    intros req [<- | Hin].
    + now exists [].
    + exact (proj1 (List.Forall_forall _ _) Hrest req Hin).
Qed.

(** The six bytes of the staged file of the examples travel as eight
    characters. *)
Lemma attachment_carries_the_file_witness :
  let w := Examples.with_notes (Examples.always "{}") in
  staged w !! staged_path w Examples.notes = Some "Newton" /\
  exists data,
    Rfc4648.decode data = Some "Newton" /\ String.length data = 8.
Proof.
  intros w.
  assert (Hfile : staged w !! staged_path w Examples.notes = Some "Newton")
    by (vm_compute; reflexivity).
  split; [exact Hfile |].
  destruct (attachment_carries_the_file "sum up" Examples.notes w "Newton"
              Hfile) as (data & Hdecode & Hlength & _).
  exists data. split; [exact Hdecode | exact Hlength].
Defined.

(** X20. A call of [sendMessage] during which no other turn is added to
    its session keeps the history of the session in order: when the
    history begins with a user turn, if it has a turn, and holds no two
    model turns in a row, the same holds of the history the call leaves,
    whether the call succeeds or fails. *)
Theorem histories_stay_ordered (sessionId prompt : string)
    (file : option UploadedFile) (w : World)
    (steps : list (World * World)) (r : Completion Json.value)
    (w' : World) (history : list Content) :
  Interleaved.runs sessionId prompt file w steps r w' ->
  Interleaved.undisturbed sessionId w steps ->
  chatHistories w !! sessionId = Some history ->
  begins_with_user history -> ~ consecutive_model_turns history ->
  exists history',
    chatHistories w' !! sessionId = Some history' /\
    begins_with_user history' /\ ~ consecutive_model_turns history'.
Proof.
  intros Hruns Hquiet Hh Hb Hn.
  pose proof (ordered_of_spec history model (fun _ => Hb) Hn) as Hordered.
  assert (Hgoal : forall h',
            replies_follow_users model h' = true ->
            begins_with_user h' /\ ~ consecutive_model_turns h').
  { intros h' H. destruct (replies_follow_users_spec h' model H) as [H1 H2].
    split; [now apply H1 | exact H2]. }
  destruct (runs_spec _ _ _ _ _ _ _ Hruns)
    as [(_ & _ & Hsame & _)
       | (h & attached & w1 & started & mids & before & more & Hh'
          & _ & -> & Hstarted & _ & Hmids & _ & _ & Hbefore & Hres)].
  - exists history. rewrite Hsame. split; [exact Hh |]. now apply Hgoal.
  - cbn zeta in *. rewrite Hh in Hh'. injection Hh' as <-.
    destruct (middle_requests sessionId prompt _ mids Hmids) as (Hkeep & _).
    destruct Hquiet as [_ Hquiet].
    pose proof (undisturbed_last _ _ _ _ _ Hkeep Hquiet) as Hlast.
    rewrite Hbefore, Hstarted, lookup_insert_eq in Hlast.
    injection Hlast as Hlast.
    rewrite <- (app_nil_r (history ++ [user_turn prompt attached])) in Hlast
      at 2.
    apply app_inv_head in Hlast. subst more. rewrite app_nil_r in *.
    destruct r as [v|e].
    + destruct Hres as (resp & body & _ & _ & _ & Hfinal).
      eexists. split; [rewrite Hfinal; apply lookup_insert_eq |].
      apply Hgoal. cbn [app]. rewrite <- app_assoc.
      apply replies_follow_users_app; [exact Hordered |].
      now intros [].
    + destruct Hres as [_ Hfinal].
      eexists. split; [rewrite Hfinal; exact Hbefore |].
      apply Hgoal.
      apply replies_follow_users_app; [exact Hordered |].
      now intros [].
Qed.

(** A first message on a new session, served without interruption. *)
Lemma histories_stay_ordered_witness :
  let w := step (Examples.fresh (Examples.always "{}"))
                (start_session Examples.uuid) in
  exists history',
    chatHistories (snd (ChatService.sendMessage Examples.uuid "first" None w))
      !! Examples.uuid = Some history' /\
    begins_with_user history' /\ ~ consecutive_model_turns history'.
Proof.
  intros w.
  destruct (ChatService.sendMessage Examples.uuid "first" None w)
    as [r w'] eqn:Hrun.
  destruct (runs_alone _ _ _ _ _ _ Hrun) as (steps & Hruns & Hquiet).
  apply (histories_stay_ordered Examples.uuid "first" None w steps r w' []
           Hruns (Hquiet Examples.uuid)).
  - vm_compute. reflexivity.
  - intros turn rest. discriminate.
  - intros (before & a & b & after & Heq & _). now destruct before.
Defined.
